(** * Embedding & vector-index subsystem of mem0-redis-hybrid

  A shallow embedding of [vector-embedding/app/cache.py],
  [vector-embedding/app/embeddings.py] and
  [vector-embedding/app/vector_search.py], with the properties the
  design document states about them.

  Conventions.
  - A Python [float] is an exact rational ([Q]); rounding is not modelled.
    A [List[float]] is a [list Q].  The index works in float32: a
    component beyond the largest float32 becomes infinite there and the
    scores of its row are not numbers.  The exact arithmetic stands for
    the code on vectors within float32 only; the statements that need it
    say so ([within_float32]).
  - A Python [str] is a [string].
  - Every Python function is a computation in the state-and-exception
    monad [Py]: it takes the state of the process-wide singletons and
    returns either a value or a raised exception, with the new state.
  - The external libraries (redis, hashlib, openai, sentence_transformers,
    faiss, sklearn) are interfaces: type classes whose fields are the
    library calls the code makes. *)

From Stdlib Require Import String Ascii List ZArith QArith Lia Bool.
From Stdlib Require Import Sorting.Sorted Sorting.Permutation.
From stdpp Require Import gmap strings pretty.
Import ListNotations.

Local Open Scope string_scope.
Local Open Scope list_scope.

(** ** Python values *)

Definition vector := list Q.

(** Exceptions.  [Exn cls msg] is an exception of class [cls] whose [str()]
    is [msg].  [RetryError last] is what tenacity raises when
    [stop_after_attempt] gives up; [last] is the exception of the last
    attempt. *)
Inductive exn :=
| Exn (cls : string) (msg : string)
| RetryError (last : exn).

Definition ValueError (msg : string) : exn := Exn "ValueError" msg.
Definition IndexError (msg : string) : exn := Exn "IndexError" msg.

(** What a failed [assert] raises: an [AssertionError] without a message. *)
Definition AssertionError : exn := Exn "AssertionError" "".

Definition exn_class (e : exn) : string :=
  match e with
  | Exn cls _ => cls
  | RetryError _ => "RetryError"
  end.

(** [str(e)], as an f-string renders it.  tenacity prints a [RetryError] as
    the class name followed by the finished future of the last attempt,
    which shows the class of the last exception and not its message.  The
    future is printed with its address in memory ([<Future at 0x... state=
    finished raised ...>]); the address differs from run to run and is
    left out here. *)
Definition str (e : exn) : string :=
  match e with
  | Exn _ msg => msg
  | RetryError last =>
      "RetryError[<Future state=finished raised " +:+ exn_class last +:+ ">]"
  end.

Inductive result (A : Type) :=
| Ok (a : A)
| Raise (e : exn).
Arguments Ok {A} a.
Arguments Raise {A} e.

(** Truthiness of the values the code tests with [if x:]. *)
Definition truthy_str (s : string) : bool :=
  match s with EmptyString => false | _ => true end.

Definition truthy_opt_str (s : option string) : bool :=
  match s with Some s => truthy_str s | None => false end.

Definition truthy_list {A} (l : list A) : bool :=
  match l with [] => false | _ => true end.

Definition truthy_opt_list {A} (l : option (list A)) : bool :=
  match l with Some l => truthy_list l | None => false end.

(** ** config/settings.py *)

Record Settings := {
  openai_api_key : option string;
  redis_url : string;
  embedding_model_openai : string;
  embedding_model_local : string;
  cache_ttl : Z;
  max_batch_size : Z;
  vector_dimension : Z;
  faiss_index_path : string
}.

Definition default_settings : Settings := {|
  openai_api_key := None;
  redis_url := "redis://localhost:6379/0";
  embedding_model_openai := "text-embedding-3-small";
  embedding_model_local := "all-MiniLM-L6-v2";
  cache_ttl := 86400;
  max_batch_size := 100;
  vector_dimension := 1536;
  faiss_index_path := "faiss_index.bin"
|}.

(** ** The redis client

  The server keeps, for every key, the time-to-live it was written with
  and a value.  A value is the pickle of a float list, or bytes, not
  empty, that [pickle.loads] rejects (an empty value is no value to the
  code, which tests [if value:] before it unpickles).  [faults] schedules
  store-level errors: its n-th entry tells whether the n-th command sent
  from now on raises (connection lost, timeout, ...); past its end
  commands succeed.  [sent] counts the commands sent so far. *)

Inductive blob :=
| Pickled (v : vector)
| Corrupt.

Record Redis := {
  db : gmap string (Z * blob);
  faults : list bool;
  sent : nat
}.

Definition ConnectionError : exn := Exn "ConnectionError" "Error connecting to redis".
Definition UnpicklingError : exn := Exn "UnpicklingError" "invalid load key".

(** One round trip: consume the next entry of the fault schedule. *)
Definition round_trip (r : Redis) : bool * Redis :=
  (match faults r with b :: _ => b | [] => false end,
   {| db := db r; faults := tl (faults r); sent := S (sent r) |}).

Definition redis_get (key : string) (r : Redis) : result (option blob) * Redis :=
  let (failed, r') := round_trip r in
  if failed then (Raise ConnectionError, r')
  else (Ok (snd <$> db r' !! key), r').

Definition redis_setex (key : string) (ttl : Z) (value : blob) (r : Redis)
  : result unit * Redis :=
  let (failed, r') := round_trip r in
  if failed then (Raise ConnectionError, r')
  else (Ok tt, {| db := <[key := (ttl, value)]> (db r'); faults := faults r'; sent := sent r' |}).

Definition redis_mget (keys : list string) (r : Redis)
  : result (list (option blob)) * Redis :=
  let (failed, r') := round_trip r in
  if failed then (Raise ConnectionError, r')
  else (Ok (map (fun key => snd <$> db r' !! key) keys), r').

(** A pipeline queues [setex] commands and [execute] sends them in one
    round trip, as one transaction: on a store error none is applied. *)
Definition pipeline_execute (queued : list (string * Z * blob)) (r : Redis)
  : result unit * Redis :=
  let (failed, r') := round_trip r in
  if failed then (Raise ConnectionError, r')
  else (Ok tt,
        {| db := fold_left (fun m '(key, ttl, value) => <[key := (ttl, value)]> m)
                           queued (db r');
           faults := faults r'; sent := sent r' |}).

Definition pickle_loads (b : blob) : result vector :=
  match b with
  | Pickled v => Ok v
  | Corrupt => Raise UnpicklingError
  end.

Definition pickle_dumps (v : vector) : blob := Pickled v.

(** ** Process state

  [cache_manager], [embedding_service] are process-wide singletons; the
  state of both, with counters of the provider calls made so far. *)

Record CacheManagerState := {
  redis_client : option Redis;
  available : bool
}.

(** A loaded sentence-transformers model, known by the name it was loaded
    from. *)
Definition LocalModel := string.

Record EmbeddingServiceState := {
  openai_client : bool;
  local_model : option LocalModel;
  local_model_name : option string
}.

Record World := {
  cache_manager : CacheManagerState;
  embedding_service : EmbeddingServiceState;
  openai_calls : nat;
  local_loads : nat;
  local_encodes : nat
}.

(** ** The monad of Python computations *)

Definition Py (A : Type) : Type := World -> result A * World.

Definition ret {A} (a : A) : Py A := fun w => (Ok a, w).
Definition raise {A} (e : exn) : Py A := fun w => (Raise e, w).
Definition bind {A B} (m : Py A) (k : A -> Py B) : Py B :=
  fun w => match m w with
           | (Ok a, w') => k a w'
           | (Raise e, w') => (Raise e, w')
           end.

(** [try: body  except Exception as e: handler]; what [body] did to the
    state before it raised stays done. *)
Definition try_except {A} (body : Py A) (handler : exn -> Py A) : Py A :=
  fun w => match body w with
           | (Ok a, w') => (Ok a, w')
           | (Raise e, w') => handler e w'
           end.

Declare Scope py_scope.
Delimit Scope py_scope with py.
Notation "'let*' x ':=' m 'in' k" := (bind m (fun x => k))
  (at level 10, x pattern, m at level 100, k at level 200) : py_scope.
Notation "m ';;' k" := (bind m (fun _ => k))
  (at level 100, k at level 200, right associativity) : py_scope.

Definition set_cache_manager (c : CacheManagerState) (w : World) : World :=
  {| cache_manager := c; embedding_service := embedding_service w;
     openai_calls := openai_calls w; local_loads := local_loads w;
     local_encodes := local_encodes w |}.

Definition set_embedding_service (s : EmbeddingServiceState) (w : World) : World :=
  {| cache_manager := cache_manager w; embedding_service := s;
     openai_calls := openai_calls w; local_loads := local_loads w;
     local_encodes := local_encodes w |}.

(** ** hashlib *)

Class Hashlib := {
  (** [hashlib.md5(content.encode()).hexdigest()] *)
  md5_hexdigest : string -> string
}.

(** ** app/cache.py *)

Module CacheManager.
Section CacheManager.
Context `{Hashlib}.
Variable settings : Settings.

Local Open Scope py_scope.

(** [__init__]: [connect] is what [redis.from_url] followed by [ping]
    gives, [None] when either raises. *)
Definition __init__ (connect : option Redis) : CacheManagerState :=
  match connect with
  | Some r => {| redis_client := Some r; available := true |}
  | None => {| redis_client := None; available := false |}
  end.

Definition _generate_key (text model : string) : string :=
  let content := text +:+ ":" +:+ model in
  "embedding:" +:+ md5_hexdigest content.

(** A command on [self.redis_client].  On a client that is [None] the
    attribute access raises. *)
Definition on_client {A} (cmd : Redis -> result A * Redis) : Py A :=
  fun w =>
    match redis_client (cache_manager w) with
    | None => (Raise (Exn "AttributeError" "'NoneType' object has no attribute"), w)
    | Some r =>
        let (res, r') := cmd r in
        (res, set_cache_manager
                {| redis_client := Some r'; available := available (cache_manager w) |} w)
    end.

Definition lift_result {A} (r : result A) : Py A := fun w => (r, w).

Definition is_available : Py bool := fun w => (Ok (available (cache_manager w)), w).

Definition get_embedding (text model : string) : Py (option vector) :=
  let* avail := is_available in
  if negb avail then ret None
  else
    try_except
      (let key := _generate_key text model in
       let* cached := on_client (redis_get key) in
       match cached with
       | Some b => let* v := lift_result (pickle_loads b) in ret (Some v)
       | None => ret None
       end)
      (fun _ => ret None).

Definition set_embedding (text model : string) (embedding : vector) : Py unit :=
  let* avail := is_available in
  if negb avail then ret tt
  else
    try_except
      (let key := _generate_key text model in
       on_client (redis_setex key (cache_ttl settings) (pickle_dumps embedding)))
      (fun _ => ret tt).

Fixpoint loads_all (cached_values : list (option blob)) : result (list (option vector)) :=
  match cached_values with
  | [] => Ok []
  | value :: rest =>
      match value with
      | Some b =>
          match pickle_loads b with
          | Ok v => match loads_all rest with
                    | Ok results => Ok (Some v :: results)
                    | Raise e => Raise e
                    end
          | Raise e => Raise e
          end
      | None => match loads_all rest with
                | Ok results => Ok (None :: results)
                | Raise e => Raise e
                end
      end
  end.

Definition get_batch_embeddings (texts : list string) (model : string)
  : Py (list (option vector)) :=
  let* avail := is_available in
  if negb avail then ret (repeat None (length texts))
  else
    try_except
      (let keys := map (fun text => _generate_key text model) texts in
       let* cached_values := on_client (redis_mget keys) in
       lift_result (loads_all cached_values))
      (fun _ => ret (repeat None (length texts))).

Definition set_batch_embeddings (texts : list string) (model : string)
    (embeddings : list vector) : Py unit :=
  let* avail := is_available in
  if negb avail then ret tt
  else
    try_except
      (let queued :=
         map (fun '(text, embedding) =>
                (_generate_key text model, cache_ttl settings, pickle_dumps embedding))
             (combine texts embeddings) in
       on_client (pipeline_execute queued))
      (fun _ => ret tt).

End CacheManager.
End CacheManager.

(** ** The embedding providers

  [openai_embeddings_create n input model] is the answer of the n-th call
  of [client.embeddings.create(input=..., model=...)]: the [embedding]
  fields of [response.data], or the exception raised.  The API takes one
  string or a list of strings.  [SentenceTransformer n name] is the n-th
  attempt to load a model and [encode n m texts] the n-th call of
  [m.encode(texts)], one row per text. *)

Inductive openai_input :=
| One (text : string)
| Many (texts : list string).

Class Providers := {
  openai_embeddings_create : nat -> openai_input -> string -> result (list vector);
  SentenceTransformer : nat -> string -> result LocalModel;
  encode : nat -> LocalModel -> list string -> result (list vector)
}.

Inductive model_type := openai | local.

Definition is_openai (t : model_type) : bool :=
  match t with openai => true | local => false end.

(** ** app/embeddings.py *)

Module EmbeddingService.
Section EmbeddingService.
Context `{Hashlib} `{Providers}.
Variable settings : Settings.

Local Open Scope py_scope.

Definition __init__ : EmbeddingServiceState :=
  {| openai_client := truthy_opt_str (openai_api_key settings);
     local_model := None;
     local_model_name := None |}.

Definition self : Py EmbeddingServiceState :=
  fun w => (Ok (embedding_service w), w).

Definition set_self (s : EmbeddingServiceState) : Py unit :=
  fun w => (Ok tt, set_embedding_service s w).

Definition call_SentenceTransformer (name : string) : Py LocalModel :=
  fun w =>
    (SentenceTransformer (local_loads w) name,
     {| cache_manager := cache_manager w; embedding_service := embedding_service w;
        openai_calls := openai_calls w; local_loads := S (local_loads w);
        local_encodes := local_encodes w |}).

Definition call_encode (m : LocalModel) (texts : list string) : Py (list vector) :=
  fun w =>
    (encode (local_encodes w) m texts,
     {| cache_manager := cache_manager w; embedding_service := embedding_service w;
        openai_calls := openai_calls w; local_loads := local_loads w;
        local_encodes := S (local_encodes w) |}).

Definition call_openai (input : openai_input) (model : string) : Py (list vector) :=
  fun w =>
    (openai_embeddings_create (openai_calls w) input model,
     {| cache_manager := cache_manager w; embedding_service := embedding_service w;
        openai_calls := S (openai_calls w); local_loads := local_loads w;
        local_encodes := local_encodes w |}).

Definition _load_local_model : Py unit :=
  let* s := self in
  match local_model s with
  | Some _ => ret tt
  | None =>
      try_except
        (let* m := call_SentenceTransformer (embedding_model_local settings) in
         let* s := self in
         set_self {| openai_client := openai_client s;
                     local_model := Some m;
                     local_model_name := Some (embedding_model_local settings) |})
        (fun e =>
           let* s := self in
           set_self {| openai_client := openai_client s;
                       local_model := None;
                       local_model_name := local_model_name s |})
  end.

(** tenacity's [@retry(stop=stop_after_attempt(n))]: [retry more f] runs
    [f] and, when it raises, runs it again up to [more] further times;
    when the last attempt raises too, [RetryError] is raised.  The waits
    between attempts are not modelled. *)
Fixpoint retry {A} (more : nat) (f : Py A) : Py A :=
  try_except f
    (fun e => match more with
              | O => raise (RetryError e)
              | S more' => retry more' f
              end).

(** The body of [_get_openai_embedding], one attempt. *)
Definition _get_openai_embedding_attempt (text : string) (model : option string)
  : Py vector :=
  let* s := self in
  if negb (openai_client s) then raise (ValueError "OpenAI API key not configured")
  else
    let model := if truthy_opt_str model then default "" model
                 else embedding_model_openai settings in
    try_except
      (let* data := call_openai (One text) model in
       match data with
       | embedding :: _ => ret embedding
       | [] => raise (IndexError "list index out of range")
       end)
      (fun e => raise e).

Definition _get_openai_embedding (text : string) (model : option string) : Py vector :=
  retry 2 (_get_openai_embedding_attempt text model).

Definition _get_local_embedding (text : string) : Py vector :=
  _load_local_model ;;
  let* s := self in
  match local_model s with
  | None => raise (ValueError "Local model not available")
  | Some m =>
      try_except
        (let* rows := call_encode m [text] in
         match rows with
         | embedding :: _ => ret embedding
         | [] => raise (IndexError "index 0 is out of bounds")
         end)
        (fun e => raise e)
  end.

(** Lines 72-81 of [get_embedding], repeated as lines 124-132 of
    [get_batch_embeddings]: the model type and name. *)
Definition resolve_model (model : option string) : Py (model_type * string) :=
  let* s := self in
  if truthy_opt_str model && String.prefix "text-embedding" (default "" model)
  then ret (openai, default "" model)
  else if truthy_opt_str model
  then ret (local, default "" model)
  else
    let model_type := if openai_client s then openai else local in
    let model_name := if is_openai model_type
                      then embedding_model_openai settings
                      else embedding_model_local settings in
    ret (model_type, model_name).

(** Lines 89-116 of [get_embedding]: the provider call, the cache write
    and the fallback. *)
Definition compute_embedding (text : string) (model_type : model_type)
    (model_name : string) (use_cache : bool) : Py (vector * string) :=
  try_except
    (let* embedding :=
       (if is_openai model_type
        then _get_openai_embedding text (Some model_name)
        else _get_local_embedding text) in
     (if use_cache
      then CacheManager.set_embedding settings text model_name embedding
      else ret tt) ;;
     ret (embedding, model_name))
    (fun e =>
       let* s := self in
       let* fallen_back :=
         (if is_openai model_type && bool_decide (local_model s <> None)
          then
            try_except
              (let* embedding := _get_local_embedding text in
               let fallback_model := embedding_model_local settings in
               (if use_cache
                then CacheManager.set_embedding settings text fallback_model embedding
                else ret tt) ;;
               ret (Some (embedding, fallback_model)))
              (fun _ => ret None)
          else ret None) in
       match fallen_back with
       | Some r => ret r
       | None => raise (ValueError ("All embedding methods failed: " +:+ str e))
       end).

Definition get_embedding (text : string) (model : option string) (use_cache : bool)
  : Py (vector * string) :=
  let* (model_type, model_name) := resolve_model model in
  let* cached := (if use_cache then CacheManager.get_embedding text model_name
                  else ret None) in
  if use_cache && truthy_opt_list cached
  then ret (default [] cached, model_name)
  else compute_embedding text model_type model_name use_cache.

(** The loop of lines 142-148: the cached vectors in place, [None] where
      there is none, with the positions and texts of the misses. *)
Fixpoint split_cached (i : nat) (pairs : list (string * option vector))
  : list (option vector) * list nat * list string :=
  match pairs with
  | [] => ([], [], [])
  | (text, cached) :: rest =>
      let '(embeddings, uncached_indices, uncached_texts) := split_cached (S i) rest in
      if truthy_opt_list cached
      then (cached :: embeddings, uncached_indices, uncached_texts)
      else (None :: embeddings, i :: uncached_indices, text :: uncached_texts)
  end.

(** [for idx, new_emb in zip(uncached_indices, new_embeddings):
       embeddings[idx] = new_emb] *)
Definition store_new (embeddings : list (option vector))
    (uncached_indices : list nat) (new_embeddings : list vector)
  : list (option vector) :=
  fold_left (fun embs '(idx, new_emb) => <[idx := Some new_emb]> embs)
            (combine uncached_indices new_embeddings) embeddings.

Definition local_batch_encode (uncached_texts : list string) (not_loaded : exn)
  : Py (list vector) :=
  _load_local_model ;;
  let* s := self in
  match local_model s with
  | None => raise not_loaded
  | Some m => call_encode m uncached_texts
  end.

(** Lines 155-210 of [get_batch_embeddings]: the provider call for the
    misses, the cache write and the fallback.  The cache write cannot
    raise, so the handler finds [embeddings] as they were before the
    [try]. *)
Definition process_uncached (embeddings : list (option vector))
    (uncached_indices : list nat) (uncached_texts : list string)
    (model_type : model_type) (model_name : string) (use_cache : bool)
  : Py (list (option vector) * string) :=
  try_except
    (let* s := self in
     let* new_embeddings :=
       (if is_openai model_type && openai_client s
        then call_openai (Many uncached_texts) model_name
        else local_batch_encode uncached_texts
               (ValueError "Local model not available")) in
     let embeddings := store_new embeddings uncached_indices new_embeddings in
     (if use_cache && truthy_list new_embeddings
      then CacheManager.set_batch_embeddings settings uncached_texts model_name
             new_embeddings
      else ret tt) ;;
     ret (embeddings, model_name))
    (fun e =>
       if is_openai model_type
       then
         try_except
           (let* new_embeddings :=
              local_batch_encode uncached_texts
                (ValueError "Local model fallback failed") in
            let embeddings := store_new embeddings uncached_indices new_embeddings in
            let model_name := embedding_model_local settings in
            (if use_cache
             then CacheManager.set_batch_embeddings settings uncached_texts model_name
                    new_embeddings
             else ret tt) ;;
            ret (embeddings, model_name))
           (fun fallback_error =>
              raise (ValueError ("All batch embedding methods failed: " +:+ str e
                                 +:+ ", " +:+ str fallback_error)))
       else raise (ValueError ("Batch embedding failed: " +:+ str e))).

(** Lines 134-152: the cache lookup for all texts. *)
Definition check_cache (texts : list string) (model_name : string) (use_cache : bool)
  : Py (list (option vector) * list nat * list string) :=
  if use_cache
  then
    let* cached_embeddings := CacheManager.get_batch_embeddings texts model_name in
    ret (split_cached 0 (combine texts cached_embeddings))
  else ret (repeat None (length texts), seq 0 (length texts), texts).

Definition get_batch_embeddings (texts : list string) (model : option string)
    (use_cache : bool) : Py (list (option vector) * string) :=
  if (max_batch_size settings <? Z.of_nat (length texts))%Z
  then raise (ValueError ("Batch size " +:+ pretty (length texts) +:+
                          " exceeds limit " +:+ pretty (max_batch_size settings)))
  else
    let* (model_type, model_name) := resolve_model model in
    let* (embeddings, uncached_indices, uncached_texts) :=
      check_cache texts model_name use_cache in
    if truthy_list uncached_texts
    then process_uncached embeddings uncached_indices uncached_texts
           model_type model_name use_cache
    else ret (embeddings, model_name).

(** An entry of [get_available_models]. *)
Record ModelEntry := {
  entry_name : string;
  entry_type : string;
  entry_dimension : Z;
  entry_available : bool
}.

Definition get_available_models : Py (list ModelEntry) :=
  let* s := self in
  let models := [] in
  let models :=
    if openai_client s
    then models ++
         [ {| entry_name := "text-embedding-3-small"; entry_type := "openai";
              entry_dimension := 1536; entry_available := true |};
           {| entry_name := "text-embedding-3-large"; entry_type := "openai";
              entry_dimension := 3072; entry_available := true |};
           {| entry_name := "text-embedding-ada-002"; entry_type := "openai";
              entry_dimension := 1536; entry_available := true |} ]
    else models in
  let models :=
    models ++
    [ {| entry_name := "all-MiniLM-L6-v2"; entry_type := "local";
         entry_dimension := 384; entry_available := true |};
      {| entry_name := "all-mpnet-base-v2"; entry_type := "local";
         entry_dimension := 768; entry_available := true |} ] in
  ret models.

End EmbeddingService.
End EmbeddingService.

(** ** faiss and sklearn

  [IndexFlatIP] keeps the rows it was given and answers a search with
  the best inner products.  [normalize_L2] and the inner product are the
  library's float kernels.  Every vector handed to the index is taken to
  be a row of the index's dimension. *)

Class Faiss := {
  normalize_L2 : vector -> vector;
  inner_product : vector -> vector -> Q
}.

(** [KMeans(n_clusters=k, random_state=42, n_init=10)] followed by
    [fit_predict(X)] and [cluster_centers_]: the labels and the centers, or
    the exception raised. *)
Class Sklearn := {
  KMeans_fit_predict : nat -> list vector -> result (list nat * list vector)
}.

Fixpoint enumerate_from {A} (i : nat) (l : list A) : list (nat * A) :=
  match l with
  | [] => []
  | x :: l' => (i, x) :: enumerate_from (S i) l'
  end.

(** [l[i]] for a Python int [i]: negative indices count from the end. *)
Definition py_getitem {A} (l : list A) (i : Z) : option A :=
  if (0 <=? i)%Z then l !! Z.to_nat i
  else if (- Z.of_nat (length l) <=? i)%Z then l !! Z.to_nat (Z.of_nat (length l) + i)
  else None.

Section FlatIndex.
Context `{Faiss}.

(** The largest float32; faiss pads a result that has fewer than [k]
    rows with index -1 and the score [-FLT_MAX]. *)
Definition FLT_MAX : Q := 340282346638528859811704183484516925440.

Definition score_rows (q : vector) (rows : list vector) : list (Q * Z) :=
  map (fun '(i, row) => (inner_product q row, Z.of_nat i)) (enumerate_from 0 rows).

(** Ranking by descending score.  Rows of equal score stay in index
    order here; the library has its own order among them, and what is
    stated of every search below does not depend on that order. *)
Fixpoint insert_desc (x : Q * Z) (l : list (Q * Z)) : list (Q * Z) :=
  match l with
  | [] => [x]
  | y :: l' => if Qle_bool (fst y) (fst x) then x :: y :: l'
               else y :: insert_desc x l'
  end.

Fixpoint sort_desc (l : list (Q * Z)) : list (Q * Z) :=
  match l with
  | [] => []
  | x :: l' => insert_desc x (sort_desc l')
  end.

(** [index.search(q, k)] for one query row: the pairs of [scores[0]] and
    [indices[0]]. *)
Definition faiss_search (rows : list vector) (q : vector) (k : nat) : list (Q * Z) :=
  firstn k (sort_desc (score_rows q rows))
  ++ repeat ((- FLT_MAX)%Q, (-1)%Z) (k - length rows).
End FlatIndex.

(** ** app/vector_search.py *)

Record SearchHit := {
  hit_text : string;
  hit_score : Q;
  hit_index : Z;
  hit_metadata : gmap string string
}.

Record ClusterItem := {
  item_text : string;
  item_index : nat;
  item_metadata : gmap string string
}.

Record Clustering := {
  clusters : list (nat * list ClusterItem);
  centroids : list vector;
  n_clusters : option nat
}.

(** The engine.  [index] holds the rows of [self.index] and [index_d] its
    dimension [self.index.d], fixed when the index is created or read. *)
Record VectorSearchEngineState := {
  index : list vector;
  index_d : Z;
  texts : list string;
  metadata : list (gmap string string);
  dimension : Z;
  index_path : string
}.

(** ** The disk

    A file is an index written by [faiss.write_index], the pickle of the
    dict [save_index] writes (a key may be missing from a dict written by
    someone else), or anything else.  The paths of [read_only] cannot be
    opened for writing. *)

Record Sidecar := {
  saved_texts : option (list string);
  saved_metadata : option (list (gmap string string));
  saved_dimension : option Z
}.

Inductive file :=
| IndexFile (d : Z) (rows : list vector)
| PickleFile (data : Sidecar)
| Unreadable.

Record Disk := {
  files : gmap string file;
  read_only : gset string
}.

Definition os_path_exists (path : string) (disk : Disk) : bool :=
  bool_decide (is_Some (files disk !! path)).

(** Writing a file: [faiss.write_index], or [open(path, 'wb')] followed by
    [pickle.dump]. *)
Definition write_file (path : string) (content : file) (disk : Disk)
  : result unit * Disk :=
  if bool_decide (path ∈ read_only disk)
  then (Raise (Exn "PermissionError" "Permission denied"), disk)
  else (Ok tt, {| files := <[path := content]> (files disk); read_only := read_only disk |}).

Definition faiss_read_index (path : string) (disk : Disk)
  : result (Z * list vector) :=
  match files disk !! path with
  | Some (IndexFile d rows) => Ok (d, rows)
  | _ => Raise (Exn "RuntimeError" "could not read the index")
  end.

(** [pickle.load] on the file opened for reading. *)
Definition pickle_load (path : string) (disk : Disk) : result Sidecar :=
  match files disk !! path with
  | Some (PickleFile data) => Ok data
  | Some _ => Raise UnpicklingError
  | None => Raise (Exn "FileNotFoundError" "No such file or directory")
  end.

(** [np.array(rows).astype('float32')] followed by [faiss.normalize_L2]:
    the number of columns of the matrix.  Rows of different lengths make
    no matrix (numpy raises [ValueError]; newer versions add the shape
    they found to the message), and the array of an empty list has no
    second axis for [normalize_L2] to read. *)
Definition np_matrix (rows : list vector) : result nat :=
  match rows with
  | [] => Raise (IndexError "tuple index out of range")
  | row :: rest =>
      if forallb (fun r => (length r =? length row)%nat) rest
      then Ok (length row)
      else Raise (ValueError "setting an array element with a sequence.")
  end.

Module VectorSearchEngine.
Section VectorSearchEngine.
Context `{Faiss} `{Sklearn}.
Variable settings : Settings.

(** [__init__] when no index file exists at [index_path]. *)
Definition __init__ : VectorSearchEngineState :=
  {| index := []; index_d := vector_dimension settings;
     texts := []; metadata := [];
     dimension := vector_dimension settings;
     index_path := faiss_index_path settings |}.

Definition ntotal (self : VectorSearchEngineState) : nat := length (index self).

Definition add_vectors (self : VectorSearchEngineState)
    (embeddings : list vector) (new_texts : list string)
    (new_metadata : option (list (gmap string string)))
  : result unit * VectorSearchEngineState :=
  if negb (truthy_list embeddings) || negb (truthy_list new_texts)
  then (Ok tt, self)
  else if negb (length embeddings =? length new_texts)%nat
  then (Raise (ValueError "Number of embeddings must match number of texts"), self)
  else
    match np_matrix embeddings with
    | Raise e => (Raise e, self)
    | Ok d =>
        let vectors := map normalize_L2 embeddings in
        (* [index.add] starts with [assert d == self.d] *)
        if negb (Z.of_nat d =? index_d self)%Z then (Raise AssertionError, self)
        else
          (Ok tt,
           {| index := index self ++ vectors;
              index_d := index_d self;
              texts := texts self ++ new_texts;
              metadata := metadata self ++
                          (if truthy_opt_list new_metadata
                           then default [] new_metadata
                           else map (fun _ => ∅) new_texts);
              dimension := dimension self;
              index_path := index_path self |})
    end.

(** The loop of lines 66-78 of [search]. *)
Fixpoint format_results (self : VectorSearchEngineState) (threshold : option Q)
    (found : list (Q * Z)) : result (list SearchHit) :=
  match found with
  | [] => Ok []
  | (score, idx) :: rest =>
      if (idx =? -1)%Z then format_results self threshold rest
      else if match threshold with
              | Some t => negb (Qle_bool t score)
              | None => false
              end
      then format_results self threshold rest
      else
        match py_getitem (texts self) idx with
        | None => Raise (IndexError "list index out of range")
        | Some text =>
            let hit := {| hit_text := text;
                          hit_score := score;
                          hit_index := idx;
                          hit_metadata :=
                            if (idx <? Z.of_nat (length (metadata self)))%Z
                            then default ∅ (py_getitem (metadata self) idx)
                            else ∅ |} in
            match format_results self threshold rest with
            | Ok results => Ok (hit :: results)
            | Raise e => Raise e
            end
        end
  end.

(** [index.search(x, k)] starts with [assert d == self.d] and
    [assert k > 0]. *)
Definition search (self : VectorSearchEngineState) (query_embedding : vector)
    (top_k : Z) (threshold : option Q) : result (list SearchHit) :=
  if (ntotal self =? 0)%nat then Ok []
  else
    let query_vector := normalize_L2 query_embedding in
    let k := Z.min top_k (Z.of_nat (ntotal self)) in
    if negb (Z.of_nat (length query_embedding) =? index_d self)%Z
    then Raise AssertionError
    else if negb (0 <? k)%Z then Raise AssertionError
    else
      let found := faiss_search (index self) query_vector (Z.to_nat k) in
      format_results self threshold found.

(** The inner loop of [get_similar_pairs], for the record [i]. *)
Definition pairs_of (i : nat) (threshold : Q) (found : list (Q * Z))
  : list (nat * Z * Q) :=
  map (fun '(score, idx) => (i, idx, score))
      (List.filter (fun '(score, idx) => (Z.of_nat i <? idx)%Z && Qle_bool threshold score)
              found).

(** The query of each search is a row of the index and at least two rows
    are asked for, so the two assertions of [index.search] hold. *)
Definition get_similar_pairs (self : VectorSearchEngineState) (threshold : Q)
  : list (nat * Z * Q) :=
  if (ntotal self <? 2)%nat then []
  else
    flat_map
      (fun i =>
         let vector := normalize_L2 (default [] (index self !! i)) in
         let found := faiss_search (index self) vector (Nat.min 10 (ntotal self)) in
         pairs_of i threshold found)
      (seq 0 (ntotal self)).

(** [clusters[label].append(item)] on an insertion-ordered dict. *)
Fixpoint dict_append (clusters : list (nat * list ClusterItem)) (label : nat)
    (item : ClusterItem) : list (nat * list ClusterItem) :=
  match clusters with
  | [] => [(label, [item])]
  | (k, v) :: rest =>
      if (k =? label)%nat then (k, v ++ [item]) :: rest
      else (k, v) :: dict_append rest label item
  end.

(** The loop of lines 126-133 of [cluster_vectors]. *)
Fixpoint group_by_label (self : VectorSearchEngineState)
    (clusters : list (nat * list ClusterItem)) (labelled : list (nat * nat))
  : result (list (nat * list ClusterItem)) :=
  match labelled with
  | [] => Ok clusters
  | (i, label) :: rest =>
      match texts self !! i with
      | None => Raise (IndexError "list index out of range")
      | Some text =>
          let item := {| item_text := text;
                         item_index := i;
                         item_metadata :=
                           if (i <? length (metadata self))%nat
                           then default ∅ (metadata self !! i)
                           else ∅ |} in
          group_by_label self (dict_append clusters label item) rest
      end
  end.

Definition cluster_vectors (self : VectorSearchEngineState) (k : nat)
  : result Clustering :=
  if (ntotal self =? 0)%nat
  then Ok {| clusters := []; centroids := []; n_clusters := None |}
  else
    let vectors := index self in
    match KMeans_fit_predict (Nat.min k (ntotal self)) vectors with
    | Raise e => Raise e
    | Ok (cluster_labels, centers) =>
        match group_by_label self [] (enumerate_from 0 cluster_labels) with
        | Raise e => Raise e
        | Ok groups =>
            Ok {| clusters := groups; centroids := centers;
                  n_clusters := Some (length groups) |}
        end
    end.

Definition clear_index (self : VectorSearchEngineState) : VectorSearchEngineState :=
  {| index := []; index_d := dimension self;
     texts := []; metadata := [];
     dimension := dimension self; index_path := index_path self |}.

(** The inner loop of lines 98-107 of [batch_search]. *)
Fixpoint format_batch_row (self : VectorSearchEngineState) (found : list (Q * Z))
  : result (list SearchHit) :=
  match found with
  | [] => Ok []
  | (score, idx) :: rest =>
      if (idx =? -1)%Z then format_batch_row self rest
      else
        match py_getitem (texts self) idx with
        | None => Raise (IndexError "list index out of range")
        | Some text =>
            let hit := {| hit_text := text;
                          hit_score := score;
                          hit_index := idx;
                          hit_metadata :=
                            if (idx <? Z.of_nat (length (metadata self)))%Z
                            then default ∅ (py_getitem (metadata self) idx)
                            else ∅ |} in
            match format_batch_row self rest with
            | Ok results => Ok (hit :: results)
            | Raise e => Raise e
            end
        end
  end.

(** The outer loop of lines 96-108 of [batch_search]. *)
Fixpoint format_batch (self : VectorSearchEngineState) (all_found : list (list (Q * Z)))
  : result (list (list SearchHit)) :=
  match all_found with
  | [] => Ok []
  | found :: rest =>
      match format_batch_row self found with
      | Raise e => Raise e
      | Ok results =>
          match format_batch self rest with
          | Ok all_results => Ok (results :: all_results)
          | Raise e => Raise e
          end
      end
  end.

(** [index.search] on a matrix of queries answers each row as it answers
    that row alone, after the same two assertions. *)
Definition batch_search (self : VectorSearchEngineState)
    (query_embeddings : list vector) (top_k : Z) : result (list (list SearchHit)) :=
  if (ntotal self =? 0)%nat then Ok (map (fun _ => []) query_embeddings)
  else
    match np_matrix query_embeddings with
    | Raise e => Raise e
    | Ok d =>
        let query_vectors := map normalize_L2 query_embeddings in
        let k := Z.min top_k (Z.of_nat (ntotal self)) in
        if negb (Z.of_nat d =? index_d self)%Z then Raise AssertionError
        else if negb (0 <? k)%Z then Raise AssertionError
        else
          let all_found :=
            map (fun q => faiss_search (index self) q (Z.to_nat k)) query_vectors in
          format_batch self all_found
    end.

Definition save_index (self : VectorSearchEngineState) (path : option string)
    (disk : Disk) : result unit * Disk :=
  let save_path := if truthy_opt_str path then default "" path else index_path self in
  match write_file save_path (IndexFile (index_d self) (index self)) disk with
  | (Raise e, disk') => (Raise e, disk')
  | (Ok _, disk') =>
      let metadata_path := save_path +:+ ".metadata" in
      write_file metadata_path
        (PickleFile {| saved_texts := Some (texts self);
                       saved_metadata := Some (metadata self);
                       saved_dimension := Some (dimension self) |})
        disk'
  end.

(** [load_index] catches every exception of its body: it returns no
    error. *)
Definition load_index (self : VectorSearchEngineState) (path : option string)
    (disk : Disk) : VectorSearchEngineState :=
  let load_path := if truthy_opt_str path then default "" path else index_path self in
  let metadata_path := load_path +:+ ".metadata" in
  let failed :=
    {| index := []; index_d := dimension self;
       texts := []; metadata := [];
       dimension := dimension self; index_path := index_path self |} in
  match faiss_read_index load_path disk with
  | Raise _ => failed
  | Ok (d, rows) =>
      if os_path_exists metadata_path disk
      then
        match pickle_load metadata_path disk with
        | Raise _ => failed
        | Ok data =>
            {| index := rows;
               index_d := d;
               texts := default [] (saved_texts data);
               metadata := default [] (saved_metadata data);
               dimension := default (dimension self) (saved_dimension data);
               index_path := index_path self |}
        end
      else
        {| index := rows; index_d := d;
           texts := texts self; metadata := metadata self;
           dimension := dimension self; index_path := index_path self |}
  end.

Definition _initialize_index (self : VectorSearchEngineState) (disk : Disk)
  : VectorSearchEngineState :=
  if os_path_exists (index_path self) disk
  then load_index self None disk
  else {| index := []; index_d := dimension self;
          texts := texts self; metadata := metadata self;
          dimension := dimension self; index_path := index_path self |}.

(** [__init__] on a disk: the fields of lines 11-15, then
    [_initialize_index]. *)
Definition __init__on (disk : Disk) : VectorSearchEngineState :=
  _initialize_index
    {| index := []; index_d := vector_dimension settings;
       texts := []; metadata := [];
       dimension := vector_dimension settings;
       index_path := faiss_index_path settings |}
    disk.

End VectorSearchEngine.
End VectorSearchEngine.

(** * Vocabulary of the statements *)

(** What the store holds, when there is a client. *)
Definition stored (w : World) : option (gmap string (Z * blob)) :=
  db <$> redis_client (cache_manager w).

(** The vector a successful read of [key] yields. *)
Definition peek (r : Redis) (key : string) : option vector :=
  match snd <$> db r !! key with
  | Some (Pickled v) => Some v
  | _ => None
  end.

(** Whether the next command sent to the store raises, and the client
    after a command was sent. *)
Definition next_fault (r : Redis) : bool := fst (round_trip r).
Definition touch (r : Redis) : Redis := snd (round_trip r).

(** The process with its redis client replaced. *)
Definition with_client (r : Redis) (w : World) : World :=
  set_cache_manager
    {| redis_client := Some r; available := available (cache_manager w) |} w.

(** The store after one [setex], and after the [setex] commands of a
    pipeline. *)
Definition write (key : string) (ttl : Z) (value : blob) (r : Redis) : Redis :=
  {| db := <[key := (ttl, value)]> (db r); faults := faults r; sent := sent r |}.

Definition write_all (queued : list (string * Z * blob)) (r : Redis) : Redis :=
  {| db := fold_left (fun m '(key, ttl, value) => <[key := (ttl, value)]> m) queued (db r);
     faults := faults r; sent := sent r |}.

(** What [get_batch_embeddings] answers when the round trip succeeds. *)
Definition peek_all `{Hashlib} (r : Redis) (texts : list string) (model : string)
  : list (option vector) :=
  match CacheManager.loads_all
          (map (fun key => snd <$> db r !! key)
               (map (fun text => CacheManager._generate_key text model) texts)) with
  | Ok results => results
  | Raise _ => repeat None (length texts)
  end.

(** The commands [set_batch_embeddings] queues. *)
Definition queue `{Hashlib} (settings : Settings) (texts : list string) (model : string)
    (embeddings : list vector) : list (string * Z * blob) :=
  map (fun '(text, embedding) =>
         (CacheManager._generate_key text model, cache_ttl settings, pickle_dumps embedding))
      (combine texts embeddings).

(** Two states [agree] when they differ in the cache only.  Two
    computations are [sim]ilar when, from states that agree, they end with
    the same value or exception in states that agree. *)
Definition agree (w1 w2 : World) : Prop :=
  embedding_service w1 = embedding_service w2 /\
  openai_calls w1 = openai_calls w2 /\
  local_loads w1 = local_loads w2 /\
  local_encodes w1 = local_encodes w2.

Definition sim {A} (m1 m2 : Py A) : Prop :=
  forall w1 w2, agree w1 w2 ->
    fst (m1 w1) = fst (m2 w2) /\ agree (snd (m1 w1)) (snd (m2 w2)).

(** The cache cannot serve the next operation: it never connected, it has
    no client, or the next command sent to the store raises. *)
Inductive store_failure (w : World) : Prop :=
| cache_unavailable :
  available (cache_manager w) = false -> store_failure w
| client_missing :
  redis_client (cache_manager w) = None -> store_failure w
| command_fails r :
  redis_client (cache_manager w) = Some r -> next_fault r = true -> store_failure w.

(** The model type and name lines 72-81 compute. *)
Definition resolved (settings : Settings) (client : bool) (model : option string)
  : model_type * string :=
  if truthy_opt_str model && String.prefix "text-embedding" (default "" model)
  then (openai, default "" model)
  else if truthy_opt_str model
  then (local, default "" model)
  else if client then (openai, embedding_model_openai settings)
  else (local, embedding_model_local settings).

(** The cache answered the ping and the store raises no error from now
    on. *)
Definition healthy (w : World) : Prop :=
  available (cache_manager w) = true /\
  exists r, redis_client (cache_manager w) = Some r /\ faults r = [].

(** Descending order of score. *)
Definition desc (a b : Q * Z) : Prop := (fst b <= fst a)%Q.

(** The rows of an answer that [search] turns into results. *)
Definition passes (threshold : option Q) (entry : Q * Z) : bool :=
  negb (snd entry =? -1)%Z &&
  match threshold with
  | Some t => Qle_bool t (fst entry)
  | None => true
  end.

(** The score and the index of a result. *)
Definition hit_entry (h : SearchHit) : Q * Z := (hit_score h, hit_index h).

(** The parallel arrays are as long as the index. *)
Definition aligned (self : VectorSearchEngineState) : Prop :=
  length (texts self) = length (index self) /\
  length (metadata self) = length (index self).

(** The metadata of a call that keeps the arrays aligned: omitted, or one
    mapping per text. *)
Definition metadata_fits (new_texts : list string)
    (new_metadata : option (list (gmap string string))) : Prop :=
  match new_metadata with
  | None => True
  | Some l => length l = length new_texts
  end.

(** The states an engine goes through: created empty, then any sequence of
    [add_vectors] with fitting metadata and [clear_index]. *)
Inductive reachable `{Faiss} (settings : Settings) : VectorSearchEngineState -> Prop :=
| reach_init : reachable settings (VectorSearchEngine.__init__ settings)
| reach_add self embeddings new_texts new_metadata :
  reachable settings self ->
  metadata_fits new_texts new_metadata ->
  reachable settings
    (snd (VectorSearchEngine.add_vectors self embeddings new_texts new_metadata))
| reach_clear self :
  reachable settings self ->
  reachable settings (VectorSearchEngine.clear_index self).

(** The items of a clustering are records of the text array. *)
Definition items_in_range (self : VectorSearchEngineState)
    (groups : list (nat * list ClusterItem)) : Prop :=
  forall label items it, In (label, items) groups -> In it items ->
    (item_index it < length (texts self))%nat.

(** The process after [k] more calls of the API, and after one more call
    of [encode]. *)
Definition bump_openai (k : nat) (w : World) : World :=
  {| cache_manager := cache_manager w; embedding_service := embedding_service w;
     openai_calls := k + openai_calls w; local_loads := local_loads w;
     local_encodes := local_encodes w |}.

Definition bump_encodes (w : World) : World :=
  {| cache_manager := cache_manager w; embedding_service := embedding_service w;
     openai_calls := openai_calls w; local_loads := local_loads w;
     local_encodes := S (local_encodes w) |}.

(** The first row of an answer, as [data[0]] or [encode([text])[0]] take
    it. *)
Definition first_row (index_error : string) (answer : result (list vector))
  : result vector :=
  match answer with
  | Ok (embedding :: _) => Ok embedding
  | Ok [] => Raise (IndexError index_error)
  | Raise e => Raise e
  end.

(** The value the cache lookup of [get_embedding] yields. *)
Definition cache_lookup `{Hashlib} (text name : string) (w : World) : option vector :=
  match fst (CacheManager.get_embedding text name w) with
  | Ok cached => cached
  | Raise _ => None
  end.

(** The model name an attempt sends to the API. *)
Definition sent_model (settings : Settings) (name : string) : string :=
  if truthy_str name then name else embedding_model_openai settings.

(** The similarity of two records, as [get_similar_pairs] measures it: the
    inner product of the first, normalized once more, with the second. *)
Definition similarity `{Faiss} (self : VectorSearchEngineState) (i j : nat) : Q :=
  inner_product (normalize_L2 (default [] (index self !! i)))
                (default [] (index self !! j)).

(** The pairs the design document asks for: every [i < j] whose similarity
    meets the threshold. *)
Definition qualifying_pairs `{Faiss} (self : VectorSearchEngineState) (threshold : Q)
  : list (nat * nat) :=
  List.filter (fun '(i, j) => Qle_bool threshold (similarity self i j))
    (flat_map (fun i => map (pair i) (seq (S i) (VectorSearchEngine.ntotal self - S i)))
              (seq 0 (VectorSearchEngine.ntotal self))).

(** The local model after [_load_local_model]: the loaded one, or the one
    the loader gives now. *)
Definition load_outcome `{Providers} (settings : Settings) (w : World)
  : option LocalModel :=
  match local_model (embedding_service w) with
  | Some m => Some m
  | None =>
      match SentenceTransformer (local_loads w) (embedding_model_local settings) with
      | Ok m => Some m
      | Raise _ => None
      end
  end.

(** The process after [_load_local_model]. *)
Definition after_load `{Providers} (settings : Settings) (w : World) : World :=
  snd (EmbeddingService._load_local_model settings w).

(** The values the cache lookup of [get_batch_embeddings] yields. *)
Definition batch_lookup `{Hashlib} (texts : list string) (name : string) (w : World)
  : list (option vector) :=
  match fst (CacheManager.get_batch_embeddings texts name w) with
  | Ok cached => cached
  | Raise _ => repeat None (length texts)
  end.

(** No text of the batch has a cache entry that cannot be unpickled. *)
Definition readable `{Hashlib} (w : World) (texts : list string) (name : string) : Prop :=
  forall r text, redis_client (cache_manager w) = Some r -> In text texts ->
    snd <$> db r !! CacheManager._generate_key text name <> Some Corrupt.

(** The cached values the two calls go by: none when the cache is not
    used. *)
Definition single_lookup `{Hashlib} (use_cache : bool) (text name : string) (w : World)
  : option vector :=
  if use_cache then cache_lookup text name w else None.

Definition batch_lookups `{Hashlib} (use_cache : bool) (texts : list string) (name : string)
    (w : World) : list (option vector) :=
  if use_cache then batch_lookup texts name w else repeat None (length texts).

(** Providers that answer the same way at every call. *)
Definition deterministic `{Providers} : Prop :=
  (forall n n' input name,
     openai_embeddings_create n input name = openai_embeddings_create n' input name) /\
  (forall n n' m texts, encode n m texts = encode n' m texts).

(** The answer to a list of texts holds, at each position, the answer to
    the text at that position alone. *)
Definition batch_agrees `{Providers} : Prop :=
  (forall n texts name answers,
     openai_embeddings_create n (Many texts) name = Ok answers ->
     forall i text, texts !! i = Some text ->
       exists v rest, openai_embeddings_create n (One text) name = Ok (v :: rest) /\
                      answers !! i = Some v) /\
  (forall n m texts answers,
     encode n m texts = Ok answers ->
     forall i text, texts !! i = Some text ->
       exists v rest, encode n m [text] = Ok (v :: rest) /\ answers !! i = Some v).

(** A computation [keeps] a relation between states when every run of it
    ends in a state related to the one it started from. *)
Definition keeps {A} (R : World -> World -> Prop) (m : Py A) : Prop :=
  forall w, R w (snd (m w)).

(** No call of the API was made. *)
Definition no_api_call (w w' : World) : Prop :=
  openai_calls w' = openai_calls w.

(** A local model that was loaded is still the loaded one, and no load was
    attempted. *)
Definition model_kept (w w' : World) : Prop :=
  forall m, local_model (embedding_service w) = Some m ->
    local_model (embedding_service w') = Some m /\ local_loads w' = local_loads w.

(** The cache manager was not touched. *)
Definition cache_kept (w w' : World) : Prop :=
  cache_manager w' = cache_manager w.

(** The providers answer a request for n texts with n vectors. *)
Definition one_row_per_text `{Providers} : Prop :=
  (forall n texts name answers,
     openai_embeddings_create n (Many texts) name = Ok answers ->
     length answers = length texts) /\
  (forall n m texts answers,
     encode n m texts = Ok answers -> length answers = length texts).

(** What the attempt of [_get_openai_embedding] yields when the API has
    been called [n] times before. *)
Definition attempt_answer `{Providers} (settings : Settings) (text name : string) (n : nat)
  : result vector :=
  first_row "list index out of range"
    (openai_embeddings_create n (One text) (sent_model settings name)).

(** A vector of [d] components, and a vector whose components float32
    can hold. *)
Definition has_dimension (d : Z) (v : vector) : Prop := Z.of_nat (length v) = d.

Definition within_float32 (v : vector) : Prop :=
  Forall (fun x => (- FLT_MAX <= x <= FLT_MAX)%Q) v.

(** The states an engine goes through when every vector it is given is
    within float32. *)
Inductive reachable_within_float32 `{Faiss} (settings : Settings)
  : VectorSearchEngineState -> Prop :=
| within_init : reachable_within_float32 settings (VectorSearchEngine.__init__ settings)
| within_add self embeddings new_texts new_metadata :
  reachable_within_float32 settings self ->
  metadata_fits new_texts new_metadata ->
  Forall within_float32 embeddings ->
  reachable_within_float32 settings
    (snd (VectorSearchEngine.add_vectors self embeddings new_texts new_metadata))
| within_clear self :
  reachable_within_float32 settings self ->
  reachable_within_float32 settings (VectorSearchEngine.clear_index self).

(** The results of a list of calls: the values when all return, the first
    exception otherwise. *)
Fixpoint all_ok {A} (l : list (result A)) : result (list A) :=
  match l with
  | [] => Ok []
  | Raise e :: _ => Raise e
  | Ok a :: rest =>
      match all_ok rest with
      | Ok values => Ok (a :: values)
      | Raise e => Raise e
      end
  end.

(** The record indices of a clustering, each with the id of its cluster. *)
Definition cluster_entries (groups : list (nat * list ClusterItem)) : list (nat * nat) :=
  flat_map (fun '(label, items) => map (fun it => (item_index it, label)) items) groups.

(** An item of a clustering shows the text and the metadata of its
    record. *)
Definition item_of (self : VectorSearchEngineState) (it : ClusterItem) : Prop :=
  texts self !! item_index it = Some (item_text it) /\
  item_metadata it = default ∅ (metadata self !! item_index it).

(** The path [save_index] and [load_index] work on: [path or
    self.index_path]. *)
Definition chosen_path (self : VectorSearchEngineState) (path : option string) : string :=
  if truthy_opt_str path then default "" path else index_path self.

(** * Test doubles

  Concrete libraries and states, on which the definitions above run. *)

(** A digest without collisions: the content itself. *)
Definition plain_digest : Hashlib := {| md5_hexdigest := fun content => content |}.

(** Providers that answer the same way at every call. *)
Definition fixed_providers
    (remote : openai_input -> string -> result (list vector))
    (load : string -> result LocalModel)
    (local_encode : LocalModel -> list string -> result (list vector)) : Providers :=
  {| openai_embeddings_create := fun _ => remote;
     SentenceTransformer := fun _ => load;
     encode := fun _ => local_encode |}.

Definition empty_redis : Redis := {| db := ∅; faults := []; sent := 0 |}.

(** A process that has made no provider call yet: [cache] is the redis
    connection ([None] when the ping failed), [client] tells whether an API
    key is configured, [loaded] is the local model when it is loaded. *)
Definition world_with (cache : option Redis) (client : bool) (loaded : option LocalModel)
  : World :=
  {| cache_manager := CacheManager.__init__ cache;
     embedding_service :=
       {| openai_client := client; local_model := loaded;
          local_model_name := loaded |};
     openai_calls := 0; local_loads := 0; local_encodes := 0 |}.

Definition dot (a b : vector) : Q :=
  fold_right Qplus 0%Q (map (fun '(x, y) => (x * y)%Q) (combine a b)).

(** The square root of a rational that is the square of a rational. *)
Definition exact_sqrt (q : Q) : option Q :=
  let n := Qnum (Qred q) in
  let d := Z.pos (Qden (Qred q)) in
  if ((Z.sqrt n * Z.sqrt n =? n) && (Z.sqrt d * Z.sqrt d =? d))%Z
  then Some (Z.sqrt n # Z.to_pos (Z.sqrt d))
  else None.

(** An index kernel without rounding: a vector whose norm is rational and
    not zero is scaled to norm one, any other is left as it is. *)
Definition exact_faiss : Faiss := {|
  normalize_L2 := fun v =>
    match exact_sqrt (dot v v) with
    | Some norm => if Qeq_bool norm 0 then v else map (fun x => Qred (x / norm)) v
    | None => v
    end;
  inner_product := fun a b => Qred (dot a b)
|}.

(** A k-means that puts every row into cluster 0. *)
Definition one_cluster : Sklearn := {|
  KMeans_fit_predict := fun k X =>
    match k with
    | O => Raise (ValueError "n_clusters must be positive")
    | S _ => Ok (map (fun _ => 0%nat) X, [[]])
    end
|}.

(** The default settings with an index of dimension 2. *)
Definition plane_settings : Settings := {|
  openai_api_key := None;
  redis_url := "redis://localhost:6379/0";
  embedding_model_openai := "text-embedding-3-small";
  embedding_model_local := "all-MiniLM-L6-v2";
  cache_ttl := 86400;
  max_batch_size := 100;
  vector_dimension := 2;
  faiss_index_path := "faiss_index.bin"
|}.

(** An engine of dimension 2 holding the given vectors, one text per
    vector. *)
Definition engine_of (vectors : list vector) (new_texts : list string)
  : VectorSearchEngineState :=
  snd (@VectorSearchEngine.add_vectors exact_faiss
         (VectorSearchEngine.__init__ plane_settings) vectors new_texts None).

Definition local_name : string := "all-MiniLM-L6-v2".

(** A local model whose vector for a text is its length and 1. *)
Definition length_vectors (texts : list string) : list vector :=
  map (fun text => [inject_Z (Z.of_nat (String.length text)); 1%Q]) texts.

(** The API is out of quota; the local model loads and encodes. *)
Definition remote_down : Providers :=
  fixed_providers
    (fun _ _ => Raise (Exn "APIError" "rate limit exceeded"))
    (fun name => Ok name)
    (fun _ texts => Ok (length_vectors texts)).

(** The API is out of quota and the local model cannot encode. *)
Definition both_down : Providers :=
  fixed_providers
    (fun _ _ => Raise (Exn "APIError" "rate limit exceeded"))
    (fun name => Ok name)
    (fun _ _ => Raise (Exn "RuntimeError" "CUDA out of memory")).

(** The API rejects a request with an empty text and answers [1, 0] for
    any other text; the local model answers [0, 1] for every text.  Both
    answer a list of texts with the answers to its texts. *)
Definition has_empty (texts : list string) : bool :=
  existsb (fun text => negb (truthy_str text)) texts.

Definition picky_remote : Providers :=
  fixed_providers
    (fun input _ =>
       let texts := match input with One text => [text] | Many texts => texts end in
       if has_empty texts
       then Raise (Exn "BadRequestError" "input must not be empty")
       else Ok (map (fun _ => [1%Q; 0%Q]) texts))
    (fun name => Ok name)
    (fun _ texts => Ok (map (fun _ => [0%Q; 1%Q]) texts)).

(** A process with an API key and the local model loaded, on a fresh
    cache that works; the same without a cache; and the same with a
    working cache and the local model not loaded yet. *)
Definition warm_world : World := world_with (Some empty_redis) true (Some local_name).
Definition uncached_world : World := world_with None true (Some local_name).
Definition cold_world : World := world_with (Some empty_redis) true None.

(** A process whose store drops the next command. *)
Definition flaky_world : World :=
  world_with (Some {| db := ∅; faults := [true]; sent := 0 |}) true (Some local_name).

(** Three records: two towards [1, 0] and one at [0, 1]. *)
Definition three_records : VectorSearchEngineState :=
  engine_of [[4; 3]; [1; 0]; [0; 2]]%Q
            ["cats are mammals"; "dogs are mammals"; "stocks rose today"].

(** Records added, the index cleared, records added again. *)
Definition refilled : VectorSearchEngineState :=
  snd (@VectorSearchEngine.add_vectors exact_faiss
         (VectorSearchEngine.clear_index three_records)
         [[1; 0]; [0; 1]]%Q ["a"; "b"] (Some [{["k" := "v"]}; ∅])).

(** Twelve records with the same vector. *)
Definition twelve_alike : VectorSearchEngineState :=
  engine_of (repeat [1%Q; 0%Q] 12) (repeat "same" 12).

(** A process on a working cache that holds a vector for the text "good"
    and an entry that cannot be unpickled for the text "bad", both under
    the model "m". *)
Definition stocked_redis : Redis :=
  {| db := {[ "embedding:good:m" := (60%Z, Pickled [1%Q; 2%Q]);
              "embedding:bad:m" := (60%Z, Corrupt) ]};
     faults := []; sent := 0 |}.

Definition stocked_world : World := world_with (Some stocked_redis) true (Some local_name).

(** The API times out at the first call of the process and answers [1, 0]
    for every text afterwards. *)
Definition recovering_remote : Providers :=
  {| openai_embeddings_create := fun n input _ =>
       match n with
       | O => Raise (Exn "APITimeoutError" "request timed out")
       | S _ => Ok (map (fun _ => [1%Q; 0%Q])
                        (match input with One text => [text] | Many texts => texts end))
       end;
     SentenceTransformer := fun _ name => Ok name;
     encode := fun _ _ texts => Ok (map (fun _ => [0%Q; 1%Q]) texts) |}.

(** A disk with nothing on it, and a disk that holds an index file of two
    rows at the default path, without the pickle of the arrays. *)
Definition empty_disk : Disk := {| files := ∅; read_only := ∅ |}.

Definition orphan_disk : Disk :=
  {| files := {[ "faiss_index.bin" := IndexFile 2 [[1%Q; 0%Q]; [0%Q; 1%Q]] ]};
     read_only := ∅ |}.

(** The three records, in an engine that works on the default path. *)
Definition three_records_saved : Disk :=
  snd (VectorSearchEngine.save_index three_records None empty_disk).

(** * Lemmas *)

(** ** Running the cache operations *)

Section CacheFacts.
Context `{Hashlib}.
Variable settings : Settings.

Lemma set_cache_manager_id w : set_cache_manager (cache_manager w) w = w.
Proof. now destruct w. Qed.

Lemma get_embedding_run text model w :
  CacheManager.get_embedding text model w =
  if available (cache_manager w) then
    match redis_client (cache_manager w) with
    | None => (Ok None, w)
    | Some r =>
        (Ok (if next_fault r then None
             else peek (touch r) (CacheManager._generate_key text model)),
         with_client (touch r) w)
    end
  else (Ok None, w).
Proof.
  unfold CacheManager.get_embedding, CacheManager.is_available, CacheManager.on_client,
    CacheManager.lift_result, bind, ret, try_except, peek, next_fault, touch, with_client,
    redis_get.
  destruct (available (cache_manager w)) eqn:Hav; simpl; [|reflexivity].
  destruct (redis_client (cache_manager w)) as [r|]; simpl; [|reflexivity].
  destruct (faults r) as [|[] fs]; simpl; rewrite ?Hav; try reflexivity;
    destruct (db r !! CacheManager._generate_key text model) as [[ttl [v|]]|];
    simpl; rewrite ?Hav; reflexivity.
Qed.

Lemma set_embedding_run text model embedding w :
  CacheManager.set_embedding settings text model embedding w =
  if available (cache_manager w) then
    match redis_client (cache_manager w) with
    | None => (Ok tt, w)
    | Some r =>
        (Ok tt,
         with_client
           (if next_fault r then touch r
            else write (CacheManager._generate_key text model) (cache_ttl settings)
                       (Pickled embedding) (touch r)) w)
    end
  else (Ok tt, w).
Proof.
  unfold CacheManager.set_embedding, CacheManager.is_available, CacheManager.on_client,
    bind, ret, try_except, next_fault, touch, with_client, redis_setex, write, pickle_dumps.
  destruct (available (cache_manager w)) eqn:Hav; simpl; [|reflexivity].
  destruct (redis_client (cache_manager w)) as [r|]; simpl; [|reflexivity].
  destruct (faults r) as [|[] fs]; simpl; rewrite ?Hav; reflexivity.
Qed.

Lemma get_batch_embeddings_run texts model w :
  CacheManager.get_batch_embeddings texts model w =
  if available (cache_manager w) then
    match redis_client (cache_manager w) with
    | None => (Ok (repeat None (length texts)), w)
    | Some r =>
        (Ok (if next_fault r then repeat None (length texts)
             else peek_all (touch r) texts model),
         with_client (touch r) w)
    end
  else (Ok (repeat None (length texts)), w).
Proof.
  unfold CacheManager.get_batch_embeddings, CacheManager.is_available,
    CacheManager.on_client, CacheManager.lift_result, bind, ret, try_except, peek_all,
    next_fault, touch, with_client, redis_mget.
  destruct (available (cache_manager w)) eqn:Hav; simpl; [|reflexivity].
  destruct (redis_client (cache_manager w)) as [r|]; simpl; [|reflexivity].
  destruct (faults r) as [|[] fs]; simpl; rewrite ?Hav; try reflexivity;
    match goal with |- context [CacheManager.loads_all ?l] =>
      destruct (CacheManager.loads_all l) end; simpl; rewrite ?Hav; reflexivity.
Qed.

Lemma set_batch_embeddings_run texts model embeddings w :
  CacheManager.set_batch_embeddings settings texts model embeddings w =
  if available (cache_manager w) then
    match redis_client (cache_manager w) with
    | None => (Ok tt, w)
    | Some r =>
        (Ok tt,
         with_client
           (if next_fault r then touch r
            else write_all (queue settings texts model embeddings) (touch r)) w)
    end
  else (Ok tt, w).
Proof.
  unfold CacheManager.set_batch_embeddings, CacheManager.is_available,
    CacheManager.on_client, bind, ret, try_except, next_fault, touch, with_client,
    pipeline_execute, write_all, queue.
  destruct (available (cache_manager w)) eqn:Hav; simpl; [|reflexivity].
  destruct (redis_client (cache_manager w)) as [r|]; simpl; [|reflexivity].
  destruct (faults r) as [|[] fs]; simpl; rewrite ?Hav; reflexivity.
Qed.

Lemma loads_all_length cached_values results :
  CacheManager.loads_all cached_values = Ok results ->
  length results = length cached_values.
Proof.
  revert results. induction cached_values as [|value rest IH]; intros results Hl.
  - now inversion Hl.
  - simpl in Hl. destruct value as [[v|]|]; try discriminate;
      destruct (CacheManager.loads_all rest) as [rs|]; try discriminate;
      inversion Hl; subst; simpl; now rewrite (IH rs).
Qed.

Lemma peek_all_length r texts model : length (peek_all r texts model) = length texts.
Proof.
  unfold peek_all.
  destruct (CacheManager.loads_all _) as [rs|] eqn:Hl.
  - rewrite (loads_all_length _ _ Hl). now rewrite !length_map.
  - apply repeat_length.
Qed.

End CacheFacts.

(** ** The cache and the providers do not interfere *)

Create HintDb sim discriminated.

Section Interference.
Context `{Hashlib} `{Providers}.
Variable settings : Settings.

Lemma agree_refl w : agree w w.
Proof. now repeat split. Qed.

Lemma agree_set_cache c w : agree (set_cache_manager c w) w.
Proof. now repeat split. Qed.

Lemma agree_sym w1 w2 : agree w1 w2 -> agree w2 w1.
Proof. intros (?&?&?&?). now repeat split. Qed.

Lemma agree_trans w1 w2 w3 : agree w1 w2 -> agree w2 w3 -> agree w1 w3.
Proof. intros (?&?&?&?) (?&?&?&?). repeat split; congruence. Qed.

Lemma sim_ret {A} (a : A) : sim (ret a) (ret a).
Proof. intros w1 w2 Hw. now split. Qed.

Lemma sim_raise {A} e : sim (@raise A e) (raise e).
Proof. intros w1 w2 Hw. now split. Qed.

Lemma sim_bind {A B} (m1 m2 : Py A) (k1 k2 : A -> Py B) :
  sim m1 m2 -> (forall a, sim (k1 a) (k2 a)) -> sim (bind m1 k1) (bind m2 k2).
Proof.
  intros Hm Hk w1 w2 Hw. unfold bind.
  destruct (Hm w1 w2 Hw) as [Hr Hs].
  destruct (m1 w1) as [[a1|e1] w1'], (m2 w2) as [[a2|e2] w2']; simpl in *;
    try discriminate.
  - inversion Hr; subst. now apply Hk.
  - inversion Hr; subst. now split.
Qed.

Lemma sim_try_except {A} (b1 b2 : Py A) (h1 h2 : exn -> Py A) :
  sim b1 b2 -> (forall e, sim (h1 e) (h2 e)) -> sim (try_except b1 h1) (try_except b2 h2).
Proof.
  intros Hb Hh w1 w2 Hw. unfold try_except.
  destruct (Hb w1 w2 Hw) as [Hr Hs].
  destruct (b1 w1) as [[a1|e1] w1'], (b2 w2) as [[a2|e2] w2']; simpl in *;
    try discriminate.
  - inversion Hr; subst. now split.
  - inversion Hr; subst. now apply Hh.
Qed.

Lemma sim_self : sim EmbeddingService.self EmbeddingService.self.
Proof. intros w1 w2 Hw. destruct Hw as (Hs&?). simpl. now rewrite Hs. Qed.

Lemma sim_set_self s : sim (EmbeddingService.set_self s) (EmbeddingService.set_self s).
Proof. intros w1 w2 (?&?&?&?). now repeat split. Qed.

Lemma sim_call_openai input model :
  sim (EmbeddingService.call_openai input model) (EmbeddingService.call_openai input model).
Proof.
  intros w1 w2 (?&Hc&?&?). unfold EmbeddingService.call_openai; simpl.
  rewrite Hc. now repeat split; simpl; try congruence.
Qed.

Lemma sim_call_encode m texts :
  sim (EmbeddingService.call_encode m texts) (EmbeddingService.call_encode m texts).
Proof.
  intros w1 w2 (?&?&?&Hc). unfold EmbeddingService.call_encode; simpl.
  rewrite Hc. now repeat split; simpl; try congruence.
Qed.

Lemma sim_call_SentenceTransformer name :
  sim (EmbeddingService.call_SentenceTransformer name)
      (EmbeddingService.call_SentenceTransformer name).
Proof.
  intros w1 w2 (?&?&Hc&?). unfold EmbeddingService.call_SentenceTransformer; simpl.
  rewrite Hc. now repeat split; simpl; try congruence.
Qed.

Hint Resolve sim_ret sim_raise sim_self sim_set_self sim_call_openai sim_call_encode
  sim_call_SentenceTransformer : sim.

(** One step of a similarity proof: split a bind or a try, or case on
    what both sides inspect. *)
Ltac sim_step :=
  lazymatch goal with
  | |- sim (bind _ _) (bind _ _) => apply sim_bind; [|intros ?]
  | |- sim (try_except _ _) (try_except _ _) => apply sim_try_except; [|intros ?]
  | |- sim (match ?x with _ => _ end) (match ?x with _ => _ end) => destruct x
  | |- sim (if ?b then _ else _) (if ?b then _ else _) => destruct b
  | |- sim (if ?b then _ else _) _ => destruct b
  | |- _ => solve [auto with sim]
  end.

Lemma sim_load_local_model :
  sim (EmbeddingService._load_local_model settings)
      (EmbeddingService._load_local_model settings).
Proof. unfold EmbeddingService._load_local_model. repeat sim_step. Qed.

Lemma sim_retry {A} more (f : Py A) : sim f f -> sim (EmbeddingService.retry more f)
                                                      (EmbeddingService.retry more f).
Proof.
  intros Hf. induction more as [|more IH]; simpl; repeat sim_step; auto.
Qed.

Lemma sim_get_openai_embedding text model :
  sim (EmbeddingService._get_openai_embedding settings text model)
      (EmbeddingService._get_openai_embedding settings text model).
Proof.
  unfold EmbeddingService._get_openai_embedding.
  apply sim_retry. unfold EmbeddingService._get_openai_embedding_attempt.
  repeat sim_step.
Qed.

Lemma sim_get_local_embedding text :
  sim (EmbeddingService._get_local_embedding settings text)
      (EmbeddingService._get_local_embedding settings text).
Proof.
  unfold EmbeddingService._get_local_embedding.
  sim_step; [apply sim_load_local_model|]. repeat sim_step.
Qed.

Lemma sim_local_batch_encode texts e :
  sim (EmbeddingService.local_batch_encode settings texts e)
      (EmbeddingService.local_batch_encode settings texts e).
Proof.
  unfold EmbeddingService.local_batch_encode.
  sim_step; [apply sim_load_local_model|]. repeat sim_step.
Qed.

(** A cache write is, for the rest of the process, no operation. *)
Lemma sim_set_embedding text model embedding :
  sim (CacheManager.set_embedding settings text model embedding) (ret tt).
Proof.
  intros w1 w2 Hw. rewrite set_embedding_run. unfold ret.
  destruct (available (cache_manager w1)); [|now split].
  destruct (redis_client (cache_manager w1)); [|now split].
  simpl. split; [reflexivity|]. unfold with_client.
  eapply agree_trans; [apply agree_set_cache|exact Hw].
Qed.

Lemma sim_set_batch_embeddings texts model embeddings :
  sim (CacheManager.set_batch_embeddings settings texts model embeddings) (ret tt).
Proof.
  intros w1 w2 Hw. rewrite set_batch_embeddings_run. unfold ret.
  destruct (available (cache_manager w1)); [|now split].
  destruct (redis_client (cache_manager w1)); [|now split].
  simpl. split; [reflexivity|]. unfold with_client.
  eapply agree_trans; [apply agree_set_cache|exact Hw].
Qed.

Hint Resolve sim_load_local_model sim_get_openai_embedding sim_get_local_embedding
  sim_local_batch_encode sim_set_embedding sim_set_batch_embeddings : sim.

(** Past the cache lookup, a call that uses the cache and one that does
    not end alike. *)
Lemma sim_compute_embedding text model_type model_name :
  sim (EmbeddingService.compute_embedding settings text model_type model_name true)
      (EmbeddingService.compute_embedding settings text model_type model_name false).
Proof.
  unfold EmbeddingService.compute_embedding. simpl.
  repeat sim_step.
Qed.

Lemma sim_process_uncached embeddings uncached_indices uncached_texts model_type model_name :
  sim (EmbeddingService.process_uncached settings embeddings uncached_indices
         uncached_texts model_type model_name true)
      (EmbeddingService.process_uncached settings embeddings uncached_indices
         uncached_texts model_type model_name false).
Proof.
  unfold EmbeddingService.process_uncached. simpl.
  repeat sim_step.
Qed.

End Interference.

(** ** Store failures *)

Section FailOpen.
Context `{Hashlib} `{Providers}.
Variable settings : Settings.

Lemma resolve_model_run model w :
  EmbeddingService.resolve_model settings model w =
  (Ok (resolved settings (openai_client (embedding_service w)) model), w).
Proof.
  unfold EmbeddingService.resolve_model, resolved, bind, ret, EmbeddingService.self.
  destruct (truthy_opt_str model && _); [reflexivity|].
  destruct (truthy_opt_str model); [reflexivity|].
  now destruct (openai_client (embedding_service w)).
Qed.

Lemma get_embedding_miss_on_failure text model w :
  store_failure w ->
  exists w1, CacheManager.get_embedding text model w = (Ok None, w1) /\ agree w1 w.
Proof.
  intros Hf. rewrite get_embedding_run.
  destruct Hf as [Hav|Hc|r Hc Hn]; rewrite ?Hav, ?Hc.
  - exists w. split; [reflexivity|apply agree_refl].
  - exists w. destruct (available _); (split; [reflexivity|apply agree_refl]).
  - destruct (available _); [|exists w; split; [reflexivity|apply agree_refl]].
    rewrite Hn. eexists. split; [reflexivity|apply agree_set_cache].
Qed.

Lemma get_batch_embeddings_miss_on_failure texts model w :
  store_failure w ->
  exists w1, CacheManager.get_batch_embeddings texts model w
             = (Ok (repeat None (length texts)), w1) /\ agree w1 w.
Proof.
  intros Hf. rewrite get_batch_embeddings_run.
  destruct Hf as [Hav|Hc|r Hc Hn]; rewrite ?Hav, ?Hc.
  - exists w. split; [reflexivity|apply agree_refl].
  - exists w. destruct (available _); (split; [reflexivity|apply agree_refl]).
  - destruct (available _); [|exists w; split; [reflexivity|apply agree_refl]].
    rewrite Hn. eexists. split; [reflexivity|apply agree_set_cache].
Qed.

Lemma set_embedding_noop_on_failure text model embedding w :
  store_failure w ->
  fst (CacheManager.set_embedding settings text model embedding w) = Ok tt /\
  stored (snd (CacheManager.set_embedding settings text model embedding w)) = stored w.
Proof.
  intros Hf. rewrite set_embedding_run. unfold stored.
  destruct Hf as [Hav|Hc|r Hc Hn].
  - rewrite Hav. now split.
  - destruct (available _); simpl; rewrite Hc; simpl; rewrite ?Hc; now split.
  - destruct (available _); simpl; rewrite Hc; simpl; rewrite ?Hc, ?Hn; now split.
Qed.

Lemma set_batch_embeddings_noop_on_failure texts model embeddings w :
  store_failure w ->
  fst (CacheManager.set_batch_embeddings settings texts model embeddings w) = Ok tt /\
  stored (snd (CacheManager.set_batch_embeddings settings texts model embeddings w))
  = stored w.
Proof.
  intros Hf. rewrite set_batch_embeddings_run. unfold stored.
  destruct Hf as [Hav|Hc|r Hc Hn].
  - rewrite Hav. now split.
  - destruct (available _); simpl; rewrite Hc; simpl; rewrite ?Hc; now split.
  - destruct (available _); simpl; rewrite Hc; simpl; rewrite ?Hc, ?Hn; now split.
Qed.

Lemma split_cached_all_none i (texts : list string) :
  EmbeddingService.split_cached i (combine texts (repeat None (length texts)))
  = (repeat None (length texts), seq i (length texts), texts).
Proof.
  revert i. induction texts as [|text rest IH]; intros i; simpl; [reflexivity|].
  now rewrite IH.
Qed.

Lemma get_embedding_without_cache text model w :
  store_failure w ->
  fst (EmbeddingService.get_embedding settings text model true w)
  = fst (EmbeddingService.get_embedding settings text model false w).
Proof.
  intros Hf. unfold EmbeddingService.get_embedding, bind at 1 3.
  rewrite resolve_model_run.
  destruct (resolved settings _ model) as [ty name].
  unfold bind, ret.
  destruct (get_embedding_miss_on_failure text name w Hf) as (w1 & -> & Hw).
  simpl. now apply sim_compute_embedding.
Qed.

Lemma get_batch_embeddings_without_cache texts model w :
  store_failure w ->
  fst (EmbeddingService.get_batch_embeddings settings texts model true w)
  = fst (EmbeddingService.get_batch_embeddings settings texts model false w).
Proof.
  intros Hf. unfold EmbeddingService.get_batch_embeddings.
  destruct (_ <? _)%Z; [reflexivity|].
  unfold bind at 1 3. rewrite resolve_model_run.
  destruct (resolved settings _ model) as [ty name].
  unfold EmbeddingService.check_cache, bind, ret.
  destruct (get_batch_embeddings_miss_on_failure texts name w Hf) as (w1 & -> & Hw).
  rewrite split_cached_all_none.
  destruct (truthy_list texts); [|reflexivity].
  now apply sim_process_uncached.
Qed.

End FailOpen.

(** ** A cache that works *)

Section WorkingCache.
Context `{Hashlib}.
Variable settings : Settings.

Lemma healthy_with_client r w :
  available (cache_manager w) = true -> faults r = [] -> healthy (with_client r w).
Proof. intros Hav Hf. split; [exact Hav|]. exists r. now split. Qed.

Lemma next_fault_none r : faults r = [] -> next_fault r = false.
Proof. unfold next_fault, round_trip. now intros ->. Qed.

Lemma faults_touch r : faults r = [] -> faults (touch r) = [].
Proof. unfold touch, round_trip. now intros ->. Qed.

Lemma set_embedding_healthy text model embedding w :
  healthy w ->
  exists r, redis_client (cache_manager w) = Some r /\ faults r = [] /\
    CacheManager.set_embedding settings text model embedding w =
    (Ok tt, with_client (write (CacheManager._generate_key text model)
                               (cache_ttl settings) (Pickled embedding) (touch r)) w).
Proof.
  intros (Hav & r & Hc & Hf). exists r. repeat split; try assumption.
  rewrite set_embedding_run, Hav, Hc. now rewrite (next_fault_none r Hf).
Qed.

Lemma get_embedding_healthy text model w :
  healthy w ->
  exists r, redis_client (cache_manager w) = Some r /\ faults r = [] /\
    CacheManager.get_embedding text model w =
    (Ok (peek r (CacheManager._generate_key text model)), with_client (touch r) w).
Proof.
  intros (Hav & r & Hc & Hf). exists r. repeat split; try assumption.
  rewrite get_embedding_run, Hav, Hc. now rewrite (next_fault_none r Hf).
Qed.

Lemma peek_write key ttl v r : peek (write key ttl (Pickled v) r) key = Some v.
Proof. unfold peek, write. simpl. now rewrite lookup_insert_eq. Qed.

(** What was written under a key is what a read of that key returns. *)
Lemma get_after_set text1 model1 text2 model2 embedding w :
  healthy w ->
  CacheManager._generate_key text1 model1 = CacheManager._generate_key text2 model2 ->
  fst (CacheManager.get_embedding text2 model2
         (snd (CacheManager.set_embedding settings text1 model1 embedding w)))
  = Ok (Some embedding).
Proof.
  intros Hw Hkey.
  destruct (set_embedding_healthy text1 model1 embedding w Hw) as (r & Hc & Hf & ->).
  simpl.
  assert (Hh : healthy (with_client
                 (write (CacheManager._generate_key text1 model1) (cache_ttl settings)
                        (Pickled embedding) (touch r)) w)).
  { apply healthy_with_client; [apply Hw|]. simpl. now apply faults_touch. }
  destruct (get_embedding_healthy text2 model2 _ Hh) as (r' & Hc' & Hf' & ->).
  simpl in Hc'. inversion Hc'; subst r'. simpl.
  now rewrite <- Hkey, peek_write.
Qed.

End WorkingCache.

(** ** The ranking of the flat index *)

Section Ranking.
Context `{Faiss}.

Lemma insert_desc_perm x l : Permutation (x :: l) (insert_desc x l).
Proof.
  induction l as [|y l IH]; simpl; [reflexivity|].
  destruct (Qle_bool (fst y) (fst x)); [reflexivity|].
  rewrite perm_swap. now apply perm_skip.
Qed.

Lemma sort_desc_perm l : Permutation l (sort_desc l).
Proof.
  induction l as [|x l IH]; simpl; [reflexivity|].
  rewrite <- insert_desc_perm. now apply perm_skip.
Qed.

Lemma sort_desc_length l : length (sort_desc l) = length l.
Proof. symmetry. apply Permutation_length, sort_desc_perm. Qed.

Lemma desc_trans a b c : desc a b -> desc b c -> desc a c.
Proof. unfold desc. intros Hab Hbc. now apply Qle_trans with (fst b). Qed.

Lemma insert_desc_sorted x l :
  StronglySorted desc l -> StronglySorted desc (insert_desc x l).
Proof.
  induction 1 as [|y l Hs IH Hy]; simpl.
  - repeat constructor.
  - destruct (Qle_bool (fst y) (fst x)) eqn:Hle.
    + apply Qle_bool_iff in Hle.
      constructor; [now constructor|].
      constructor; [exact Hle|].
      eapply List.Forall_impl; [|exact Hy].
      intros z Hz. now apply desc_trans with y.
    + assert (Hxy : desc y x).
      { unfold desc. apply Qlt_le_weak, Qnot_le_lt. intros Hc.
        apply Qle_bool_iff in Hc. congruence. }
      constructor; [exact IH|].
      eapply Permutation_Forall; [apply insert_desc_perm|].
      now constructor.
Qed.

Lemma sort_desc_sorted l : StronglySorted desc (sort_desc l).
Proof.
  induction l as [|x l IH]; simpl; [constructor|].
  now apply insert_desc_sorted.
Qed.

Lemma firstn_subset {A} k (l : list A) x : In x (firstn k l) -> In x l.
Proof.
  revert k. induction l as [|y l IH]; intros [|k]; simpl; try tauto.
  intros [->|Hin]; [now left|right; eauto].
Qed.

Lemma StronglySorted_firstn {A} (R : A -> A -> Prop) k l :
  StronglySorted R l -> StronglySorted R (firstn k l).
Proof.
  intros Hs. revert k. induction Hs as [|x l Hs IH Hx]; intros [|k]; simpl;
    try constructor; [apply IH|].
  apply List.Forall_forall. intros y Hy.
  rewrite List.Forall_forall in Hx. apply Hx. eapply firstn_subset; eassumption.
Qed.


Lemma enumerate_from_spec {A} (l : list A) i n x :
  In (n, x) (enumerate_from i l) <-> (i <= n)%nat /\ l !! (n - i)%nat = Some x.
Proof.
  revert i. induction l as [|y l IH]; intros i; simpl.
  - split; [tauto|]. intros [_ Hl]. discriminate.
  - rewrite IH. split.
    + intros [Heq|[Hle Hl]].
      * inversion Heq; subst. split; [lia|]. now rewrite Nat.sub_diag.
      * split; [lia|]. replace (n - i)%nat with (S (n - S i)) by lia. exact Hl.
    + intros [Hle Hl]. destruct (Nat.eq_dec i n) as [->|Hne].
      * left. rewrite Nat.sub_diag in Hl. simpl in Hl. now inversion Hl.
      * right. split; [lia|].
        replace (n - i)%nat with (S (n - S i)) in Hl by lia. exact Hl.
Qed.

Lemma enumerate_from_length {A} (l : list A) i : length (enumerate_from i l) = length l.
Proof. revert i. induction l; intros i; simpl; [reflexivity|]. now rewrite IHl. Qed.

(** Every entry of the ranking is a row of the index with its score. *)
Lemma score_rows_spec q rows score idx :
  In (score, idx) (score_rows q rows) <->
  exists (n : nat) row, idx = Z.of_nat n /\ rows !! n = Some row /\
                        score = inner_product q row.
Proof.
  unfold score_rows. rewrite in_map_iff. split.
  - intros [[n row] [Heq Hin]]. inversion Heq; subst.
    apply enumerate_from_spec in Hin as [_ Hl]. rewrite Nat.sub_0_r in Hl.
    now exists n, row.
  - intros (n & row & -> & Hl & ->). exists (n, row). split; [reflexivity|].
    apply enumerate_from_spec. split; [lia|]. now rewrite Nat.sub_0_r.
Qed.

Lemma score_rows_length q rows : length (score_rows q rows) = length rows.
Proof. unfold score_rows. now rewrite length_map, enumerate_from_length. Qed.

(** When no more rows are asked for than the index holds, the answer is
    the head of the ranking, without padding. *)
Lemma faiss_search_clamped rows q k :
  faiss_search rows q (Nat.min k (length rows))
  = firstn (Nat.min k (length rows)) (sort_desc (score_rows q rows)).
Proof.
  unfold faiss_search.
  replace (Nat.min k (length rows) - length rows)%nat with 0%nat by lia.
  simpl. apply app_nil_r.
Qed.

Lemma faiss_search_clamped_length rows q k :
  length (faiss_search rows q (Nat.min k (length rows))) = Nat.min k (length rows).
Proof.
  rewrite faiss_search_clamped, length_firstn, sort_desc_length, score_rows_length. lia.
Qed.

Lemma faiss_search_clamped_in rows q k score idx :
  In (score, idx) (faiss_search rows q (Nat.min k (length rows))) ->
  exists (n : nat) row, idx = Z.of_nat n /\ rows !! n = Some row /\
                        score = inner_product q row.
Proof.
  rewrite faiss_search_clamped. intros Hin. apply firstn_subset in Hin.
  apply score_rows_spec.
  eapply Permutation_in; [symmetry; apply sort_desc_perm|exact Hin].
Qed.

Lemma faiss_search_clamped_sorted rows q k :
  StronglySorted desc (faiss_search rows q (Nat.min k (length rows))).
Proof. rewrite faiss_search_clamped. apply StronglySorted_firstn, sort_desc_sorted. Qed.

End Ranking.

(** ** The search engine *)

Section EngineFacts.
Context `{Faiss} `{Sklearn}.
Variable settings : Settings.

Lemma py_getitem_nat {A} (l : list A) (n : nat) : py_getitem l (Z.of_nat n) = l !! n.
Proof.
  unfold py_getitem. destruct (0 <=? Z.of_nat n)%Z eqn:Hle.
  - now rewrite Nat2Z.id.
  - apply Z.leb_gt in Hle. lia.
Qed.

Lemma format_results_entries self threshold found hits :
  VectorSearchEngine.format_results self threshold found = Ok hits ->
  map hit_entry hits = List.filter (passes threshold) found /\
  Forall (fun h => py_getitem (texts self) (hit_index h) = Some (hit_text h)) hits.
Proof.
  revert hits. induction found as [|[score idx] rest IH]; intros hits Hf; simpl in Hf.
  - inversion Hf; subst. split; [reflexivity|constructor].
  - unfold passes at 1. simpl.
    destruct (idx =? -1)%Z; simpl; [now apply IH|].
    destruct threshold as [t|]; simpl.
    + destruct (Qle_bool t score); simpl; [|now apply IH].
      destruct (py_getitem (texts self) idx) as [text|] eqn:Ht; [|discriminate].
      destruct (VectorSearchEngine.format_results self (Some t) rest) as [rs|];
        [|discriminate].
      inversion Hf; subst. destruct (IH rs eq_refl) as [IH1 IH2].
      split; [simpl; unfold hit_entry at 1; simpl; now rewrite IH1|].
      constructor; [exact Ht|exact IH2].
    + destruct (py_getitem (texts self) idx) as [text|] eqn:Ht; [|discriminate].
      destruct (VectorSearchEngine.format_results self None rest) as [rs|];
        [|discriminate].
      inversion Hf; subst. destruct (IH rs eq_refl) as [IH1 IH2].
      split; [simpl; unfold hit_entry at 1; simpl; now rewrite IH1|].
      constructor; [exact Ht|exact IH2].
Qed.

Lemma format_results_total self threshold found :
  (forall score idx, In (score, idx) found ->
     exists n : nat, idx = Z.of_nat n /\ (n < length (texts self))%nat) ->
  exists hits, VectorSearchEngine.format_results self threshold found = Ok hits.
Proof.
  induction found as [|[score idx] rest IH]; intros Hin; simpl.
  - now exists [].
  - destruct IH as [rs Hrs]; [intros s i Hi; apply (Hin s i); now right|].
    destruct (idx =? -1)%Z; [now exists rs|].
    destruct (match threshold with Some t => negb (Qle_bool t score) | None => false end);
      [now exists rs|].
    destruct (Hin score idx (or_introl eq_refl)) as (n & -> & Hn).
    rewrite py_getitem_nat.
    destruct (lookup_lt_is_Some_2 (texts self) n Hn) as [text ->].
    rewrite Hrs. eexists. reflexivity.
Qed.

Lemma filter_length_le {A} (f : A -> bool) l : (length (List.filter f l) <= length l)%nat.
Proof. induction l as [|x l IH]; simpl; [lia|]. destruct (f x); simpl; lia. Qed.

(** The rows of a matrix have one length. *)
Lemma np_matrix_ok (rows : list vector) (d : Z) :
  rows <> [] -> Forall (has_dimension d) rows ->
  exists n, np_matrix rows = Ok n /\ Z.of_nat n = d.
Proof.
  intros Hne Hall. destruct rows as [|row rest]; [congruence|].
  inversion Hall as [|? ? Hrow Hrest]; subst. exists (length row). split; [|exact Hrow].
  unfold np_matrix.
  replace (forallb (fun r => (length r =? length row)%nat) rest) with true;
    [reflexivity|].
  symmetry. apply forallb_forall. intros r Hr. apply Nat.eqb_eq.
  rewrite List.Forall_forall in Hrest. specialize (Hrest r Hr).
  unfold has_dimension in *. lia.
Qed.

Lemma np_matrix_rows (rows : list vector) n :
  np_matrix rows = Ok n -> rows <> [] /\ Forall (fun r => length r = n) rows.
Proof.
  destruct rows as [|row rest]; [discriminate|]. unfold np_matrix.
  destruct (forallb (fun r => (length r =? length row)%nat) rest) eqn:Hall;
    [|discriminate].
  intros Hn. injection Hn as <-. split; [discriminate|].
  constructor; [reflexivity|]. apply List.Forall_forall. intros r Hr.
  rewrite forallb_forall in Hall. now apply Nat.eqb_eq, Hall.
Qed.

(** [add_vectors], case by case. *)
Lemma add_vectors_empty self embeddings new_texts new_metadata :
  embeddings = [] \/ new_texts = [] ->
  VectorSearchEngine.add_vectors self embeddings new_texts new_metadata = (Ok tt, self).
Proof.
  unfold VectorSearchEngine.add_vectors.
  intros [->| ->]; simpl; [reflexivity|].
  now destruct embeddings.
Qed.

Lemma add_vectors_mismatch self embeddings new_texts new_metadata :
  embeddings <> [] -> new_texts <> [] -> length embeddings <> length new_texts ->
  VectorSearchEngine.add_vectors self embeddings new_texts new_metadata =
  (Raise (ValueError "Number of embeddings must match number of texts"), self).
Proof.
  unfold VectorSearchEngine.add_vectors. intros He Ht Hlen.
  destruct embeddings; [congruence|]. destruct new_texts; [congruence|].
  simpl. apply Nat.eqb_neq in Hlen. simpl in Hlen. now rewrite Hlen.
Qed.

Lemma add_vectors_match self embeddings new_texts new_metadata :
  embeddings <> [] -> length embeddings = length new_texts ->
  Forall (has_dimension (index_d self)) embeddings ->
  VectorSearchEngine.add_vectors self embeddings new_texts new_metadata =
  (Ok tt,
   {| index := index self ++ map normalize_L2 embeddings;
      index_d := index_d self;
      texts := texts self ++ new_texts;
      metadata := metadata self ++
                  (if truthy_opt_list new_metadata then default [] new_metadata
                   else map (fun _ => ∅) new_texts);
      dimension := dimension self;
      index_path := index_path self |}).
Proof.
  unfold VectorSearchEngine.add_vectors. intros He Hlen Hdim.
  destruct (np_matrix_ok embeddings (index_d self) He Hdim) as (n & -> & Hn).
  destruct embeddings; [congruence|]. destruct new_texts; [discriminate|].
  cbn [truthy_list negb orb]. rewrite Hlen, Nat.eqb_refl. cbn [negb].
  now rewrite Hn, Z.eqb_refl.
Qed.

(** Rows that are not all of the dimension of the index are refused, by
    numpy when they have different lengths and by the index otherwise, and
    nothing is appended. *)
Lemma add_vectors_wrong_dimension self embeddings new_texts new_metadata :
  embeddings <> [] -> length embeddings = length new_texts ->
  ~ Forall (has_dimension (index_d self)) embeddings ->
  exists e,
    VectorSearchEngine.add_vectors self embeddings new_texts new_metadata = (Raise e, self) /\
    (exn_class e = "ValueError" \/ e = AssertionError).
Proof.
  unfold VectorSearchEngine.add_vectors. intros He Hlen Hdim.
  destruct embeddings as [|row rest] eqn:Hrows; [congruence|].
  destruct new_texts; [discriminate|].
  cbn [truthy_list negb orb]. rewrite Hlen, Nat.eqb_refl. cbn [negb].
  rewrite <- Hrows in *.
  destruct (np_matrix embeddings) as [n|e] eqn:Hm.
  - destruct (Z.eqb_spec (Z.of_nat n) (index_d self)) as [Heq|Hne]; cbn [negb].
    + exfalso. apply Hdim. apply np_matrix_rows in Hm as [_ Hall].
      eapply List.Forall_impl; [|exact Hall]. intros r Hr. unfold has_dimension.
      simpl in Hr. now rewrite Hr.
    + exists AssertionError. split; [reflexivity|now right].
  - exists e. split; [reflexivity|]. left.
    rewrite Hrows in Hm. unfold np_matrix in Hm.
    destruct (forallb (fun r => (length r =? length row)%nat) rest); [discriminate|].
    now injection Hm as <-.
Qed.

(** Whatever it is given, [add_vectors] leaves the engine as it was or
    appends one record per text. *)
Lemma add_vectors_state self embeddings new_texts new_metadata :
  snd (VectorSearchEngine.add_vectors self embeddings new_texts new_metadata) = self \/
  (length embeddings = length new_texts /\
   Forall (has_dimension (index_d self)) embeddings /\
   snd (VectorSearchEngine.add_vectors self embeddings new_texts new_metadata) =
   {| index := index self ++ map normalize_L2 embeddings;
      index_d := index_d self;
      texts := texts self ++ new_texts;
      metadata := metadata self ++
                  (if truthy_opt_list new_metadata then default [] new_metadata
                   else map (fun _ => ∅) new_texts);
      dimension := dimension self;
      index_path := index_path self |}).
Proof.
  destruct embeddings as [|e es] eqn:He.
  { left. now rewrite add_vectors_empty by now left. }
  destruct new_texts as [|t ts] eqn:Hts.
  { left. now rewrite add_vectors_empty by now right. }
  rewrite <- He, <- Hts.
  assert (Hne : embeddings <> []) by (rewrite He; discriminate).
  assert (Hnt : new_texts <> []) by (rewrite Hts; discriminate).
  destruct (Nat.eq_dec (length embeddings) (length new_texts)) as [Hlen|Hlen].
  - destruct (List.Forall_dec (has_dimension (index_d self))
                (fun v => Z.eq_dec (Z.of_nat (length v)) (index_d self)) embeddings)
      as [Hdim|Hdim].
    + right. split; [exact Hlen|]. split; [exact Hdim|].
      now rewrite add_vectors_match.
    + left. destruct (add_vectors_wrong_dimension self embeddings new_texts new_metadata
                        Hne Hlen Hdim) as (e0 & -> & _). reflexivity.
  - left. now rewrite add_vectors_mismatch.
Qed.

Lemma add_vectors_aligned self embeddings new_texts new_metadata :
  metadata_fits new_texts new_metadata ->
  aligned self ->
  aligned (snd (VectorSearchEngine.add_vectors self embeddings new_texts new_metadata)).
Proof.
  intros Hm [Ht Hmd].
  destruct (add_vectors_state self embeddings new_texts new_metadata)
    as [->|(Hlen & _ & ->)]; [now split|].
  unfold aligned. simpl.
  destruct new_metadata as [[|m ms]|]; simpl in *;
    rewrite !length_app; simpl; rewrite ?length_map; lia.
Qed.

Lemma clear_index_aligned self : aligned (VectorSearchEngine.clear_index self).
Proof. now split. Qed.

End EngineFacts.

Section SearchFacts.
Context `{Faiss} `{Sklearn}.


Lemma search_empty self query_embedding top_k threshold :
  VectorSearchEngine.ntotal self = 0%nat ->
  VectorSearchEngine.search self query_embedding top_k threshold = Ok [].
Proof. unfold VectorSearchEngine.search. now intros ->. Qed.

Lemma clamp_to_nat (top_k : Z) (n : nat) :
  Z.to_nat (Z.min top_k (Z.of_nat n)) = Nat.min (Z.to_nat top_k) n.
Proof. lia. Qed.

(** On an index that is not empty, [search] asserts that the query has the
    dimension of the index and that [top_k] is positive, and formats the
    answer of the index. *)
Lemma search_checked self query_embedding top_k threshold :
  VectorSearchEngine.ntotal self <> 0%nat ->
  has_dimension (index_d self) query_embedding ->
  (0 < top_k)%Z ->
  VectorSearchEngine.search self query_embedding top_k threshold =
  VectorSearchEngine.format_results self threshold
    (faiss_search (index self) (normalize_L2 query_embedding)
       (Nat.min (Z.to_nat top_k) (VectorSearchEngine.ntotal self))).
Proof.
  intros Hn Hd Hk. unfold VectorSearchEngine.search.
  destruct (Nat.eqb_spec (VectorSearchEngine.ntotal self) 0) as [|_]; [contradiction|].
  unfold has_dimension in Hd. rewrite Hd, Z.eqb_refl. cbn [negb].
  replace (0 <? Z.min top_k (Z.of_nat (VectorSearchEngine.ntotal self)))%Z with true
    by (symmetry; apply Z.ltb_lt; lia).
  cbn [negb]. now rewrite clamp_to_nat.
Qed.

Lemma search_asserts self query_embedding top_k threshold :
  VectorSearchEngine.ntotal self <> 0%nat ->
  ~ has_dimension (index_d self) query_embedding \/ (top_k <= 0)%Z ->
  VectorSearchEngine.search self query_embedding top_k threshold = Raise AssertionError.
Proof.
  intros Hn Hbad. unfold VectorSearchEngine.search.
  destruct (Nat.eqb_spec (VectorSearchEngine.ntotal self) 0) as [|_]; [contradiction|].
  destruct (Z.eqb_spec (Z.of_nat (length query_embedding)) (index_d self)) as [Hd|Hd];
    cbn [negb]; [|reflexivity].
  destruct Hbad as [Hbad|Hk]; [now destruct Hbad|].
  replace (0 <? Z.min top_k (Z.of_nat (VectorSearchEngine.ntotal self)))%Z with false
    by (symmetry; apply Z.ltb_ge; lia).
  reflexivity.
Qed.

(** A search that returns found the index empty, or passed the two
    assertions. *)
Lemma search_returns self query_embedding top_k threshold hits :
  VectorSearchEngine.search self query_embedding top_k threshold = Ok hits ->
  VectorSearchEngine.ntotal self = 0%nat \/
  (VectorSearchEngine.ntotal self <> 0%nat /\
   has_dimension (index_d self) query_embedding /\ (0 < top_k)%Z).
Proof.
  intros Hs. destruct (Nat.eq_dec (VectorSearchEngine.ntotal self) 0) as [Hn|Hn];
    [now left|].
  right. split; [exact Hn|].
  destruct (Z.eq_dec (Z.of_nat (length query_embedding)) (index_d self)) as [Hd|Hd].
  - split; [exact Hd|]. destruct (Z_lt_le_dec 0 top_k) as [Hk|Hk]; [exact Hk|].
    rewrite search_asserts in Hs by (assumption || now right). discriminate.
  - rewrite search_asserts in Hs by (assumption || now left). discriminate.
Qed.

(** What [search] returns, as entries of the ranking. *)
Lemma search_entries self query_embedding top_k threshold hits :
  VectorSearchEngine.search self query_embedding top_k threshold = Ok hits ->
  map hit_entry hits =
  List.filter (passes threshold)
    (firstn (Nat.min (Z.to_nat top_k) (VectorSearchEngine.ntotal self))
       (sort_desc (score_rows (normalize_L2 query_embedding) (index self)))) /\
  Forall (fun h => py_getitem (texts self) (hit_index h) = Some (hit_text h)) hits.
Proof.
  intros Hs. destruct (search_returns _ _ _ _ _ Hs) as [Hn|(Hn & Hd & Hk)].
  - rewrite search_empty in Hs by exact Hn. injection Hs as <-. rewrite Hn.
    rewrite Nat.min_0_r. simpl. split; [reflexivity|constructor].
  - rewrite search_checked in Hs by assumption.
    unfold VectorSearchEngine.ntotal in *. rewrite faiss_search_clamped in Hs.
    now apply format_results_entries.
Qed.

Lemma search_total self query_embedding top_k threshold :
  (length (index self) <= length (texts self))%nat ->
  has_dimension (index_d self) query_embedding ->
  (0 < top_k)%Z ->
  exists hits, VectorSearchEngine.search self query_embedding top_k threshold = Ok hits.
Proof.
  intros Hlen Hd Hk.
  destruct (Nat.eq_dec (VectorSearchEngine.ntotal self) 0) as [Hn|Hn].
  { exists []. now apply search_empty. }
  rewrite search_checked by assumption. unfold VectorSearchEngine.ntotal.
  apply format_results_total. intros score idx Hin.
  apply faiss_search_clamped_in in Hin as (n & row & -> & Hrow & _).
  exists n. split; [reflexivity|].
  apply lookup_lt_Some in Hrow. lia.
Qed.

(** Every result is a row of the index, with its score against the
    normalized query, its text, and a score that meets the threshold. *)
Lemma search_hit self query_embedding top_k threshold hits h :
  VectorSearchEngine.search self query_embedding top_k threshold = Ok hits ->
  In h hits ->
  exists (n : nat) row,
    hit_index h = Z.of_nat n /\ index self !! n = Some row /\
    hit_score h = inner_product (normalize_L2 query_embedding) row /\
    texts self !! n = Some (hit_text h) /\
    (forall t, threshold = Some t -> (t <= hit_score h)%Q).
Proof.
  intros Hs Hin. destruct (search_entries _ _ _ _ _ Hs) as [He Ht].
  assert (Hin' : In (hit_entry h) (map hit_entry hits)) by now apply in_map.
  rewrite He in Hin'. apply List.filter_In in Hin' as [Hin' Hp].
  apply firstn_subset in Hin'.
  eapply Permutation_in in Hin'; [|symmetry; apply sort_desc_perm].
  unfold hit_entry in Hin'. apply score_rows_spec in Hin' as (n & row & Hi & Hrow & Hsc).
  exists n, row. repeat split; try assumption.
  - rewrite List.Forall_forall in Ht. specialize (Ht h Hin).
    now rewrite Hi, py_getitem_nat in Ht.
  - intros t ->. unfold passes, hit_entry in Hp. simpl in Hp.
    apply andb_prop in Hp as [_ Hp]. now apply Qle_bool_iff.
Qed.





Lemma dict_append_in_range self groups label item :
  items_in_range self groups ->
  (item_index item < length (texts self))%nat ->
  items_in_range self (VectorSearchEngine.dict_append groups label item).
Proof.
  intros Hg Hi. induction groups as [|[k v] rest IH]; simpl.
  - intros l its it [Heq|[]] Hin. inversion Heq; subst.
    destruct Hin as [->|[]]. exact Hi.
  - destruct (k =? label)%nat.
    + intros l its it [Heq|Hin'] Hin.
      * inversion Heq; subst. apply in_app_or in Hin as [Hin|[->|[]]]; [|exact Hi].
        eapply Hg; [now left|exact Hin].
      * eapply Hg; [right; exact Hin'|exact Hin].
    + intros l its it [Heq|Hin'] Hin.
      * eapply Hg; [left; exact Heq|exact Hin].
      * eapply IH; [|exact Hin'|exact Hin].
        intros l' its' it' Hl' Hit'. eapply Hg; [right; exact Hl'|exact Hit'].
Qed.

Lemma group_by_label_in_range self acc labelled groups :
  VectorSearchEngine.group_by_label self acc labelled = Ok groups ->
  items_in_range self acc -> items_in_range self groups.
Proof.
  revert acc. induction labelled as [|[i label] rest IH]; intros acc Hg Hacc; simpl in Hg.
  - now inversion Hg; subst.
  - destruct (texts self !! i) as [text|] eqn:Ht; [|discriminate].
    eapply IH; [exact Hg|].
    apply dict_append_in_range; [exact Hacc|].
    simpl. now apply lookup_lt_Some in Ht.
Qed.

Lemma cluster_vectors_in_range self k c :
  VectorSearchEngine.cluster_vectors self k = Ok c ->
  items_in_range self (clusters c).
Proof.
  unfold VectorSearchEngine.cluster_vectors.
  destruct (VectorSearchEngine.ntotal self =? 0)%nat.
  - intros Hc. inversion Hc; subst. intros l its it [].
  - destruct (KMeans_fit_predict _ _) as [[labels centers]|]; [|discriminate].
    destruct (VectorSearchEngine.group_by_label self [] _) as [groups|] eqn:Hg;
      [|discriminate].
    intros Hc. inversion Hc; subst. simpl.
    eapply group_by_label_in_range; [exact Hg|]. intros l its it [].
Qed.

End SearchFacts.

Lemma reachable_within_float32_reachable `{Faiss} settings self :
  reachable_within_float32 settings self -> reachable settings self.
Proof.
  induction 1 as [|self embeddings new_texts new_metadata _ IH Hm _|self _ IH].
  - constructor.
  - now constructor.
  - now constructor.
Qed.

Lemma reachable_aligned `{Faiss} settings self : reachable settings self -> aligned self.
Proof.
  induction 1 as [|self embeddings new_texts new_metadata _ IH Hm|self _ _].
  - now split.
  - now apply add_vectors_aligned.
  - apply clear_index_aligned.
Qed.

Section ClusterFacts.
Context `{Faiss} `{Sklearn}.

Lemma group_by_label_total self acc labelled :
  (forall i label, In (i, label) labelled -> (i < length (texts self))%nat) ->
  exists groups, VectorSearchEngine.group_by_label self acc labelled = Ok groups.
Proof.
  revert acc. induction labelled as [|[i label] rest IH]; intros acc Hin; simpl.
  - now exists acc.
  - destruct (lookup_lt_is_Some_2 (texts self) i (Hin i label (or_introl eq_refl)))
      as [text ->].
    apply IH. intros j l Hj. apply (Hin j l). now right.
Qed.

(** On aligned arrays, [cluster_vectors] fails only when k-means does:
    [fit_predict] gives one label per row. *)
Lemma cluster_vectors_total self k labels centers :
  length labels = length (index self) ->
  (length (index self) <= length (texts self))%nat ->
  KMeans_fit_predict (Nat.min k (VectorSearchEngine.ntotal self)) (index self)
  = Ok (labels, centers) ->
  exists c, VectorSearchEngine.cluster_vectors self k = Ok c.
Proof.
  intros Hlabels Hlen Hk. unfold VectorSearchEngine.cluster_vectors.
  destruct (VectorSearchEngine.ntotal self =? 0)%nat; [eexists; reflexivity|].
  rewrite Hk.
  destruct (group_by_label_total self [] (enumerate_from 0 labels)) as [groups ->].
  - intros i label Hin. apply enumerate_from_spec in Hin as [_ Hl].
    apply lookup_lt_Some in Hl.
    rewrite Hlabels in Hl. lia.
  - eexists; reflexivity.
Qed.

End ClusterFacts.

(** ** Running the providers *)

Section ProviderFacts.
Context `{Hashlib} `{Providers}.
Variable settings : Settings.

Lemma bump_openai_0 w : bump_openai 0 w = w.
Proof. now destruct w. Qed.

Lemma bump_openai_bump k w : bump_openai k (bump_openai 1 w) = bump_openai (S k) w.
Proof. unfold bump_openai. simpl. f_equal. lia. Qed.

Lemma load_local_model_loaded m w :
  local_model (embedding_service w) = Some m ->
  EmbeddingService._load_local_model settings w = (Ok tt, w).
Proof.
  intros Hm. unfold EmbeddingService._load_local_model, bind, EmbeddingService.self.
  now rewrite Hm.
Qed.

Lemma get_local_embedding_loaded m text w :
  local_model (embedding_service w) = Some m ->
  EmbeddingService._get_local_embedding settings text w =
  (first_row "index 0 is out of bounds" (encode (local_encodes w) m [text]),
   bump_encodes w).
Proof.
  intros Hm. unfold EmbeddingService._get_local_embedding, bind.
  rewrite (load_local_model_loaded m w Hm).
  unfold EmbeddingService.self, try_except, EmbeddingService.call_encode, ret, raise.
  rewrite Hm. unfold first_row, bump_encodes.
  destruct (encode (local_encodes w) m [text]) as [[|v rest]|e]; reflexivity.
Qed.

Lemma local_batch_encode_loaded m texts not_loaded w :
  local_model (embedding_service w) = Some m ->
  EmbeddingService.local_batch_encode settings texts not_loaded w =
  (encode (local_encodes w) m texts, bump_encodes w).
Proof.
  intros Hm. unfold EmbeddingService.local_batch_encode, bind.
  rewrite (load_local_model_loaded m w Hm).
  unfold EmbeddingService.self, EmbeddingService.call_encode. now rewrite Hm.
Qed.

Lemma attempt_run text name w :
  EmbeddingService._get_openai_embedding_attempt settings text (Some name) w =
  if openai_client (embedding_service w)
  then (first_row "list index out of range"
          (openai_embeddings_create (openai_calls w) (One text) (sent_model settings name)),
        bump_openai 1 w)
  else (Raise (ValueError "OpenAI API key not configured"), w).
Proof.
  unfold EmbeddingService._get_openai_embedding_attempt, bind, EmbeddingService.self,
    try_except, EmbeddingService.call_openai, ret, raise, sent_model, first_row,
    bump_openai.
  destruct (openai_client (embedding_service w)); simpl; [|reflexivity].
  destruct (openai_embeddings_create _ _ _) as [[|v rest]|e]; reflexivity.
Qed.

(** The retried remote call touches nothing but the count of API calls. *)
Lemma retry_attempt_frame more text name w :
  exists k, snd (EmbeddingService.retry more
                   (EmbeddingService._get_openai_embedding_attempt settings text (Some name))
                   w) = bump_openai k w.
Proof.
  revert w. induction more as [|more IH]; intros w; simpl; unfold try_except;
    rewrite attempt_run; destruct (openai_client (embedding_service w)) eqn:Hc.
  - destruct (first_row _ _); now exists 1%nat.
  - exists 0%nat. now rewrite bump_openai_0.
  - destruct (first_row _ _).
    + now exists 1%nat.
    + destruct (IH (bump_openai 1 w)) as [k Hk]. exists (S k).
      now rewrite Hk, bump_openai_bump.
  - destruct (IH w) as [k Hk]. now exists k.
Qed.

Lemma get_openai_embedding_frame text name w :
  exists k, snd (EmbeddingService._get_openai_embedding settings text (Some name) w)
            = bump_openai k w.
Proof. apply retry_attempt_frame. Qed.

(** Three attempts that fail exhaust the retries. *)
Lemma get_openai_embedding_exhausted text name w e1 e2 e3 :
  openai_client (embedding_service w) = true ->
  first_row "list index out of range"
    (openai_embeddings_create (openai_calls w) (One text) (sent_model settings name)) = Raise e1 ->
  first_row "list index out of range"
    (openai_embeddings_create (S (openai_calls w)) (One text) (sent_model settings name))
  = Raise e2 ->
  first_row "list index out of range"
    (openai_embeddings_create (S (S (openai_calls w))) (One text) (sent_model settings name))
  = Raise e3 ->
  EmbeddingService._get_openai_embedding settings text (Some name) w =
  (Raise (RetryError e3), bump_openai 3 w).
Proof.
  intros Hc H1 H2 H3. unfold EmbeddingService._get_openai_embedding. simpl.
  unfold try_except at 1. rewrite attempt_run, Hc, H1.
  unfold try_except at 1. rewrite attempt_run. simpl. rewrite Hc, H2.
  unfold try_except at 1. rewrite attempt_run. simpl. rewrite Hc, H3.
  unfold raise, bump_openai. simpl. reflexivity.
Qed.

(** Without a client, the three attempts raise the same error. *)
Lemma get_openai_embedding_no_client text name w :
  openai_client (embedding_service w) = false ->
  EmbeddingService._get_openai_embedding settings text (Some name) w =
  (Raise (RetryError (ValueError "OpenAI API key not configured")), w).
Proof.
  intros Hc. unfold EmbeddingService._get_openai_embedding. simpl.
  unfold try_except. repeat (rewrite attempt_run, Hc). reflexivity.
Qed.

(** A cache lookup never raises and touches the cache only. *)
Lemma get_embedding_frame text name w :
  exists w1, CacheManager.get_embedding text name w = (Ok (cache_lookup text name w), w1) /\
             agree w1 w /\
             (healthy w -> exists r, redis_client (cache_manager w) = Some r /\
                                     faults r = [] /\ w1 = with_client (touch r) w /\
                                     cache_lookup text name w
                                     = peek r (CacheManager._generate_key text name)).
Proof.
  unfold cache_lookup. rewrite get_embedding_run.
  destruct (available (cache_manager w)) eqn:Hav.
  - destruct (redis_client (cache_manager w)) as [r|] eqn:Hc.
    + eexists. split; [reflexivity|]. split; [apply agree_set_cache|].
      intros (_ & r' & Hr' & Hf). rewrite Hc in Hr'. injection Hr' as <-.
      exists r. repeat split; try assumption. simpl.
      rewrite (next_fault_none r Hf). unfold peek, touch, round_trip. reflexivity.
    + exists w. split; [reflexivity|]. split; [apply agree_refl|].
      intros (_ & r' & Hr' & _). congruence.
  - exists w. split; [reflexivity|]. split; [apply agree_refl|].
    intros (Hav' & _). congruence.
Qed.

End ProviderFacts.

Lemma warm_world_healthy : healthy warm_world.
Proof. split; [reflexivity|]. exists empty_redis. now split. Qed.

Lemma refilled_reachable : @reachable exact_faiss plane_settings refilled.
Proof.
  unfold refilled, three_records, engine_of.
  apply reach_add; [|reflexivity].
  apply reach_clear. apply reach_add; [|exact I]. apply reach_init.
Qed.

(** ** Similar pairs *)

Section SimilarPairs.
Context `{Faiss}.

(** A reported pair is ordered, and its score meets the threshold. *)
Lemma pairs_of_sound i threshold found j score :
  In (i, j, score) (VectorSearchEngine.pairs_of i threshold found) ->
  In (score, j) found /\ (Z.of_nat i < j)%Z /\ (threshold <= score)%Q.
Proof.
  unfold VectorSearchEngine.pairs_of. rewrite in_map_iff.
  intros [[s idx] [Heq Hin]]. inversion Heq; subst.
  apply List.filter_In in Hin as [Hin Hp].
  apply andb_prop in Hp as [Hlt Hle].
  split; [exact Hin|]. split; [now apply Z.ltb_lt|now apply Qle_bool_iff].
Qed.

(** No record is reported with more than ten partners: each search asks
    for ten rows at most. *)
Lemma pairs_of_capped self i threshold query :
  (length (VectorSearchEngine.pairs_of i threshold
             (faiss_search (index self) query
                (Nat.min 10 (VectorSearchEngine.ntotal self)))) <= 10)%nat.
Proof.
  unfold VectorSearchEngine.pairs_of, VectorSearchEngine.ntotal.
  rewrite length_map. etransitivity; [apply filter_length_le|].
  rewrite faiss_search_clamped_length. lia.
Qed.

(** Every reported pair is a pair of records with [i < j] whose similarity
    meets the threshold, and the pair is not reported the other way
    round. *)
Lemma get_similar_pairs_sound self threshold i j score :
  In (i, j, score) (VectorSearchEngine.get_similar_pairs self threshold) ->
  exists n : nat,
    j = Z.of_nat n /\ (i < n < VectorSearchEngine.ntotal self)%nat /\
    score = similarity self i n /\ (threshold <= score)%Q.
Proof.
  unfold VectorSearchEngine.get_similar_pairs.
  destruct (VectorSearchEngine.ntotal self <? 2)%nat; [intros []|].
  rewrite in_flat_map. intros (i' & Hi' & Hin).
  assert (i' = i) as ->.
  { unfold VectorSearchEngine.pairs_of in Hin. apply in_map_iff in Hin.
    destruct Hin as [[s idx] [Heq _]]. now inversion Heq. }
  apply pairs_of_sound in Hin as (Hin & Hlt & Hle).
  apply faiss_search_clamped_in in Hin as (n & row & -> & Hrow & ->).
  exists n. split; [reflexivity|].
  pose proof (lookup_lt_Some _ _ _ Hrow) as Hn.
  unfold VectorSearchEngine.ntotal. split; [lia|].
  split; [|exact Hle]. unfold similarity. f_equal.
  unfold vector in *. now rewrite Hrow.
Qed.

Lemma get_similar_pairs_one_way self threshold i j s s' :
  In (i, Z.of_nat j, s) (VectorSearchEngine.get_similar_pairs self threshold) ->
  ~ In (j, Z.of_nat i, s') (VectorSearchEngine.get_similar_pairs self threshold).
Proof.
  intros H1 H2.
  apply get_similar_pairs_sound in H1 as (n1 & Hn1 & [Hlt1 _] & _).
  apply get_similar_pairs_sound in H2 as (n2 & Hn2 & [Hlt2 _] & _).
  lia.
Qed.

(** On an index of ten records at most, every pair [i < j] whose
    similarity meets the threshold is reported. *)
Lemma get_similar_pairs_complete_small self threshold i j :
  (VectorSearchEngine.ntotal self <= 10)%nat ->
  (i < j < VectorSearchEngine.ntotal self)%nat ->
  (threshold <= similarity self i j)%Q ->
  In (i, Z.of_nat j, similarity self i j)
     (VectorSearchEngine.get_similar_pairs self threshold).
Proof.
  unfold VectorSearchEngine.ntotal. intros Hsmall Hij Hth.
  unfold VectorSearchEngine.get_similar_pairs, VectorSearchEngine.ntotal.
  destruct (length (index self) <? 2)%nat eqn:Hn; [apply Nat.ltb_lt in Hn; lia|].
  apply in_flat_map. exists i. split; [apply in_seq; lia|].
  unfold VectorSearchEngine.pairs_of. apply in_map_iff.
  exists (similarity self i j, Z.of_nat j). split; [reflexivity|].
  apply List.filter_In. split.
  - rewrite faiss_search_clamped.
    rewrite firstn_all2
      by (rewrite sort_desc_length, score_rows_length; lia).
    eapply Permutation_in; [apply sort_desc_perm|].
    apply score_rows_spec.
    destruct (lookup_lt_is_Some_2 (index self) j) as [row Hrow]; [lia|].
    exists j, row. split; [reflexivity|]. split; [exact Hrow|].
    unfold similarity. f_equal. unfold vector in *. now rewrite Hrow.
  - apply andb_true_intro. split; [apply Z.ltb_lt; lia|now apply Qle_bool_iff].
Qed.

End SimilarPairs.

(** ** Hits and misses of a batch *)

Section BatchFacts.

(** What [split_cached] does at the position [i] of the texts: a usable
    cached vector stays in place; any other position is listed among the
    misses, with its text. *)
Lemma split_cached_spec k (texts : list string) (cached : list (option vector))
    embeddings uncached_indices uncached_texts :
  length cached = length texts ->
  EmbeddingService.split_cached k (combine texts cached)
  = (embeddings, uncached_indices, uncached_texts) ->
  length embeddings = length texts /\
  length uncached_indices = length uncached_texts /\
  NoDup uncached_indices /\
  (forall idx, In idx uncached_indices -> (k <= idx)%nat) /\
  (forall i t c, texts !! i = Some t -> cached !! i = Some c ->
     if truthy_opt_list c
     then embeddings !! i = Some c /\ ~ In (k + i)%nat uncached_indices
     else embeddings !! i = Some None /\
          exists j, uncached_indices !! j = Some (k + i)%nat /\
                    uncached_texts !! j = Some t).
Proof.
  revert k cached embeddings uncached_indices uncached_texts.
  induction texts as [|text rest IH]; intros k cached embs uidx utexts Hlen Hsplit.
  - simpl in Hsplit. injection Hsplit as <- <- <-.
    split; [reflexivity|]. split; [reflexivity|]. split; [constructor|].
    split; [intros idx []|]. intros i t c Ht. discriminate.
  - destruct cached as [|c0 cached]; [discriminate|]. simpl in Hlen, Hsplit.
    injection Hlen as Hlen.
    destruct (EmbeddingService.split_cached (S k) (combine rest cached))
      as [[embs' uidx'] utexts'] eqn:Hrest.
    destruct (IH (S k) cached embs' uidx' utexts' Hlen Hrest)
      as (Hl1 & Hl2 & Hnd & Hge & Hpos).
    destruct (truthy_opt_list c0) eqn:Hc0; injection Hsplit as <- <- <-.
    + split; [simpl; now rewrite Hl1|]. split; [exact Hl2|]. split; [exact Hnd|].
      split; [intros idx Hin; specialize (Hge idx Hin); lia|].
      intros [|i] t c Ht Hc; simpl in Ht, Hc.
      * injection Hc as <-. rewrite Hc0. split; [reflexivity|].
        intros Hin. specialize (Hge _ Hin). lia.
      * specialize (Hpos i t c Ht Hc). replace (k + S i)%nat with (S k + i)%nat by lia.
        exact Hpos.
    + split; [simpl; now rewrite Hl1|]. split; [simpl; now rewrite Hl2|].
      split; [constructor; [|exact Hnd];
              intros Hin; apply list_elem_of_In in Hin; specialize (Hge _ Hin); lia|].
      split; [intros idx [<-|Hin]; [lia|specialize (Hge idx Hin); lia]|].
      intros [|i] t c Ht Hc; simpl in Ht, Hc.
      * injection Hc as <-. injection Ht as <-. rewrite Hc0.
        split; [reflexivity|]. exists 0%nat. rewrite Nat.add_0_r. now split.
      * specialize (Hpos i t c Ht Hc). replace (k + S i)%nat with (S k + i)%nat by lia.
        destruct (truthy_opt_list c).
        -- destruct Hpos as [He Hn]. split; [exact He|].
           intros [Heq|Hin]; [lia|now apply Hn].
        -- destruct Hpos as [He (j & Hj1 & Hj2)]. split; [exact He|].
           exists (S j). now split.
Qed.

(** [store_new] leaves a position that is not a miss as it is. *)
Lemma store_new_other (embeddings : list (option vector)) uncached_indices
    new_embeddings i :
  ~ In i uncached_indices ->
  EmbeddingService.store_new embeddings uncached_indices new_embeddings !! i
  = embeddings !! i.
Proof.
  unfold EmbeddingService.store_new.
  revert embeddings new_embeddings.
  induction uncached_indices as [|idx rest IH]; intros embs news Hnotin; simpl.
  - reflexivity.
  - destruct news as [|new_emb news]; simpl; [reflexivity|].
    rewrite IH by (intros Hin; apply Hnotin; now right).
    apply list_lookup_insert_ne. intros ->. apply Hnotin. now left.
Qed.

(** [store_new] puts the j-th new vector at the j-th missing position. *)
Lemma store_new_at (embeddings : list (option vector)) uncached_indices
    new_embeddings j i v :
  NoDup uncached_indices ->
  uncached_indices !! j = Some i ->
  new_embeddings !! j = Some v ->
  (i < length embeddings)%nat ->
  EmbeddingService.store_new embeddings uncached_indices new_embeddings !! i
  = Some (Some v).
Proof.
  unfold EmbeddingService.store_new.
  revert embeddings new_embeddings j.
  induction uncached_indices as [|idx rest IH]; intros embs news j Hnd Hi Hv Hlen.
  - discriminate.
  - destruct news as [|new_emb news]; [discriminate|].
    apply NoDup_cons in Hnd as [Hnotin Hnd]. rewrite list_elem_of_In in Hnotin. simpl.
    destruct j as [|j]; simpl in Hi, Hv.
    + injection Hi as ->. injection Hv as ->.
      pose proof (store_new_other (<[i := Some v]> embs) rest news i Hnotin) as Hother.
      unfold EmbeddingService.store_new in Hother. rewrite Hother.
      now apply list_lookup_insert_eq.
    + eapply IH; try eassumption. now rewrite length_insert.
Qed.

End BatchFacts.

(** ** Loading the local model *)

Section LoadFacts.
Context `{Hashlib} `{Providers}.
Variable settings : Settings.

Lemma load_local_model_run w :
  EmbeddingService._load_local_model settings w = (Ok tt, after_load settings w) /\
  local_model (embedding_service (after_load settings w)) = load_outcome settings w /\
  openai_client (embedding_service (after_load settings w)) = openai_client (embedding_service w) /\
  local_encodes (after_load settings w) = local_encodes w /\
  openai_calls (after_load settings w) = openai_calls w /\
  cache_manager (after_load settings w) = cache_manager w.
Proof.
  unfold after_load, load_outcome, EmbeddingService._load_local_model, bind,
    EmbeddingService.self, try_except, EmbeddingService.call_SentenceTransformer,
    EmbeddingService.set_self.
  destruct (local_model (embedding_service w)) as [m|] eqn:Hm; simpl.
  - now rewrite Hm.
  - destruct (SentenceTransformer (local_loads w) (embedding_model_local settings));
      simpl; now repeat split.
Qed.

Lemma load_outcome_loaded m w :
  local_model (embedding_service w) = Some m -> load_outcome settings w = Some m.
Proof. unfold load_outcome. now intros ->. Qed.

Lemma after_load_loaded m w :
  local_model (embedding_service w) = Some m -> after_load settings w = w.
Proof. intros Hm. unfold after_load. now rewrite (load_local_model_loaded settings m w Hm). Qed.

Lemma load_outcome_bump_openai k w :
  load_outcome settings (bump_openai k w) = load_outcome settings w.
Proof. reflexivity. Qed.

Lemma get_local_embedding_run text w :
  EmbeddingService._get_local_embedding settings text w =
  match load_outcome settings w with
  | Some m => (first_row "index 0 is out of bounds" (encode (local_encodes w) m [text]),
               bump_encodes (after_load settings w))
  | None => (Raise (ValueError "Local model not available"), after_load settings w)
  end.
Proof.
  destruct (load_local_model_run w) as (Hrun & Hm & _ & He & _).
  unfold EmbeddingService._get_local_embedding, bind. rewrite Hrun.
  unfold EmbeddingService.self, try_except, EmbeddingService.call_encode, ret, raise.
  rewrite Hm. destruct (load_outcome settings w) as [m|]; [|reflexivity].
  unfold first_row, bump_encodes. rewrite He.
  destruct (encode (local_encodes w) m [text]) as [[|v rest]|e]; reflexivity.
Qed.

Lemma local_batch_encode_run texts not_loaded w :
  EmbeddingService.local_batch_encode settings texts not_loaded w =
  match load_outcome settings w with
  | Some m => (encode (local_encodes w) m texts, bump_encodes (after_load settings w))
  | None => (Raise not_loaded, after_load settings w)
  end.
Proof.
  destruct (load_local_model_run w) as (Hrun & Hm & _ & He & _).
  unfold EmbeddingService.local_batch_encode, bind. rewrite Hrun.
  unfold EmbeddingService.self, EmbeddingService.call_encode, raise.
  rewrite Hm. destruct (load_outcome settings w) as [m|]; [|reflexivity].
  unfold bump_encodes. now rewrite He.
Qed.

(** The retried remote call succeeds with the first row of an answer of
    the API. *)
Lemma get_openai_embedding_ok text name w v :
  fst (EmbeddingService._get_openai_embedding settings text (Some name) w) = Ok v ->
  openai_client (embedding_service w) = true /\
  exists n rest, openai_embeddings_create n (One text) (sent_model settings name)
                 = Ok (v :: rest).
Proof.
  unfold EmbeddingService._get_openai_embedding.
  generalize 2%nat. intros more. revert w.
  induction more as [|more IH]; intros w; simpl; unfold try_except;
    rewrite attempt_run; destruct (openai_client (embedding_service w)) eqn:Hc.
  - destruct (openai_embeddings_create _ _ _) as [[|v0 rest]|e] eqn:Hcall; simpl;
      try discriminate.
    intros Hv. injection Hv as <-. split; [reflexivity|]. now exists (openai_calls w), rest.
  - discriminate.
  - destruct (openai_embeddings_create _ _ _) as [[|v0 rest]|e] eqn:Hcall; simpl.
    + intros Hv. destruct (IH _ Hv) as [_ Hex]. now split.
    + intros Hv. injection Hv as <-. split; [reflexivity|].
      now exists (openai_calls w), rest.
    + intros Hv. destruct (IH _ Hv) as [_ Hex]. now split.
  - intros Hv. destruct (IH _ Hv) as [Hc' _]. congruence.
Qed.

(** What [compute_embedding] ends with on the local route. *)
Lemma compute_embedding_local text name w :
  fst (EmbeddingService.compute_embedding settings text local name false w) =
  match load_outcome settings w with
  | Some m =>
      match first_row "index 0 is out of bounds" (encode (local_encodes w) m [text]) with
      | Ok v => Ok (v, name)
      | Raise e => Raise (ValueError ("All embedding methods failed: " +:+ str e))
      end
  | None => Raise (ValueError ("All embedding methods failed: "
                               +:+ "Local model not available"))
  end.
Proof.
  unfold EmbeddingService.compute_embedding. simpl.
  unfold try_except, bind at 1. rewrite get_local_embedding_run.
  destruct (load_outcome settings w) as [m|]; [|reflexivity].
  destruct (first_row _ _); reflexivity.
Qed.

(** What [compute_embedding] ends with on the remote route. *)
Lemma compute_embedding_openai text name w :
  fst (EmbeddingService.compute_embedding settings text openai name false w) =
  match fst (EmbeddingService._get_openai_embedding settings text (Some name) w) with
  | Ok v => Ok (v, name)
  | Raise e =>
      match local_model (embedding_service w) with
      | Some m =>
          match first_row "index 0 is out of bounds"
                  (encode (local_encodes w) m [text]) with
          | Ok v => Ok (v, embedding_model_local settings)
          | Raise _ => Raise (ValueError ("All embedding methods failed: " +:+ str e))
          end
      | None => Raise (ValueError ("All embedding methods failed: " +:+ str e))
      end
  end.
Proof.
  unfold EmbeddingService.compute_embedding. simpl.
  unfold try_except at 1, bind at 1.
  destruct (get_openai_embedding_frame settings text name w) as [k Hk].
  destruct (EmbeddingService._get_openai_embedding settings text (Some name) w)
    as [[v|e] w2]; simpl in *; [reflexivity|]. subst w2.
  unfold bind at 1, EmbeddingService.self at 1. simpl.
  destruct (local_model (embedding_service w)) as [m|] eqn:Hm; simpl; [|reflexivity].
  unfold bind at 1, try_except at 1, bind at 1.
  rewrite (get_local_embedding_loaded settings m text (bump_openai k w)) by exact Hm.
  simpl. destruct (first_row _ _); reflexivity.
Qed.

End LoadFacts.

(** ** The provider call of a batch *)

Section UncachedFacts.
Context `{Hashlib} `{Providers}.
Variable settings : Settings.

(** The remote call of the batch succeeds: its vectors are stored under
    the resolved name. *)
Lemma process_uncached_remote_ok embeddings uncached_indices uncached_texts name w
    new_embeddings :
  openai_client (embedding_service w) = true ->
  openai_embeddings_create (openai_calls w) (Many uncached_texts) name = Ok new_embeddings ->
  fst (EmbeddingService.process_uncached settings embeddings uncached_indices
         uncached_texts openai name false w)
  = Ok (EmbeddingService.store_new embeddings uncached_indices new_embeddings, name).
Proof.
  intros Hc Hcall. unfold EmbeddingService.process_uncached. simpl.
  unfold try_except at 1, bind at 1, EmbeddingService.self at 1. simpl. rewrite Hc. simpl.
  unfold bind at 1, EmbeddingService.call_openai. now rewrite Hcall.
Qed.

(** The remote call of the batch fails: a result can only come from the
    local model, for all the misses, under the local model's name. *)
Lemma process_uncached_remote_fails embeddings uncached_indices uncached_texts name w e
    out effective :
  openai_client (embedding_service w) = true ->
  openai_embeddings_create (openai_calls w) (Many uncached_texts) name = Raise e ->
  fst (EmbeddingService.process_uncached settings embeddings uncached_indices
         uncached_texts openai name false w) = Ok (out, effective) ->
  effective = embedding_model_local settings /\
  exists m new_embeddings,
    load_outcome settings w = Some m /\
    encode (local_encodes w) m uncached_texts = Ok new_embeddings /\
    out = EmbeddingService.store_new embeddings uncached_indices new_embeddings.
Proof.
  intros Hc Hcall. unfold EmbeddingService.process_uncached. simpl.
  unfold try_except at 1, bind at 1, EmbeddingService.self at 1. simpl. rewrite Hc. simpl.
  unfold bind at 1, EmbeddingService.call_openai. rewrite Hcall.
  unfold try_except at 1, bind at 1. rewrite local_batch_encode_run.
  change (load_outcome settings _) with (load_outcome settings w). simpl.
  destruct (load_outcome settings w) as [m|]; [|discriminate].
  destruct (encode (local_encodes w) m uncached_texts) as [news|e2] eqn:Henc;
    [|discriminate].
  simpl. intros Hout. injection Hout as <- <-. split; [reflexivity|].
  now exists m, news.
Qed.

(** The batch goes to the local model at once (local route, or remote
    route without a client). *)
Lemma process_uncached_local embeddings uncached_indices uncached_texts ty name w
    out effective :
  is_openai ty && openai_client (embedding_service w) = false ->
  fst (EmbeddingService.process_uncached settings embeddings uncached_indices
         uncached_texts ty name false w) = Ok (out, effective) ->
  (effective = name /\
   exists m new_embeddings,
     load_outcome settings w = Some m /\
     encode (local_encodes w) m uncached_texts = Ok new_embeddings /\
     out = EmbeddingService.store_new embeddings uncached_indices new_embeddings) \/
  (is_openai ty = true /\ effective = embedding_model_local settings /\
   (exists new_embeddings,
      out = EmbeddingService.store_new embeddings uncached_indices new_embeddings) /\
   forall m, local_model (embedding_service w) = Some m ->
     (exists e, encode (local_encodes w) m uncached_texts = Raise e) /\
     exists new_embeddings,
       encode (S (local_encodes w)) m uncached_texts = Ok new_embeddings).
Proof.
  intros Hroute. unfold EmbeddingService.process_uncached.
  unfold try_except at 1, bind at 1, EmbeddingService.self at 1. simpl.
  rewrite Hroute. unfold bind at 1. rewrite local_batch_encode_run.
  destruct (load_outcome settings w) as [m|] eqn:Hload.
  - destruct (encode (local_encodes w) m uncached_texts) as [news|e] eqn:Henc; simpl.
    + intros Hout. injection Hout as <- <-. left. split; [reflexivity|].
      now exists m, news.
    + destruct ty; simpl; [|discriminate].
      unfold try_except at 1, bind at 1. rewrite local_batch_encode_run.
      set (w1 := bump_encodes (after_load settings w)).
      intros Hout. right. split; [reflexivity|].
      destruct (load_outcome settings w1) as [m2|] eqn:Hload2; [|discriminate].
      destruct (encode (local_encodes w1) m2 uncached_texts) as [news|] eqn:Henc2;
        [|discriminate].
      simpl in Hout. injection Hout as <- <-. split; [reflexivity|].
      split; [now exists news|].
      intros m0 Hm0.
      rewrite (load_outcome_loaded settings m0 w Hm0) in Hload. injection Hload as ->.
      split; [now exists e|]. exists news.
      unfold w1 in Hload2, Henc2.
      rewrite (after_load_loaded settings m w Hm0) in Hload2, Henc2.
      rewrite (load_outcome_loaded settings m (bump_encodes w) Hm0) in Hload2.
      injection Hload2 as <-. exact Henc2.
  - simpl. destruct ty; simpl; [|discriminate].
    unfold try_except at 1, bind at 1. rewrite local_batch_encode_run.
    set (w1 := after_load settings w).
    intros Hout. right. split; [reflexivity|].
    destruct (load_outcome settings w1) as [m2|] eqn:Hload2; [|discriminate].
    destruct (encode (local_encodes w1) m2 uncached_texts) as [news|] eqn:Henc2;
      [|discriminate].
    simpl in Hout. injection Hout as <- <-. split; [reflexivity|].
    split; [now exists news|].
    intros m0 Hm0. rewrite (load_outcome_loaded settings m0 w Hm0) in Hload.
    discriminate.
Qed.

End UncachedFacts.

(** ** One text and a batch, from the same state *)

Section SingleAndBatch.
Context `{Hashlib} `{Providers}.
Variable settings : Settings.

Lemma get_batch_embeddings_frame texts name w :
  exists w1, CacheManager.get_batch_embeddings texts name w
             = (Ok (batch_lookup texts name w), w1) /\
             agree w1 w /\ length (batch_lookup texts name w) = length texts.
Proof.
  unfold batch_lookup. rewrite get_batch_embeddings_run.
  destruct (available (cache_manager w)).
  - destruct (redis_client (cache_manager w)) as [r|].
    + eexists. split; [reflexivity|]. split; [apply agree_set_cache|]. simpl.
      destruct (next_fault r); [apply repeat_length|apply peek_all_length].
    + exists w. split; [reflexivity|]. split; [apply agree_refl|apply repeat_length].
  - exists w. split; [reflexivity|]. split; [apply agree_refl|apply repeat_length].
Qed.

Lemma loads_all_readable (r : Redis) texts name :
  (forall text, In text texts ->
     snd <$> db r !! CacheManager._generate_key text name <> Some Corrupt) ->
  CacheManager.loads_all
    (map (fun key => snd <$> db r !! key)
         (map (fun text => CacheManager._generate_key text name) texts))
  = Ok (map (fun text => peek r (CacheManager._generate_key text name)) texts).
Proof.
  induction texts as [|text rest IH]; intros Hr; simpl; [reflexivity|].
  rewrite IH by (intros t Ht; apply Hr; now right).
  pose proof (Hr text (or_introl eq_refl)) as Hne. unfold peek.
  destruct (snd <$> db r !! CacheManager._generate_key text name) as [[v|]|];
    simpl; congruence.
Qed.

Lemma repeat_lookup {A} (x : A) n i : (i < n)%nat -> repeat x n !! i = Some x.
Proof.
  revert i. induction n as [|n IH]; intros i Hi; [lia|].
  destruct i as [|i]; simpl; [reflexivity|]. apply IH. lia.
Qed.

Lemma map_lookup {A B} (f : A -> B) (l : list A) i x :
  l !! i = Some x -> map f l !! i = Some (f x).
Proof.
  revert i. induction l as [|y l IH]; intros [|i] Hl; simpl in *; try discriminate.
  - now injection Hl as ->.
  - now apply IH.
Qed.

(** On a readable cache the batch lookup finds, for each text, what the
    lookup of that text alone finds. *)
Lemma batch_lookup_at texts name w i text :
  readable w texts name ->
  texts !! i = Some text ->
  batch_lookup texts name w !! i = Some (cache_lookup text name w).
Proof.
  intros Hr Ht. unfold batch_lookup, cache_lookup.
  rewrite get_batch_embeddings_run, get_embedding_run.
  pose proof (lookup_lt_Some _ _ _ Ht) as Hi.
  destruct (available (cache_manager w)); [|now apply repeat_lookup].
  destruct (redis_client (cache_manager w)) as [r|] eqn:Hc; [|now apply repeat_lookup].
  simpl. destruct (next_fault r); [now apply repeat_lookup|].
  unfold peek_all. rewrite loads_all_readable.
  - now apply (map_lookup
                 (fun t => peek (touch r) (CacheManager._generate_key t name))).
  - intros t' Ht'. now apply (Hr r t').
Qed.

(** [get_embedding] ends with the cached vector, or as the provider call
    without a cache does. *)
Lemma get_embedding_outcome text model use_cache w :
  fst (EmbeddingService.get_embedding settings text model use_cache w) =
  let (ty, name) := resolved settings (openai_client (embedding_service w)) model in
  if truthy_opt_list (single_lookup use_cache text name w)
  then Ok (default [] (single_lookup use_cache text name w), name)
  else fst (EmbeddingService.compute_embedding settings text ty name false w).
Proof.
  unfold EmbeddingService.get_embedding, bind at 1.
  rewrite resolve_model_run.
  destruct (resolved settings _ model) as [ty name].
  unfold single_lookup. destruct use_cache; unfold bind.
  - destruct (get_embedding_frame text name w) as (w1 & -> & Hw & _). simpl.
    destruct (truthy_opt_list (cache_lookup text name w)); [reflexivity|].
    now apply sim_compute_embedding.
  - reflexivity.
Qed.

(** [get_batch_embeddings] ends with the cached vectors when none is
    missing, or as the provider call without a cache does for the
    misses. *)
Lemma get_batch_embeddings_outcome texts model use_cache w :
  (max_batch_size settings <? Z.of_nat (length texts))%Z = false ->
  fst (EmbeddingService.get_batch_embeddings settings texts model use_cache w) =
  let (ty, name) := resolved settings (openai_client (embedding_service w)) model in
  let '(embeddings, uncached_indices, uncached_texts) :=
    EmbeddingService.split_cached 0 (combine texts (batch_lookups use_cache texts name w)) in
  if truthy_list uncached_texts
  then fst (EmbeddingService.process_uncached settings embeddings uncached_indices
              uncached_texts ty name false w)
  else Ok (embeddings, name).
Proof.
  intros Hsize. unfold EmbeddingService.get_batch_embeddings. rewrite Hsize.
  unfold bind at 1. rewrite resolve_model_run.
  destruct (resolved settings _ model) as [ty name].
  unfold batch_lookups, EmbeddingService.check_cache. destruct use_cache; unfold bind, ret.
  - destruct (get_batch_embeddings_frame texts name w) as (w1 & -> & Hw & _).
    destruct (EmbeddingService.split_cached 0 _) as [[embs uidx] utexts].
    destruct (truthy_list utexts); [|reflexivity].
    now apply sim_process_uncached.
  - rewrite split_cached_all_none.
    destruct (truthy_list texts); reflexivity.
Qed.

End SingleAndBatch.

Section Agreement.
Context `{Hashlib} `{Providers}.
Variable settings : Settings.

(** Whatever path a batch takes, its result is the list of hits with new
    vectors stored at the misses. *)
Lemma process_uncached_stores embeddings uncached_indices uncached_texts ty name w
    out effective :
  fst (EmbeddingService.process_uncached settings embeddings uncached_indices
         uncached_texts ty name false w) = Ok (out, effective) ->
  exists new_embeddings,
    out = EmbeddingService.store_new embeddings uncached_indices new_embeddings.
Proof.
  intros Hout.
  destruct (is_openai ty && openai_client (embedding_service w)) eqn:Hroute.
  - apply andb_prop in Hroute as [Hty Hc]. destruct ty; [|discriminate].
    destruct (openai_embeddings_create (openai_calls w) (Many uncached_texts) name)
      as [news|e] eqn:Hcall.
    + rewrite (process_uncached_remote_ok settings _ _ _ _ _ news Hc Hcall) in Hout.
      injection Hout as <- _. now exists news.
    + destruct (process_uncached_remote_fails settings _ _ _ _ _ _ _ _ Hc Hcall Hout)
        as (_ & m & news & _ & _ & ->).
      now exists news.
  - destruct (process_uncached_local settings _ _ _ _ _ _ _ _ Hroute Hout)
      as [(_ & m & news & _ & _ & ->)|(_ & _ & Hex & _)]; [now exists news|exact Hex].
Qed.

(** On the remote route the API is sent the resolved name. *)
Lemma sent_model_resolved client model name :
  resolved settings client model = (openai, name) -> sent_model settings name = name.
Proof.
  unfold resolved, sent_model.
  destruct model as [m|]; simpl.
  - destruct (truthy_str m) eqn:Hm; simpl.
    + destruct (String.prefix "text-embedding" m); intros Hr; inversion Hr; subst.
      now rewrite Hm.
    + destruct client; intros Hr; inversion Hr; subst.
      now destruct (truthy_str (embedding_model_openai settings)).
  - destruct client; intros Hr; inversion Hr; subst.
    now destruct (truthy_str (embedding_model_openai settings)).
Qed.

End Agreement.

(** The API that rejects empty texts is deterministic and its batch
    answers agree with its single answers. *)
Lemma picky_remote_deterministic : @deterministic picky_remote.
Proof. split; reflexivity. Qed.

Lemma constant_answer_lookup (v : vector) (texts : list string) i text :
  texts !! i = Some text -> map (fun _ : string => v) texts !! i = Some v.
Proof. intros Ht. now apply (map_lookup (fun _ : string => v) texts i text). Qed.

Lemma has_empty_false texts i text :
  has_empty texts = false -> texts !! i = Some text -> has_empty [text] = false.
Proof.
  revert i. induction texts as [|t rest IH]; intros [|i] He Ht; simpl in *;
    try discriminate.
  - injection Ht as ->. apply orb_false_elim in He as [-> _]. reflexivity.
  - apply orb_false_elim in He as [_ He]. now apply (IH i).
Qed.

Lemma picky_remote_batch_agrees : @batch_agrees picky_remote.
Proof.
  split.
  - intros n texts name answers Hmany i text Ht. simpl in Hmany.
    destruct (has_empty texts) eqn:He; [discriminate|]. injection Hmany as <-.
    pose proof (has_empty_false texts i text He Ht) as Hone.
    exists [1%Q; 0%Q], []. split; [|now apply constant_answer_lookup with text].
    simpl. simpl in Hone. now rewrite Hone.
  - intros n m texts answers Henc i text Ht. simpl in *. injection Henc as <-.
    exists [0%Q; 1%Q], []. split; [reflexivity|].
    now apply constant_answer_lookup with text.
Qed.

Lemma warm_world_readable texts name : @readable plain_digest warm_world texts name.
Proof.
  intros r text Hr _. simpl in Hr. injection Hr as <-. simpl.
  now rewrite lookup_empty.
Qed.

(** ** The errors of the two paths *)

Section Errors.
Context `{Hashlib} `{Providers}.
Variable settings : Settings.

(** When [get_embedding] fails on the remote route, its error is built
    from the error of the remote call alone, whatever the local model
    did. *)
Lemma get_embedding_error_names_remote_only text model use_cache w name e raised :
  resolved settings (openai_client (embedding_service w)) model = (openai, name) ->
  fst (EmbeddingService._get_openai_embedding settings text (Some name) w) = Raise e ->
  fst (EmbeddingService.get_embedding settings text model use_cache w) = Raise raised ->
  raised = ValueError ("All embedding methods failed: " +:+ str e).
Proof.
  intros Hroute Hremote. rewrite get_embedding_outcome, Hroute.
  destruct (truthy_opt_list _); [discriminate|].
  rewrite compute_embedding_openai, Hremote.
  destruct (local_model (embedding_service w)) as [m|].
  - destruct (first_row _ _); [discriminate|]. now intros [= <-].
  - now intros [= <-].
Qed.

(** When the remote call of a batch and the local fallback both fail, the
    error of [get_batch_embeddings] names both failures. *)
Lemma process_uncached_error_names_both embeddings uncached_indices uncached_texts
    name w e m e_local :
  openai_client (embedding_service w) = true ->
  openai_embeddings_create (openai_calls w) (Many uncached_texts) name = Raise e ->
  local_model (embedding_service w) = Some m ->
  encode (local_encodes w) m uncached_texts = Raise e_local ->
  fst (EmbeddingService.process_uncached settings embeddings uncached_indices
         uncached_texts openai name false w)
  = Raise (ValueError ("All batch embedding methods failed: " +:+ str e +:+ ", "
                       +:+ str e_local)).
Proof.
  intros Hc Hcall Hm Henc. unfold EmbeddingService.process_uncached. simpl.
  unfold try_except at 1, bind at 1, EmbeddingService.self at 1. simpl. rewrite Hc. simpl.
  unfold bind at 1, EmbeddingService.call_openai. rewrite Hcall.
  unfold try_except at 1, bind at 1. rewrite local_batch_encode_run.
  change (load_outcome settings _) with (load_outcome settings w).
  rewrite (load_outcome_loaded settings m w Hm). simpl. now rewrite Henc.
Qed.

End Errors.


(** ** Reading and writing the cache *)

Section CacheRoundTrips.
Context `{Hashlib}.
Variable settings : Settings.

Lemma stored_with_client r w : stored (with_client r w) = Some (db r).
Proof. reflexivity. Qed.

Lemma db_touch r : db (touch r) = db r.
Proof. reflexivity. Qed.

Lemma peek_touch r key : peek (touch r) key = peek r key.
Proof. reflexivity. Qed.

Lemma peek_write_ne key key' ttl value r :
  key <> key' -> peek (write key ttl value r) key' = peek r key'.
Proof. intros Hne. unfold peek, write. simpl. now rewrite lookup_insert_ne. Qed.

(** A key that is not written by a pipeline keeps its entry. *)
Lemma write_all_other (queued : list (string * Z * blob)) (m : gmap string (Z * blob)) key :
  ~ In key (map (fun q => fst (fst q)) queued) ->
  fold_left (fun m '(key, ttl, value) => <[key := (ttl, value)]> m) queued m !! key
  = m !! key.
Proof.
  revert m. induction queued as [|[[k ttl] value] rest IH]; intros m Hnotin; simpl.
  - reflexivity.
  - rewrite IH by (intros Hin; apply Hnotin; now right).
    apply lookup_insert_ne. intros ->. apply Hnotin. now left.
Qed.

(** A key written once by a pipeline holds what was written. *)
Lemma write_all_at (queued : list (string * Z * blob)) (m : gmap string (Z * blob))
    i key ttl value :
  NoDup (map (fun q => fst (fst q)) queued) ->
  queued !! i = Some (key, ttl, value) ->
  fold_left (fun m '(key, ttl, value) => <[key := (ttl, value)]> m) queued m !! key
  = Some (ttl, value).
Proof.
  revert m i. induction queued as [|[[k t] b] rest IH]; intros m i Hnd Hi.
  - discriminate.
  - simpl in Hnd. apply NoDup_cons in Hnd as [Hnotin Hnd].
    rewrite list_elem_of_In in Hnotin. simpl.
    destruct i as [|i]; simpl in Hi.
    + injection Hi as -> -> ->. rewrite write_all_other by exact Hnotin.
      apply lookup_insert_eq.
    + now apply (IH _ i).
Qed.

Lemma queue_keys texts name embeddings :
  length texts = length embeddings ->
  map (fun q => fst (fst q)) (queue settings texts name embeddings)
  = map (fun text => CacheManager._generate_key text name) texts.
Proof.
  unfold queue. revert embeddings.
  induction texts as [|t ts IH]; intros [|e es] Hlen; simpl in *; try discriminate;
    [reflexivity|].
  f_equal. apply IH. now injection Hlen.
Qed.

Lemma queue_lookup texts name embeddings i text embedding :
  texts !! i = Some text -> embeddings !! i = Some embedding ->
  queue settings texts name embeddings !! i
  = Some (CacheManager._generate_key text name, cache_ttl settings, Pickled embedding).
Proof.
  unfold queue. revert embeddings i.
  induction texts as [|t ts IH]; intros [|e es] [|i] Ht He; simpl in *; try discriminate.
  - now injection Ht as ->; injection He as ->.
  - now apply IH.
Qed.

Lemma loads_all_pickled (embeddings : list vector) :
  CacheManager.loads_all (map (fun e => Some (Pickled e)) embeddings)
  = Ok (map Some embeddings).
Proof.
  induction embeddings as [|e es IH]; simpl; [reflexivity|]. now rewrite IH.
Qed.

(** One entry that cannot be unpickled fails the whole batch read. *)
Lemma loads_all_corrupt (values : list (option blob)) :
  In (Some Corrupt) values -> exists e, CacheManager.loads_all values = Raise e.
Proof.
  induction values as [|value rest IH]; intros Hin; [destruct Hin|].
  destruct Hin as [->|Hin]; simpl.
  - now eexists.
  - destruct (IH Hin) as [e He]. rewrite He.
    destruct value as [[v|]|]; now eexists.
Qed.

Lemma get_batch_embeddings_healthy texts name w :
  healthy w ->
  exists r, redis_client (cache_manager w) = Some r /\ faults r = [] /\
    CacheManager.get_batch_embeddings texts name w =
    (Ok (peek_all r texts name), with_client (touch r) w).
Proof.
  intros (Hav & r & Hc & Hf). exists r. repeat split; try assumption.
  rewrite get_batch_embeddings_run, Hav, Hc. now rewrite (next_fault_none r Hf).
Qed.

Lemma set_batch_embeddings_healthy texts name embeddings w :
  healthy w ->
  exists r, redis_client (cache_manager w) = Some r /\ faults r = [] /\
    CacheManager.set_batch_embeddings settings texts name embeddings w =
    (Ok tt, with_client (write_all (queue settings texts name embeddings) (touch r)) w).
Proof.
  intros (Hav & r & Hc & Hf). exists r. repeat split; try assumption.
  rewrite set_batch_embeddings_run, Hav, Hc. now rewrite (next_fault_none r Hf).
Qed.

End CacheRoundTrips.

(** ** What a computation keeps *)

Create HintDb keeps discriminated.

Section Keeping.
Variable R : World -> World -> Prop.
Hypothesis R_refl : forall w, R w w.
Hypothesis R_trans : forall w1 w2 w3, R w1 w2 -> R w2 w3 -> R w1 w3.

Lemma keeps_ret {A} (a : A) : keeps R (ret a).
Proof. intros w. apply R_refl. Qed.

Lemma keeps_raise {A} e : keeps R (@raise A e).
Proof. intros w. apply R_refl. Qed.

Lemma keeps_bind {A B} (m : Py A) (k : A -> Py B) :
  keeps R m -> (forall a, keeps R (k a)) -> keeps R (bind m k).
Proof.
  intros Hm Hk w. unfold bind. specialize (Hm w).
  destruct (m w) as [[a|e] w1]; simpl in *; [|exact Hm].
  eapply R_trans; [exact Hm|apply Hk].
Qed.

Lemma keeps_try_except {A} (body : Py A) (handler : exn -> Py A) :
  keeps R body -> (forall e, keeps R (handler e)) -> keeps R (try_except body handler).
Proof.
  intros Hb Hh w. unfold try_except. specialize (Hb w).
  destruct (body w) as [[a|e] w1]; simpl in *; [exact Hb|].
  eapply R_trans; [exact Hb|apply Hh].
Qed.

Lemma keeps_self : keeps R EmbeddingService.self.
Proof. intros w. apply R_refl. Qed.

Lemma keeps_retry {A} more (f : Py A) : keeps R f -> keeps R (EmbeddingService.retry more f).
Proof.
  intros Hf. induction more as [|more IH]; simpl; apply keeps_try_except; try exact Hf;
    intros e; [apply keeps_raise|exact IH].
Qed.

(** The cache operations keep every relation that does not look at the
    cache. *)
Hypothesis R_cache : forall w c, R w (set_cache_manager c w).

Lemma keeps_cache_get `{Hashlib} text name : keeps R (CacheManager.get_embedding text name).
Proof.
  intros w. rewrite get_embedding_run.
  destruct (available _); [|apply R_refl].
  destruct (redis_client _); [apply R_cache|apply R_refl].
Qed.

Lemma keeps_cache_set `{Hashlib} settings text name embedding :
  keeps R (CacheManager.set_embedding settings text name embedding).
Proof.
  intros w. rewrite set_embedding_run.
  destruct (available _); [|apply R_refl].
  destruct (redis_client _); [apply R_cache|apply R_refl].
Qed.

Lemma keeps_cache_get_batch `{Hashlib} texts name :
  keeps R (CacheManager.get_batch_embeddings texts name).
Proof.
  intros w. rewrite get_batch_embeddings_run.
  destruct (available _); [|apply R_refl].
  destruct (redis_client _); [apply R_cache|apply R_refl].
Qed.

Lemma keeps_cache_set_batch `{Hashlib} settings texts name embeddings :
  keeps R (CacheManager.set_batch_embeddings settings texts name embeddings).
Proof.
  intros w. rewrite set_batch_embeddings_run.
  destruct (available _); [|apply R_refl].
  destruct (redis_client _); [apply R_cache|apply R_refl].
Qed.

End Keeping.

(** One step of a proof that a computation keeps a relation. *)
Ltac keeps_step :=
  lazymatch goal with
  | |- keeps _ (bind _ _) => apply keeps_bind; [solve [eauto with keeps]| |intros ?]
  | |- keeps _ (try_except _ _) =>
      apply keeps_try_except; [solve [eauto with keeps]| |intros ?]
  | |- keeps _ (match ?x with _ => _ end) => destruct x
  | |- keeps _ (if ?b then _ else _) => destruct b
  | |- keeps _ (ret _) => apply keeps_ret; auto with keeps
  | |- keeps _ (raise _) => apply keeps_raise; auto with keeps
  | |- keeps _ EmbeddingService.self => apply keeps_self; auto with keeps
  | |- keeps _ (CacheManager.get_embedding _ _) => apply keeps_cache_get; auto with keeps
  | |- keeps _ (CacheManager.set_embedding _ _ _ _) =>
      apply keeps_cache_set; auto with keeps
  | |- keeps _ (CacheManager.get_batch_embeddings _ _) =>
      apply keeps_cache_get_batch; auto with keeps
  | |- keeps _ (CacheManager.set_batch_embeddings _ _ _ _) =>
      apply keeps_cache_set_batch; auto with keeps
  | |- _ => solve [auto with keeps]
  end.

Section KeptRelations.
Context `{Hashlib} `{Providers}.
Variable settings : Settings.

Lemma no_api_call_refl w : no_api_call w w.
Proof. reflexivity. Qed.

Lemma no_api_call_trans w1 w2 w3 : no_api_call w1 w2 -> no_api_call w2 w3 -> no_api_call w1 w3.
Proof. unfold no_api_call. congruence. Qed.

Lemma no_api_call_cache w c : no_api_call w (set_cache_manager c w).
Proof. reflexivity. Qed.

Lemma model_kept_refl w : model_kept w w.
Proof. intros m Hm. now split. Qed.

Lemma model_kept_trans w1 w2 w3 : model_kept w1 w2 -> model_kept w2 w3 -> model_kept w1 w3.
Proof.
  intros H12 H23 m Hm. destruct (H12 m Hm) as [Hm2 Hl2].
  destruct (H23 m Hm2) as [Hm3 Hl3]. split; congruence.
Qed.

Lemma model_kept_cache w c : model_kept w (set_cache_manager c w).
Proof. intros m Hm. now split. Qed.

Lemma cache_kept_refl w : cache_kept w w.
Proof. reflexivity. Qed.

Lemma cache_kept_trans w1 w2 w3 : cache_kept w1 w2 -> cache_kept w2 w3 -> cache_kept w1 w3.
Proof. unfold cache_kept. congruence. Qed.

Hint Resolve no_api_call_refl no_api_call_trans no_api_call_cache
  model_kept_refl model_kept_trans model_kept_cache
  cache_kept_refl cache_kept_trans : keeps.

(** The calls of the local model make no call of the API. *)
Lemma no_api_call_encode m texts : keeps no_api_call (EmbeddingService.call_encode m texts).
Proof. intros w. reflexivity. Qed.

Lemma no_api_call_load : keeps no_api_call (EmbeddingService._load_local_model settings).
Proof.
  intros w. destruct (load_local_model_run settings w) as (_ & _ & _ & _ & Hc & _).
  exact Hc.
Qed.

Hint Resolve no_api_call_encode no_api_call_load : keeps.

Lemma no_api_call_get_local_embedding text :
  keeps no_api_call (EmbeddingService._get_local_embedding settings text).
Proof. unfold EmbeddingService._get_local_embedding. repeat keeps_step. Qed.

Lemma no_api_call_local_batch_encode texts e :
  keeps no_api_call (EmbeddingService.local_batch_encode settings texts e).
Proof. unfold EmbeddingService.local_batch_encode. repeat keeps_step. Qed.

Hint Resolve no_api_call_get_local_embedding no_api_call_local_batch_encode : keeps.

Lemma no_api_call_compute_local text name use_cache :
  keeps no_api_call (EmbeddingService.compute_embedding settings text local name use_cache).
Proof. unfold EmbeddingService.compute_embedding. simpl. repeat keeps_step. Qed.

Lemma no_api_call_process_local embeddings uncached_indices uncached_texts name use_cache :
  keeps no_api_call
    (EmbeddingService.process_uncached settings embeddings uncached_indices
       uncached_texts local name use_cache).
Proof. unfold EmbeddingService.process_uncached. simpl. repeat keeps_step. Qed.

(** A loaded model stays through every call. *)
Lemma model_kept_load : keeps model_kept (EmbeddingService._load_local_model settings).
Proof.
  intros w m Hm. now rewrite (load_local_model_loaded settings m w Hm).
Qed.

Lemma model_kept_call_openai input name :
  keeps model_kept (EmbeddingService.call_openai input name).
Proof. intros w m Hm. now split. Qed.

Lemma model_kept_call_encode m texts :
  keeps model_kept (EmbeddingService.call_encode m texts).
Proof. intros w m' Hm. now split. Qed.

Hint Resolve model_kept_load model_kept_call_openai model_kept_call_encode : keeps.

Lemma model_kept_get_openai_embedding text model :
  keeps model_kept (EmbeddingService._get_openai_embedding settings text model).
Proof.
  unfold EmbeddingService._get_openai_embedding.
  apply keeps_retry; eauto with keeps.
  unfold EmbeddingService._get_openai_embedding_attempt. repeat keeps_step.
Qed.

Lemma model_kept_get_local_embedding text :
  keeps model_kept (EmbeddingService._get_local_embedding settings text).
Proof. unfold EmbeddingService._get_local_embedding. repeat keeps_step. Qed.

Lemma model_kept_local_batch_encode texts e :
  keeps model_kept (EmbeddingService.local_batch_encode settings texts e).
Proof. unfold EmbeddingService.local_batch_encode. repeat keeps_step. Qed.

Hint Resolve model_kept_get_openai_embedding model_kept_get_local_embedding
  model_kept_local_batch_encode : keeps.

Lemma model_kept_get_embedding text model use_cache :
  keeps model_kept (EmbeddingService.get_embedding settings text model use_cache).
Proof.
  unfold EmbeddingService.get_embedding, EmbeddingService.resolve_model,
    EmbeddingService.compute_embedding.
  repeat keeps_step.
Qed.

Lemma model_kept_get_batch_embeddings texts model use_cache :
  keeps model_kept (EmbeddingService.get_batch_embeddings settings texts model use_cache).
Proof.
  unfold EmbeddingService.get_batch_embeddings, EmbeddingService.resolve_model,
    EmbeddingService.check_cache, EmbeddingService.process_uncached.
  repeat keeps_step.
Qed.

(** The providers do not touch the cache. *)
Lemma cache_kept_set_self s : keeps cache_kept (EmbeddingService.set_self s).
Proof. intros w. reflexivity. Qed.

Lemma cache_kept_call_openai input name :
  keeps cache_kept (EmbeddingService.call_openai input name).
Proof. intros w. reflexivity. Qed.

Lemma cache_kept_call_encode m texts :
  keeps cache_kept (EmbeddingService.call_encode m texts).
Proof. intros w. reflexivity. Qed.

Lemma cache_kept_load : keeps cache_kept (EmbeddingService._load_local_model settings).
Proof.
  intros w. destruct (load_local_model_run settings w) as (_ & _ & _ & _ & _ & Hc).
  exact Hc.
Qed.

Hint Resolve cache_kept_set_self cache_kept_call_openai cache_kept_call_encode
  cache_kept_load : keeps.

Lemma cache_kept_get_openai_embedding text model :
  keeps cache_kept (EmbeddingService._get_openai_embedding settings text model).
Proof.
  unfold EmbeddingService._get_openai_embedding.
  apply keeps_retry; eauto with keeps.
  unfold EmbeddingService._get_openai_embedding_attempt. repeat keeps_step.
Qed.

Lemma cache_kept_get_local_embedding text :
  keeps cache_kept (EmbeddingService._get_local_embedding settings text).
Proof. unfold EmbeddingService._get_local_embedding. repeat keeps_step. Qed.

(** When the model resolves to a local one, neither call reaches the
    API. *)
Lemma get_embedding_local_no_api text model use_cache w :
  fst (resolved settings (openai_client (embedding_service w)) model) = local ->
  no_api_call w (snd (EmbeddingService.get_embedding settings text model use_cache w)).
Proof.
  intros Hroute. unfold EmbeddingService.get_embedding, bind at 1.
  rewrite resolve_model_run.
  destruct (resolved settings _ model) as [ty name]. simpl in Hroute. subst ty.
  match goal with |- no_api_call w (snd (?m w)) => enough (Hk : keeps no_api_call m) by apply Hk end.
  pose proof no_api_call_compute_local.
  repeat keeps_step.
Qed.

Lemma get_batch_embeddings_local_no_api texts model use_cache w :
  fst (resolved settings (openai_client (embedding_service w)) model) = local ->
  no_api_call w (snd (EmbeddingService.get_batch_embeddings settings texts model use_cache w)).
Proof.
  intros Hroute. unfold EmbeddingService.get_batch_embeddings.
  destruct (_ <? _)%Z; [reflexivity|].
  unfold bind at 1. rewrite resolve_model_run.
  destruct (resolved settings _ model) as [ty name]. simpl in Hroute. subst ty.
  match goal with |- no_api_call w (snd (?m w)) => enough (Hk : keeps no_api_call m) by apply Hk end.
  pose proof no_api_call_process_local.
  unfold EmbeddingService.check_cache.
  repeat keeps_step.
Qed.

Lemma cache_kept_local_batch_encode texts e :
  keeps cache_kept (EmbeddingService.local_batch_encode settings texts e).
Proof. unfold EmbeddingService.local_batch_encode. repeat keeps_step. Qed.

(** Without [use_cache], neither call touches the cache. *)
Lemma cache_kept_get_embedding_uncached text model :
  keeps cache_kept (EmbeddingService.get_embedding settings text model false).
Proof.
  pose proof cache_kept_get_openai_embedding.
  pose proof cache_kept_get_local_embedding.
  unfold EmbeddingService.get_embedding, EmbeddingService.resolve_model,
    EmbeddingService.compute_embedding.
  simpl. repeat keeps_step.
Qed.

Lemma cache_kept_get_batch_embeddings_uncached texts model :
  keeps cache_kept (EmbeddingService.get_batch_embeddings settings texts model false).
Proof.
  pose proof cache_kept_local_batch_encode.
  unfold EmbeddingService.get_batch_embeddings, EmbeddingService.resolve_model,
    EmbeddingService.check_cache, EmbeddingService.process_uncached.
  simpl. repeat keeps_step.
Qed.

End KeptRelations.

(** ** The retried call of the API *)

Section Retried.
Context `{Providers}.
Variable settings : Settings.

Lemma get_openai_embedding_run text name w :
  openai_client (embedding_service w) = true ->
  EmbeddingService._get_openai_embedding settings text (Some name) w =
  match attempt_answer settings text name (openai_calls w) with
  | Ok v => (Ok v, bump_openai 1 w)
  | Raise _ =>
      match attempt_answer settings text name (S (openai_calls w)) with
      | Ok v => (Ok v, bump_openai 2 w)
      | Raise _ =>
          match attempt_answer settings text name (S (S (openai_calls w))) with
          | Ok v => (Ok v, bump_openai 3 w)
          | Raise e => (Raise (RetryError e), bump_openai 3 w)
          end
      end
  end.
Proof.
  intros Hc. unfold attempt_answer, EmbeddingService._get_openai_embedding. simpl.
  unfold try_except at 1. rewrite attempt_run, Hc.
  destruct (first_row _ (openai_embeddings_create (openai_calls w) _ _)); [reflexivity|].
  unfold try_except at 1. rewrite attempt_run. simpl. rewrite Hc.
  destruct (first_row _ (openai_embeddings_create (S (openai_calls w)) _ _));
    [reflexivity|].
  unfold try_except at 1. rewrite attempt_run. simpl. rewrite Hc.
  destruct (first_row _ (openai_embeddings_create (S (S (openai_calls w))) _ _));
    reflexivity.
Qed.

End Retried.

(** ** Runs that succeed *)

Lemma bind_ok {A B} (m : Py A) (k : A -> Py B) w b w' :
  bind m k w = (Ok b, w') -> exists a w1, m w = (Ok a, w1) /\ k a w1 = (Ok b, w').
Proof.
  unfold bind. destruct (m w) as [[a|e] w1]; [|discriminate].
  intros Hk. now exists a, w1.
Qed.

Lemma try_except_ok {A} (body : Py A) (handler : exn -> Py A) w a w' :
  try_except body handler w = (Ok a, w') ->
  body w = (Ok a, w') \/
  exists e w1, body w = (Raise e, w1) /\ handler e w1 = (Ok a, w').
Proof.
  unfold try_except. destruct (body w) as [[a0|e] w1]; [now left|].
  intros Hh. right. now exists e, w1.
Qed.

Section Succeeding.
Context `{Hashlib} `{Providers}.
Variable settings : Settings.

Lemma healthy_cache_manager w1 w2 :
  cache_manager w2 = cache_manager w1 -> healthy w1 -> healthy w2.
Proof. unfold healthy. now intros ->. Qed.

Lemma set_embedding_ok text name v w :
  exists w', CacheManager.set_embedding settings text name v w = (Ok tt, w').
Proof.
  rewrite set_embedding_run.
  destruct (available _); [destruct (redis_client _)|]; eauto.
Qed.

(** A vector [compute_embedding] returns was written to the cache, under
    the name it is returned with, as the last thing that happened. *)
Lemma compute_embedding_writes text ty name w v effective w' :
  EmbeddingService.compute_embedding settings text ty name true w
  = (Ok (v, effective), w') ->
  exists w2, cache_manager w2 = cache_manager w /\
             CacheManager.set_embedding settings text effective v w2 = (Ok tt, w').
Proof.
  intros Hrun. unfold EmbeddingService.compute_embedding in Hrun.
  set (provider := if is_openai ty
                   then EmbeddingService._get_openai_embedding settings text (Some name)
                   else EmbeddingService._get_local_embedding settings text) in Hrun.
  assert (Hprov : keeps cache_kept provider).
  { subst provider. destruct (is_openai ty);
      [apply cache_kept_get_openai_embedding|apply cache_kept_get_local_embedding]. }
  clearbody provider.
  apply try_except_ok in Hrun as [Hb|(e & w1 & Hb & Hh)].
  - apply bind_ok in Hb as (v0 & w2 & Hp & Hrest).
    apply bind_ok in Hrest as ([] & w3 & Hset & Hret).
    unfold ret in Hret. injection Hret as -> -> ->.
    exists w2. split; [|exact Hset].
    specialize (Hprov w). now rewrite Hp in Hprov.
  - assert (Hw1 : cache_manager w1 = cache_manager w).
    { unfold bind in Hb. specialize (Hprov w).
      destruct (provider w) as [[v0|e0] w2]; simpl in Hprov.
      - destruct (set_embedding_ok text name v0 w2) as [w3 Hset].
        rewrite Hset in Hb. discriminate.
      - now injection Hb as _ <-. }
    apply bind_ok in Hh as (s & w2 & Hself & Hrest).
    unfold EmbeddingService.self in Hself. injection Hself as <- <-.
    apply bind_ok in Hrest as (fallen_back & w3 & Hfb & Hmatch).
    destruct fallen_back as [r|]; [|discriminate].
    unfold ret in Hmatch. injection Hmatch as -> ->.
    destruct (is_openai ty && bool_decide _); [|discriminate].
    apply try_except_ok in Hfb as [Hb2|(e2 & w4 & _ & Hn)]; [|discriminate].
    apply bind_ok in Hb2 as (v1 & w4 & Hloc & Hrest).
    apply bind_ok in Hrest as ([] & w5 & Hset & Hret).
    unfold ret in Hret. injection Hret as -> <- ->.
    exists w4. split; [|exact Hset].
    pose proof (cache_kept_get_local_embedding settings text w1) as Hk.
    rewrite Hloc in Hk. unfold cache_kept in Hk. simpl in Hk. congruence.
Qed.

End Succeeding.

(** ** The batch, run to its end *)

Section BatchRuns.
Context `{Hashlib} `{Providers}.
Variable settings : Settings.

Lemma store_new_length (embeddings : list (option vector)) uncached_indices
    new_embeddings :
  length (EmbeddingService.store_new embeddings uncached_indices new_embeddings)
  = length embeddings.
Proof.
  unfold EmbeddingService.store_new.
  generalize (combine uncached_indices new_embeddings). intros pairs.
  revert embeddings. induction pairs as [|[idx v] pairs IH]; intros embs; simpl.
  - reflexivity.
  - now rewrite IH, length_insert.
Qed.

(** When every text has a usable cached vector, nothing is a miss. *)
Lemma split_cached_all_hits k (texts : list string) (cached : list (option vector)) :
  length cached = length texts ->
  Forall (fun c => truthy_opt_list c = true) cached ->
  EmbeddingService.split_cached k (combine texts cached) = (cached, [], []).
Proof.
  revert k cached. induction texts as [|text texts IH]; intros k cached Hlen Hall.
  - destruct cached; [reflexivity|discriminate].
  - destruct cached as [|c cached]; [discriminate|]. simpl in *.
    injection Hlen as Hlen. inversion Hall as [|? ? Hc Hrest]; subst.
    now rewrite (IH (S k) cached Hlen Hrest), Hc.
Qed.

Lemma batch_lookups_length use_cache texts name w :
  length (batch_lookups use_cache texts name w) = length texts.
Proof.
  unfold batch_lookups. destruct use_cache; [|apply repeat_length].
  now destruct (get_batch_embeddings_frame texts name w) as (_ & _ & _ & Hlen).
Qed.

Lemma check_cache_run texts name use_cache w :
  exists w1,
    EmbeddingService.check_cache texts name use_cache w
    = (Ok (EmbeddingService.split_cached 0
             (combine texts (batch_lookups use_cache texts name w))), w1) /\
    agree w1 w.
Proof.
  unfold EmbeddingService.check_cache, batch_lookups. destruct use_cache.
  - destruct (get_batch_embeddings_frame texts name w) as (w1 & Hget & Hag & _).
    exists w1. unfold bind. rewrite Hget. now split.
  - exists w. rewrite split_cached_all_none. split; [reflexivity|apply agree_refl].
Qed.

Lemma set_batch_embeddings_ok texts name embeddings w :
  exists w', CacheManager.set_batch_embeddings settings texts name embeddings w = (Ok tt, w')
             /\ agree w' w.
Proof.
  rewrite set_batch_embeddings_run.
  destruct (available _); [destruct (redis_client _)|];
    eexists; (split; [reflexivity|]); first [apply agree_refl|apply agree_set_cache].
Qed.

Lemma local_batch_encode_ok texts not_loaded w new_embeddings w' :
  EmbeddingService.local_batch_encode settings texts not_loaded w = (Ok new_embeddings, w') ->
  exists n m, encode n m texts = Ok new_embeddings.
Proof.
  rewrite local_batch_encode_run. destruct (load_outcome settings w) as [m|]; [|discriminate].
  intros Hrun. injection Hrun as Henc _. now exists (local_encodes w), m.
Qed.

(** A batch that returns got its new vectors from one answer of a
    provider to all the misses. *)
Lemma process_uncached_answer embeddings uncached_indices uncached_texts ty name use_cache
    w out effective w' :
  EmbeddingService.process_uncached settings embeddings uncached_indices uncached_texts
    ty name use_cache w = (Ok (out, effective), w') ->
  exists new_embeddings,
    out = EmbeddingService.store_new embeddings uncached_indices new_embeddings /\
    ((exists n, openai_embeddings_create n (Many uncached_texts) name = Ok new_embeddings) \/
     (exists n m, encode n m uncached_texts = Ok new_embeddings)).
Proof.
  intros Hrun. unfold EmbeddingService.process_uncached in Hrun.
  apply try_except_ok in Hrun as [Hb|(e & w1 & _ & Hh)].
  - apply bind_ok in Hb as (s & w1 & Hself & Hrest).
    apply bind_ok in Hrest as (news & w2 & Hprov & Hrest).
    apply bind_ok in Hrest as ([] & w3 & _ & Hret).
    unfold ret in Hret. injection Hret as <- _ _.
    exists news. split; [reflexivity|].
    destruct (is_openai ty && openai_client s).
    + left. unfold EmbeddingService.call_openai in Hprov. injection Hprov as Hcall _.
      now exists (openai_calls w1).
    + right. now apply local_batch_encode_ok in Hprov.
  - destruct (is_openai ty); [|discriminate].
    apply try_except_ok in Hh as [Hb|(e2 & w2 & _ & Hr)]; [|discriminate].
    apply bind_ok in Hb as (news & w2 & Hprov & Hrest).
    apply bind_ok in Hrest as ([] & w3 & _ & Hret).
    unfold ret in Hret. injection Hret as <- _ _.
    exists news. split; [reflexivity|].
    right. now apply local_batch_encode_ok in Hprov.
Qed.

(** The remote call of a batch, when it succeeds, is all that happens
    outside the cache. *)
Lemma process_uncached_remote_run embeddings uncached_indices uncached_texts name use_cache
    w new_embeddings :
  openai_client (embedding_service w) = true ->
  openai_embeddings_create (openai_calls w) (Many uncached_texts) name = Ok new_embeddings ->
  exists w',
    EmbeddingService.process_uncached settings embeddings uncached_indices uncached_texts
      openai name use_cache w
    = (Ok (EmbeddingService.store_new embeddings uncached_indices new_embeddings, name), w')
    /\ agree w' (bump_openai 1 w).
Proof.
  intros Hc Hcall.
  unfold EmbeddingService.process_uncached, try_except, bind at 1, EmbeddingService.self.
  simpl. rewrite Hc. unfold bind at 1, EmbeddingService.call_openai. rewrite Hcall.
  unfold bind. destruct (use_cache && truthy_list new_embeddings).
  - match goal with |- context [CacheManager.set_batch_embeddings ?s ?t ?n ?e ?w0] =>
      destruct (set_batch_embeddings_ok t n e w0) as (w' & -> & Hag) end.
    exists w'. split; [reflexivity|exact Hag].
  - eexists. split; [reflexivity|apply agree_refl].
Qed.

End BatchRuns.

(** ** Threshold, batches of queries and exhaustive search *)

Section MoreSearchFacts.
Context `{Faiss} `{Sklearn}.

Lemma format_results_threshold self t found hits :
  VectorSearchEngine.format_results self None found = Ok hits ->
  VectorSearchEngine.format_results self (Some t) found
  = Ok (List.filter (fun h => Qle_bool t (hit_score h)) hits).
Proof.
  revert hits. induction found as [|[score idx] rest IH]; intros hits; simpl.
  - intros Hh. now injection Hh as <-.
  - destruct (idx =? -1)%Z; [apply IH|].
    destruct (py_getitem (texts self) idx) as [text|]; [|discriminate].
    destruct (VectorSearchEngine.format_results self None rest) as [l|]; [|discriminate].
    intros Hh. injection Hh as <-. simpl.
    destruct (Qle_bool t score); simpl; now rewrite (IH l eq_refl).
Qed.

Lemma format_batch_row_results self found :
  VectorSearchEngine.format_batch_row self found
  = VectorSearchEngine.format_results self None found.
Proof.
  induction found as [|[score idx] rest IH]; simpl; [reflexivity|].
  destruct (idx =? -1)%Z; [exact IH|]. now rewrite IH.
Qed.

(** The rows of a batch are formatted as the results of the searches for
    its queries. *)
Lemma format_batch_searches self (query_embeddings : list vector) top_k :
  VectorSearchEngine.ntotal self <> 0%nat ->
  (0 < top_k)%Z ->
  Forall (has_dimension (index_d self)) query_embeddings ->
  VectorSearchEngine.format_batch self
    (map (fun q => faiss_search (index self) q
                     (Z.to_nat (Z.min top_k (Z.of_nat (VectorSearchEngine.ntotal self)))))
         (map normalize_L2 query_embeddings))
  = all_ok (map (fun q => VectorSearchEngine.search self q top_k None) query_embeddings).
Proof.
  intros Hn Hk. induction 1 as [|q qs Hq _ IH]; simpl; [reflexivity|].
  rewrite (search_checked self q top_k None Hn Hq Hk), format_batch_row_results, IH.
  now rewrite clamp_to_nat.
Qed.

Lemma filter_all {A} (f : A -> bool) l :
  (forall x, In x l -> f x = true) -> List.filter f l = l.
Proof.
  induction l as [|x l IH]; intros Hall; simpl; [reflexivity|].
  rewrite (Hall x (or_introl eq_refl)), IH; [reflexivity|].
  intros y Hy. apply Hall. now right.
Qed.

End MoreSearchFacts.

(** ** Clusters *)

Section Partition.
Context `{Faiss} `{Sklearn}.

Lemma dict_append_entries groups label item :
  Permutation (cluster_entries (VectorSearchEngine.dict_append groups label item))
              (cluster_entries groups ++ [(item_index item, label)]).
Proof.
  induction groups as [|[k v] rest IH]; simpl; [reflexivity|].
  destruct (Nat.eqb_spec k label) as [->|Hne]; simpl.
  - rewrite map_app, <- !app_assoc. apply Permutation_app_head. simpl.
    apply (Permutation_app_comm [(item_index item, label)]).
  - rewrite <- app_assoc. now apply Permutation_app_head.
Qed.

Lemma dict_append_keys groups label item k :
  In k (map fst (VectorSearchEngine.dict_append groups label item)) <->
  In k (map fst groups) \/ k = label.
Proof.
  induction groups as [|[k0 v] rest IH]; simpl.
  - intuition congruence.
  - destruct (Nat.eqb_spec k0 label) as [->|Hne]; simpl.
    + intuition congruence.
    + rewrite IH. intuition congruence.
Qed.

Lemma dict_append_NoDup groups label item :
  List.NoDup (map fst groups) ->
  List.NoDup (map fst (VectorSearchEngine.dict_append groups label item)).
Proof.
  induction groups as [|[k0 v] rest IH]; simpl; intros Hnd.
  - constructor; [intros []|constructor].
  - inversion Hnd as [|? ? Hnotin Hrest]; subst.
    destruct (Nat.eqb_spec k0 label) as [->|Hne]; simpl.
    + now constructor.
    + constructor; [|now apply IH].
      rewrite dict_append_keys. intros [Hin|Heq]; [now apply Hnotin|congruence].
Qed.

Lemma dict_append_items groups label item (P : ClusterItem -> Prop) :
  P item ->
  Forall (fun g => snd g <> [] /\ Forall P (snd g)) groups ->
  Forall (fun g => snd g <> [] /\ Forall P (snd g))
         (VectorSearchEngine.dict_append groups label item).
Proof.
  intros Hitem. induction groups as [|[k0 v] rest IH]; simpl; intros Hall.
  - constructor; [|constructor]. simpl. split; [discriminate|]. now constructor.
  - inversion Hall as [|? ? [Hne Hv] Hrest]; subst. simpl in Hne, Hv.
    destruct (k0 =? label)%nat.
    + constructor; [|exact Hrest]. simpl. split.
      * intros Heq. now apply app_eq_nil in Heq as [_ Heq].
      * apply Forall_app. split; [exact Hv|]. now constructor.
    + constructor; [now split|now apply IH].
Qed.

(** The loop of [cluster_vectors] puts each labelled record into the
    group of its label, and into no other. *)
Lemma group_by_label_partition self acc labelled groups :
  VectorSearchEngine.group_by_label self acc labelled = Ok groups ->
  List.NoDup (map fst acc) ->
  Forall (fun g => snd g <> [] /\ Forall (item_of self) (snd g)) acc ->
  Permutation (cluster_entries groups) (cluster_entries acc ++ labelled) /\
  List.NoDup (map fst groups) /\
  Forall (fun g => snd g <> [] /\ Forall (item_of self) (snd g)) groups.
Proof.
  revert acc. induction labelled as [|[i label] rest IH]; intros acc; simpl.
  - intros Hg Hnd Hall. injection Hg as <-. now rewrite app_nil_r.
  - destruct (texts self !! i) as [text|] eqn:Ht; [|discriminate].
    intros Hg Hnd Hall.
    apply IH in Hg as (Hperm & Hnd' & Hall').
    + split; [|now split]. rewrite Hperm, dict_append_entries, <- app_assoc.
      reflexivity.
    + now apply dict_append_NoDup.
    + apply dict_append_items; [|exact Hall]. split; simpl; [exact Ht|].
      destruct (Nat.ltb_spec i (length (metadata self))) as [Hlt|Hge]; [reflexivity|].
      now rewrite lookup_ge_None_2.
Qed.

End Partition.

(** ** The engine and the disk *)

Section DiskFacts.
Context `{Faiss}.

Lemma append_ne (p s : string) : s <> "" -> p +:+ s <> p.
Proof.
  intros Hs. induction p as [|a p IH]; simpl; [exact Hs|].
  intros Heq. injection Heq as Heq. now apply IH.
Qed.

Lemma write_file_ok path content disk disk' :
  write_file path content disk = (Ok tt, disk') ->
  disk' = {| files := <[path := content]> (files disk); read_only := read_only disk |}.
Proof.
  unfold write_file. destruct (bool_decide _); [discriminate|].
  intros Hw. now injection Hw as <-.
Qed.

(** A save that returns left the index file and the pickle of the arrays
    at the chosen path. *)
Lemma save_index_ok self path disk disk' :
  VectorSearchEngine.save_index self path disk = (Ok tt, disk') ->
  files disk' !! chosen_path self path = Some (IndexFile (index_d self) (index self)) /\
  files disk' !! (chosen_path self path +:+ ".metadata")
  = Some (PickleFile {| saved_texts := Some (texts self);
                        saved_metadata := Some (metadata self);
                        saved_dimension := Some (dimension self) |}).
Proof.
  unfold VectorSearchEngine.save_index. fold (chosen_path self path).
  destruct (write_file (chosen_path self path) _ disk) as [[[]|e] disk1] eqn:Hw1;
    [|discriminate].
  intros Hw2. apply write_file_ok in Hw1, Hw2. subst disk1 disk'. simpl. split.
  - rewrite lookup_insert_ne by (apply append_ne; discriminate).
    apply lookup_insert_eq.
  - apply lookup_insert_eq.
Qed.

(** What [load_index] finds at a path where an index file and the pickle
    of the arrays are. *)
Lemma load_index_found self path disk d rows data :
  files disk !! chosen_path self path = Some (IndexFile d rows) ->
  files disk !! (chosen_path self path +:+ ".metadata") = Some (PickleFile data) ->
  VectorSearchEngine.load_index self path disk =
  {| index := rows;
     index_d := d;
     texts := default [] (saved_texts data);
     metadata := default [] (saved_metadata data);
     dimension := default (dimension self) (saved_dimension data);
     index_path := index_path self |}.
Proof.
  intros Hi Hm. unfold VectorSearchEngine.load_index, faiss_read_index, os_path_exists,
    pickle_load.
  fold (chosen_path self path). rewrite Hi, Hm.
  rewrite bool_decide_eq_true_2 by (now eexists). reflexivity.
Qed.

(** An engine created without an index file keeps the configured
    dimension, for itself and for its index, and the configured path. *)
Lemma reachable_settings settings self :
  reachable settings self ->
  dimension self = vector_dimension settings /\
  index_d self = vector_dimension settings /\
  index_path self = faiss_index_path settings.
Proof.
  induction 1 as [|self embeddings new_texts new_metadata _ IH Hm|self _ IH].
  - now split.
  - destruct (add_vectors_state self embeddings new_texts new_metadata)
      as [->|(_ & _ & ->)]; exact IH.
  - destruct IH as (Hd & _ & Hp). now split.
Qed.

End DiskFacts.

(** ** The fallback of a batch *)

Section BatchFallback.
Context `{Hashlib} `{Providers}.
Variable settings : Settings.

(** The remote call of a batch raises and the local model, loaded now if
    it was not, encodes the misses. *)
Lemma process_uncached_falls_back embeddings uncached_indices uncached_texts name w e m
    new_embeddings :
  openai_client (embedding_service w) = true ->
  openai_embeddings_create (openai_calls w) (Many uncached_texts) name = Raise e ->
  load_outcome settings w = Some m ->
  encode (local_encodes w) m uncached_texts = Ok new_embeddings ->
  fst (EmbeddingService.process_uncached settings embeddings uncached_indices
         uncached_texts openai name false w)
  = Ok (EmbeddingService.store_new embeddings uncached_indices new_embeddings,
        embedding_model_local settings).
Proof.
  intros Hc Hcall Hload Henc.
  unfold EmbeddingService.process_uncached, try_except at 1, bind at 1,
    EmbeddingService.self.
  simpl. rewrite Hc. unfold bind at 1, EmbeddingService.call_openai. rewrite Hcall.
  simpl. unfold try_except at 1, bind at 1. rewrite local_batch_encode_run.
  change {| cache_manager := cache_manager w; embedding_service := embedding_service w;
            openai_calls := S (openai_calls w); local_loads := local_loads w;
            local_encodes := local_encodes w |} with (bump_openai 1 w).
  rewrite load_outcome_bump_openai, Hload. simpl. rewrite Henc. reflexivity.
Qed.

End BatchFallback.

(** * The properties *)

(** C1, amended.  For a text routed to the remote provider that misses
    the cache: when the retried remote call fails and a local model is
    already loaded and encodes the text, [get_embedding] succeeds with the
    local model's vector and the configured local model name, after one
    local call; and on a cache that works the vector is written under the
    local model name, so that, when the vector and that name are not
    empty, the same text asked for with the local model name is served
    from the cache, with no provider call. *)
Theorem fallback_to_loaded_local_model `{Hashlib} `{Providers} (settings : Settings)
    (w : World) (text : string) (model : option string) (name : string) (e : exn)
    (m : LocalModel) (v : vector) (rest : list vector) :
  resolved settings (openai_client (embedding_service w)) model = (openai, name) ->
  truthy_opt_list (cache_lookup text name w) = false ->
  fst (EmbeddingService._get_openai_embedding settings text (Some name) w) = Raise e ->
  local_model (embedding_service w) = Some m ->
  encode (local_encodes w) m [text] = Ok (v :: rest) ->
  exists w',
    EmbeddingService.get_embedding settings text model true w
    = (Ok (v, embedding_model_local settings), w') /\
    local_encodes w' = S (local_encodes w) /\
    (healthy w ->
     cache_lookup text (embedding_model_local settings) w' = Some v /\
     (v <> [] -> truthy_str (embedding_model_local settings) = true ->
      exists w'',
        EmbeddingService.get_embedding settings text
          (Some (embedding_model_local settings)) true w'
        = (Ok (v, embedding_model_local settings), w'') /\
        openai_calls w'' = openai_calls w' /\
        local_loads w'' = local_loads w' /\
        local_encodes w'' = local_encodes w')).
Proof.
  intros Hroute Hmiss Hremote Hloaded Hencode.
  unfold EmbeddingService.get_embedding at 1. unfold bind at 1.
  rewrite resolve_model_run, Hroute. unfold bind at 1.
  destruct (get_embedding_frame text name w) as (w1 & Hget & Hw1 & Hhealthy1).
  rewrite Hget, Hmiss. simpl.
  (* the remote call, from the state after the lookup *)
  unfold EmbeddingService.compute_embedding, try_except at 1, bind at 1. simpl.
  destruct (sim_get_openai_embedding settings text (Some name) w1 w Hw1) as [Hr1 _].
  destruct (get_openai_embedding_frame settings text name w1) as [k Hk].
  destruct (EmbeddingService._get_openai_embedding settings text (Some name) w1)
    as [res w2] eqn:Hcall.
  simpl in Hr1, Hk. rewrite Hremote in Hr1. subst res w2.
  (* the fallback *)
  destruct Hw1 as (Hs1 & _ & _ & He1).
  assert (Hloaded2 : local_model (embedding_service (bump_openai k w1)) = Some m).
  { simpl. now rewrite Hs1. }
  unfold bind at 1. unfold EmbeddingService.self at 1. simpl.
  rewrite Hs1, Hloaded. simpl.
  unfold bind at 1, try_except at 1, bind at 1.
  rewrite (get_local_embedding_loaded settings m text _ Hloaded2). simpl.
  rewrite He1, Hencode. simpl.
  unfold bind at 1.
  pose (w3 := bump_encodes (bump_openai k w1)).
  fold w3.
  destruct (CacheManager.set_embedding settings text (embedding_model_local settings) v w3)
    as [res w'] eqn:Hset.
  pose proof (sim_set_embedding settings text (embedding_model_local settings) v w3 w3
                (agree_refl w3)) as [Hres Hagree].
  rewrite Hset in Hres, Hagree. simpl in Hres, Hagree. subst res.
  unfold ret. exists w'. split; [reflexivity|].
  destruct Hagree as (Hs' & Ho' & Hl' & He').
  split; [rewrite He'; simpl; now rewrite He1|].
  (* a cache that works *)
  intros Hh. destruct (Hhealthy1 Hh) as (r & Hc & Hf & -> & _).
  assert (Hh3 : healthy w3).
  { split; [apply Hh|]. exists (touch r). split; [reflexivity|now apply faults_touch]. }
  destruct (set_embedding_healthy settings text (embedding_model_local settings) v w3 Hh3)
    as (r3 & Hc3 & Hf3 & Hset').
  rewrite Hset in Hset'. injection Hset' as ->.
  set (key := CacheManager._generate_key text (embedding_model_local settings)) in *.
  set (r' := write key (cache_ttl settings) (Pickled v) (touch r3)).
  assert (Hh' : healthy (with_client r' w3)).
  { apply healthy_with_client; [apply Hh3|]. simpl. now apply faults_touch. }
  destruct (get_embedding_frame text (embedding_model_local settings) (with_client r' w3))
    as (w4 & Hget4 & Hw4 & Hhealthy4).
  destruct (Hhealthy4 Hh') as (r4 & Hc4 & Hf4 & -> & Hlook).
  simpl in Hc4. injection Hc4 as <-.
  fold key in Hlook. unfold r' in Hlook at 2. rewrite peek_write in Hlook.
  split; [exact Hlook|].
  intros Hv Hname.
  unfold EmbeddingService.get_embedding, bind at 1.
  rewrite resolve_model_run. unfold resolved. simpl. rewrite Hname. simpl.
  assert (Htruthy : truthy_opt_list (Some v) = true) by (destruct v; [congruence|reflexivity]).
  destruct (String.prefix "text-embedding" (embedding_model_local settings));
    unfold bind; rewrite Hget4, Hlook, Htruthy; simpl;
    (eexists; split; [reflexivity|now repeat split]).
Qed.

(** C1, witness: the API out of quota, the local model loaded, a working
    cache. *)
Lemma fallback_to_loaded_local_model_witness :
  exists w',
    @EmbeddingService.get_embedding plain_digest remote_down default_settings
      "hello" None true warm_world = (Ok ([5%Q; 1%Q], local_name), w') /\
    local_encodes w' = 1%nat /\
    exists w'',
      @EmbeddingService.get_embedding plain_digest remote_down default_settings
        "hello" (Some local_name) true w' = (Ok ([5%Q; 1%Q], local_name), w'') /\
      local_encodes w'' = local_encodes w'.
Proof.
  destruct (@fallback_to_loaded_local_model plain_digest remote_down default_settings
              warm_world "hello" None "text-embedding-3-small"
              (RetryError (Exn "APIError" "rate limit exceeded")) local_name
              [5%Q; 1%Q] [])
    as (w' & Hrun & Hencodes & Hcache); try (vm_compute; reflexivity).
  exists w'. split; [exact Hrun|]. split; [exact Hencodes|].
  destruct (Hcache warm_world_healthy) as [_ Hhit].
  destruct Hhit as (w'' & Hrun' & _ & _ & Hencodes'); [discriminate|reflexivity|].
  exists w''. now split.
Defined.

(** C1, counterexample: the route is remote, the remote call fails after
    its retries, the local model is loaded, and the cache is unavailable.
    The call succeeds with the local model's name, but nothing is cached:
    the same text asked for with the local model name misses the cache
    and is encoded again. *)
Lemma fallback_without_cache_is_not_cached :
  resolved default_settings (openai_client (embedding_service uncached_world)) None
  = (openai, "text-embedding-3-small") /\
  fst (@EmbeddingService._get_openai_embedding remote_down default_settings
         "hello" (Some "text-embedding-3-small") uncached_world)
  = Raise (RetryError (Exn "APIError" "rate limit exceeded")) /\
  local_model (embedding_service uncached_world) = Some local_name /\
  exists w',
    @EmbeddingService.get_embedding plain_digest remote_down default_settings
      "hello" None true uncached_world = (Ok ([5%Q; 1%Q], local_name), w') /\
    stored w' = None /\
    @cache_lookup plain_digest "hello" local_name w' = None /\
    local_encodes w' = 1%nat /\
    local_encodes
      (snd (@EmbeddingService.get_embedding plain_digest remote_down default_settings
              "hello" (Some local_name) true w')) = 2%nat.
Proof.
  repeat split; try (vm_compute; reflexivity).
  eexists. split; [vm_compute; reflexivity|].
  repeat split; vm_compute; reflexivity.
Qed.

(** The fallback of [get_embedding] is taken only when the local model is
    loaded already: from a process that has not loaded it, the single-item
    call fails where the batch call loads the model and succeeds. *)
Example fallback_needs_loaded_model :
  fst (@EmbeddingService.get_embedding plain_digest remote_down default_settings
         "hello" None true cold_world)
  = Raise (ValueError
             "All embedding methods failed: RetryError[<Future state=finished raised APIError>]")
  /\
  fst (@EmbeddingService.get_batch_embeddings plain_digest remote_down default_settings
         ["hello"] None true cold_world)
  = Ok ([Some [5%Q; 1%Q]], local_name).
Proof. split; vm_compute; reflexivity. Qed.

(** C2, at the failing input: twelve records with the same vector and the
    threshold 0.8.  All 66 pairs [i < j] have similarity 1, and 45 are
    reported: each record is searched for its ten nearest rows only, so the
    pair of records 0 and 10 is among the missing ones. *)
Theorem similar_pairs_misses_pairs :
  length (@qualifying_pairs exact_faiss twelve_alike (4 # 5)) = 66%nat /\
  In (0%nat, 10%nat) (@qualifying_pairs exact_faiss twelve_alike (4 # 5)) /\
  length (@VectorSearchEngine.get_similar_pairs exact_faiss twelve_alike (4 # 5)) = 45%nat /\
  existsb (fun '(i, j, _) => (i =? 0)%nat && (j =? 10)%Z)
          (@VectorSearchEngine.get_similar_pairs exact_faiss twelve_alike (4 # 5)) = false.
Proof.
  split; [vm_compute; reflexivity|].
  split; [|split; vm_compute; reflexivity].
  unfold qualifying_pairs. apply List.filter_In. split; [|vm_compute; reflexivity].
  apply in_flat_map. exists 0%nat. split; [vm_compute; tauto|].
  vm_compute. tauto.
Qed.

(** C3.  When the backing store fails, every cache operation degrades: a
    read is a miss (a batch read a miss at every position, as long as its
    input), a write leaves the store as it was, none raises, and a call
    that generates embeddings ends as it would without a cache. *)
Theorem cache_fails_open `{Hashlib} `{Providers} (settings : Settings) (w : World)
    (text name : string) (embedding : vector) (texts : list string)
    (embeddings : list vector) (model : option string) :
  store_failure w ->
  fst (CacheManager.get_embedding text name w) = Ok None /\
  fst (CacheManager.get_batch_embeddings texts name w) = Ok (repeat None (length texts)) /\
  length (repeat (@None vector) (length texts)) = length texts /\
  (fst (CacheManager.set_embedding settings text name embedding w) = Ok tt /\
   stored (snd (CacheManager.set_embedding settings text name embedding w)) = stored w) /\
  (fst (CacheManager.set_batch_embeddings settings texts name embeddings w) = Ok tt /\
   stored (snd (CacheManager.set_batch_embeddings settings texts name embeddings w))
   = stored w) /\
  fst (EmbeddingService.get_embedding settings text model true w)
  = fst (EmbeddingService.get_embedding settings text model false w) /\
  fst (EmbeddingService.get_batch_embeddings settings texts model true w)
  = fst (EmbeddingService.get_batch_embeddings settings texts model false w).
Proof.
  intros Hf.
  destruct (get_embedding_miss_on_failure text name w Hf) as (w1 & Hg & _).
  destruct (get_batch_embeddings_miss_on_failure texts name w Hf) as (w2 & Hb & _).
  rewrite Hg, Hb. repeat split; try reflexivity.
  - apply repeat_length.
  - now apply set_embedding_noop_on_failure.
  - now apply set_embedding_noop_on_failure.
  - now apply set_batch_embeddings_noop_on_failure.
  - now apply set_batch_embeddings_noop_on_failure.
  - now apply get_embedding_without_cache.
  - now apply get_batch_embeddings_without_cache.
Qed.

(** C3, witness: the store drops the command; the lookup is a miss and
    the embedding is generated all the same. *)
Lemma cache_fails_open_witness :
  store_failure flaky_world /\
  fst (@CacheManager.get_embedding plain_digest "hello" local_name flaky_world) = Ok None /\
  fst (@EmbeddingService.get_embedding plain_digest remote_down default_settings
         "hello" (Some local_name) true flaky_world)
  = Ok ([5%Q; 1%Q], local_name).
Proof.
  assert (Hf : store_failure flaky_world).
  { eapply command_fails; reflexivity. }
  split; [exact Hf|].
  destruct (@cache_fails_open plain_digest remote_down default_settings flaky_world
              "hello" local_name [] [] [] (Some local_name) Hf)
    as (Hget & _ & _ & _ & _ & Hsingle & _).
  split; [exact Hget|]. rewrite Hsingle. vm_compute. reflexivity.
Defined.

(** C4.  A batch longer than the configured maximum is refused with a
    validation error, and the process is as it was: no provider was
    called and no command was sent to the cache. *)
Theorem oversized_batch_rejected `{Hashlib} `{Providers} (settings : Settings)
    (w : World) (texts : list string) (model : option string) (use_cache : bool) :
  (max_batch_size settings < Z.of_nat (length texts))%Z ->
  EmbeddingService.get_batch_embeddings settings texts model use_cache w =
  (Raise (ValueError ("Batch size " +:+ pretty (length texts) +:+ " exceeds limit "
                      +:+ pretty (max_batch_size settings))), w).
Proof.
  intros Hlen. unfold EmbeddingService.get_batch_embeddings.
  apply Z.ltb_lt in Hlen. now rewrite Hlen.
Qed.

(** C4, witness: 150 texts against the default limit of 100. *)
Lemma oversized_batch_rejected_witness :
  (max_batch_size default_settings < Z.of_nat (length (repeat "text" 150)))%Z /\
  @EmbeddingService.get_batch_embeddings plain_digest remote_down default_settings
    (repeat "text" 150) None true warm_world
  = (Raise (ValueError "Batch size 150 exceeds limit 100"), warm_world).
Proof.
  split; [vm_compute; reflexivity|].
  apply (@oversized_batch_rejected plain_digest remote_down default_settings warm_world
           (repeat "text" 150) None true).
  vm_compute. reflexivity.
Defined.




(** C6, at the failing input: the API is out of quota and the loaded
    local model cannot encode.  The error of [get_embedding] names the
    retry error of the remote call and nothing of the local failure; the
    error of [get_batch_embeddings] names both. *)
Theorem single_path_drops_local_cause :
  fst (@EmbeddingService.get_embedding plain_digest both_down default_settings
         "hello" None true warm_world)
  = Raise (ValueError
             "All embedding methods failed: RetryError[<Future state=finished raised APIError>]")
  /\
  fst (@EmbeddingService.get_batch_embeddings plain_digest both_down default_settings
         ["hello"] None true warm_world)
  = Raise (ValueError
             "All batch embedding methods failed: rate limit exceeded, CUDA out of memory").
Proof. split; vm_compute; reflexivity. Qed.




(** C8, amended.  With deterministic providers whose batch answers agree
    elementwise with their single answers, no unreadable cache entry for a
    text of the batch, and a remote-routed model name that is not the local
    model's name: when [get_embedding] for a text and
    [get_batch_embeddings] for a list that holds the text, run from the
    same state, both succeed and report the same effective model name, the
    batch holds at the position of the text the vector of the single
    call. *)
Theorem single_and_batch_agree `{Hashlib} `{Providers} (settings : Settings) (w : World)
    (text : string) (model : option string) (use_cache : bool) (texts : list string)
    (i : nat) (v : vector) (out : list (option vector)) (effective : string) :
  deterministic ->
  batch_agrees ->
  readable w texts (snd (resolved settings (openai_client (embedding_service w)) model)) ->
  (fst (resolved settings (openai_client (embedding_service w)) model) = openai ->
   snd (resolved settings (openai_client (embedding_service w)) model)
   <> embedding_model_local settings) ->
  texts !! i = Some text ->
  fst (EmbeddingService.get_embedding settings text model use_cache w)
  = Ok (v, effective) ->
  fst (EmbeddingService.get_batch_embeddings settings texts model use_cache w)
  = Ok (out, effective) ->
  out !! i = Some (Some v).
Proof.
  intros [Hdr Hde] [Har Hae] Hread Hnames Hi Hsingle Hbatch.
  rewrite get_embedding_outcome in Hsingle.
  destruct (max_batch_size settings <? Z.of_nat (length texts))%Z eqn:Hsize.
  { unfold EmbeddingService.get_batch_embeddings in Hbatch. rewrite Hsize in Hbatch.
    discriminate. }
  rewrite (get_batch_embeddings_outcome settings texts model use_cache w Hsize) in Hbatch.
  pose proof (sent_model_resolved settings (openai_client (embedding_service w)) model)
    as Hsent.
  revert Hread Hnames Hsent Hsingle Hbatch.
  destruct (resolved settings (openai_client (embedding_service w)) model) as [ty name].
  simpl. intros Hread Hnames Hsent.
  (* the lookups of the batch, at the position of the text *)
  set (cached := batch_lookups use_cache texts name w).
  assert (Hlen : length cached = length texts).
  { unfold cached, batch_lookups. destruct use_cache; [|apply repeat_length].
    now destruct (get_batch_embeddings_frame texts name w) as (_ & _ & _ & Hl). }
  assert (Hc : cached !! i = Some (single_lookup use_cache text name w)).
  { unfold cached, batch_lookups, single_lookup. destruct use_cache.
    - now apply batch_lookup_at.
    - apply repeat_lookup. now apply lookup_lt_Some in Hi. }
  destruct (EmbeddingService.split_cached 0 (combine texts cached))
    as [[embs uidx] utexts] eqn:Hsplit.
  destruct (split_cached_spec 0 texts cached embs uidx utexts Hlen Hsplit)
    as (Hl1 & Hl2 & Hnd & _ & Hpos).
  specialize (Hpos i text _ Hi Hc). simpl in Hpos. revert Hpos.
  destruct (truthy_opt_list (single_lookup use_cache text name w)) eqn:Hhit.
  - (* a hit *)
    intros [Hemb Hnotin] Hsingle.
    injection Hsingle as <- <-.
    assert (Hv : single_lookup use_cache text name w
                 = Some (default [] (single_lookup use_cache text name w))).
    { destruct (single_lookup use_cache text name w); [reflexivity|discriminate]. }
    rewrite Hv in Hemb.
    destruct (truthy_list utexts); intros Hbatch.
    + destruct (process_uncached_stores settings _ _ _ _ _ _ _ _ Hbatch) as [news ->].
      now rewrite store_new_other.
    + now injection Hbatch as <-.
  - (* a miss *)
    intros [Hemb (j & Hj & Htj)].
    assert (Hut : truthy_list utexts = true) by (destruct utexts; [discriminate|reflexivity]).
    rewrite Hut.
    assert (Hbound : (i < length embs)%nat).
    { rewrite Hl1. now apply lookup_lt_Some in Hi. }
    destruct ty.
    + (* remote route *)
      rewrite compute_embedding_openai.
      specialize (Hnames eq_refl). specialize (Hsent name eq_refl).
      destruct (openai_client (embedding_service w)) eqn:Hclient.
      * destruct (openai_embeddings_create (openai_calls w) (Many utexts) name)
          as [news|e] eqn:Hcall.
        -- rewrite (process_uncached_remote_ok settings _ _ _ _ _ news Hclient Hcall).
           destruct (fst (EmbeddingService._get_openai_embedding settings text
                            (Some name) w)) as [v0|e] eqn:Hremote.
           ++ intros Hsingle Hbatch. injection Hsingle as <- <-. injection Hbatch as <-.
              destruct (get_openai_embedding_ok settings _ _ _ _ Hremote)
                as (_ & n & rest & Hone).
              rewrite Hsent in Hone.
              destruct (Har _ _ _ _ Hcall j text Htj) as (v' & rest' & Hone' & Hnews).
              rewrite (Hdr _ n) in Hone'. rewrite Hone in Hone'. injection Hone' as <- _.
              eapply store_new_at; eassumption.
           ++ destruct (local_model (embedding_service w)); [|discriminate].
              destruct (first_row _ _); [|discriminate].
              intros Hsingle Hbatch. injection Hsingle as _ Heff.
              injection Hbatch as _ Heff'. congruence.
        -- intros Hsingle Hbatch.
           destruct (process_uncached_remote_fails settings _ _ _ _ _ _ _ _
                       Hclient Hcall Hbatch)
             as (-> & m & news & Hload & Henc & ->).
           revert Hsingle.
           destruct (fst (EmbeddingService._get_openai_embedding settings text
                            (Some name) w)) as [v0|e0].
           ++ intros Hsingle. injection Hsingle as _ Heff. congruence.
           ++ destruct (local_model (embedding_service w)) as [m0|] eqn:Hm0;
                [|discriminate].
              rewrite (load_outcome_loaded settings m0 w Hm0) in Hload.
              injection Hload as <-.
              destruct (Hae _ _ _ _ Henc j text Htj) as (v' & rest' & Hone' & Hnews).
              rewrite Hone'. simpl. intros Hsingle. injection Hsingle as <-.
              eapply store_new_at; eassumption.
      * rewrite (get_openai_embedding_no_client settings text name w Hclient). simpl.
        destruct (local_model (embedding_service w)) as [m0|] eqn:Hm0; [|discriminate].
        destruct (first_row _ _) as [v0|] eqn:Hrow; [|discriminate].
        intros Hsingle Hbatch. injection Hsingle as <- <-.
        assert (Hroute : is_openai openai && openai_client (embedding_service w) = false)
          by (rewrite Hclient; reflexivity).
        destruct (process_uncached_local settings _ _ _ _ _ _ _ _ Hroute Hbatch)
          as [(Heff & _)|(_ & _ & _ & Hfail)].
        -- congruence.
        -- destruct (Hfail m0 Hm0) as [[e He] [news Hok]].
           rewrite (Hde _ (local_encodes w)) in Hok. congruence.
    + (* local route *)
      rewrite compute_embedding_local.
      destruct (load_outcome settings w) as [m|] eqn:Hload; [|discriminate].
      destruct (first_row _ _) as [v0|] eqn:Hrow; [|discriminate].
      intros Hsingle Hbatch. injection Hsingle as <- <-.
      assert (Hroute : is_openai local && openai_client (embedding_service w) = false)
        by reflexivity.
      destruct (process_uncached_local settings _ _ _ _ _ _ _ _ Hroute Hbatch)
        as [(_ & m' & news & Hload' & Henc & ->)|(Hty & _)]; [|discriminate].
      rewrite Hload in Hload'. injection Hload' as <-.
      destruct (Hae _ _ _ _ Henc j text Htj) as (v' & rest' & Hone' & Hnews).
      rewrite Hone' in Hrow. simpl in Hrow. injection Hrow as <-.
      eapply store_new_at; eassumption.
Qed.

(** C8, witness: two texts the API accepts; the single call and the batch
    are both served by the API. *)
Lemma single_and_batch_agree_witness :
  fst (@EmbeddingService.get_embedding plain_digest picky_remote default_settings
         "hello" None true warm_world)
  = Ok ([1%Q; 0%Q], "text-embedding-3-small") /\
  fst (@EmbeddingService.get_batch_embeddings plain_digest picky_remote default_settings
         ["hello"; "world"] None true warm_world)
  = Ok ([Some [1%Q; 0%Q]; Some [1%Q; 0%Q]], "text-embedding-3-small") /\
  ([Some [1%Q; 0%Q]; Some [1%Q; 0%Q]] : list (option vector)) !! 0%nat
  = Some (Some [1%Q; 0%Q]).
Proof.
  assert (Hsingle :
    fst (@EmbeddingService.get_embedding plain_digest picky_remote default_settings
           "hello" None true warm_world)
    = Ok ([1%Q; 0%Q], "text-embedding-3-small")) by (vm_compute; reflexivity).
  assert (Hbatch :
    fst (@EmbeddingService.get_batch_embeddings plain_digest picky_remote default_settings
           ["hello"; "world"] None true warm_world)
    = Ok ([Some [1%Q; 0%Q]; Some [1%Q; 0%Q]], "text-embedding-3-small"))
    by (vm_compute; reflexivity).
  split; [exact Hsingle|]. split; [exact Hbatch|].
  apply (@single_and_batch_agree plain_digest picky_remote default_settings warm_world
           "hello" None true ["hello"; "world"] 0 [1%Q; 0%Q]
           [Some [1%Q; 0%Q]; Some [1%Q; 0%Q]] "text-embedding-3-small"
           picky_remote_deterministic picky_remote_batch_agrees).
  - apply warm_world_readable.
  - intros _. vm_compute. discriminate.
  - reflexivity.
  - exact Hsingle.
  - exact Hbatch.
Defined.

(** C8, counterexample: a deterministic API whose batch answers agree
    with its single answers and that rejects empty texts.  Alone, "hello"
    is embedded by the API; in a batch with an empty text the API call
    fails, the whole batch falls back to the local model, and "hello" gets
    the local model's vector. *)
Lemma single_and_batch_differ :
  @deterministic picky_remote /\
  @batch_agrees picky_remote /\
  ["hello"; ""] !! 0%nat = Some "hello" /\
  fst (@EmbeddingService.get_embedding plain_digest picky_remote default_settings
         "hello" None true warm_world)
  = Ok ([1%Q; 0%Q], "text-embedding-3-small") /\
  fst (@EmbeddingService.get_batch_embeddings plain_digest picky_remote default_settings
         ["hello"; ""] None true warm_world)
  = Ok ([Some [0%Q; 1%Q]; Some [0%Q; 1%Q]], local_name) /\
  [1%Q; 0%Q] <> [0%Q; 1%Q].
Proof.
  split; [exact picky_remote_deterministic|].
  split; [exact picky_remote_batch_agrees|].
  repeat split; try (vm_compute; reflexivity). discriminate.
Qed.

(** C9.  In every state reached from the empty engine by [add_vectors]
    calls with fitting metadata and [clear_index] calls, the texts and the
    metadata are as many as the vectors of the index, and every index that
    [search] or [cluster_vectors] returns is a position of both arrays; a
    search for a positive [top_k] with a query of the dimension of the
    index returns. *)
Theorem parallel_arrays_aligned `{Faiss} `{Sklearn} (settings : Settings)
    (self : VectorSearchEngineState) :
  reachable settings self ->
  length (texts self) = VectorSearchEngine.ntotal self /\
  length (metadata self) = VectorSearchEngine.ntotal self /\
  (forall query_embedding top_k threshold hits h,
     VectorSearchEngine.search self query_embedding top_k threshold = Ok hits ->
     In h hits ->
     (0 <= hit_index h < Z.of_nat (length (texts self)))%Z /\
     (hit_index h < Z.of_nat (length (metadata self)))%Z) /\
  (forall query_embedding top_k threshold,
     has_dimension (index_d self) query_embedding -> (0 < top_k)%Z ->
     exists hits,
       VectorSearchEngine.search self query_embedding top_k threshold = Ok hits) /\
  (forall k c label items it,
     VectorSearchEngine.cluster_vectors self k = Ok c ->
     In (label, items) (clusters c) -> In it items ->
     (item_index it < length (texts self))%nat /\
     (item_index it < length (metadata self))%nat).
Proof.
  intros Hr. destruct (reachable_aligned settings self Hr) as [Ht Hm].
  unfold VectorSearchEngine.ntotal.
  split; [exact Ht|]. split; [exact Hm|]. split; [|split].
  - intros q top_k threshold hits h Hs Hin.
    destruct (search_hit _ _ _ _ _ _ Hs Hin) as (n & row & Hi & Hrow & _ & Htext & _).
    apply lookup_lt_Some in Htext. rewrite Hi. lia.
  - intros q top_k threshold Hd Hk. apply search_total; [lia|exact Hd|exact Hk].
  - intros k c label items it Hc Hg Hit. split.
    + eapply cluster_vectors_in_range; eassumption.
    + rewrite Hm, <- Ht. eapply cluster_vectors_in_range; eassumption.
Qed.

(** C9, witness: records added, the index cleared, records added again. *)
Lemma parallel_arrays_aligned_witness :
  @reachable exact_faiss plane_settings refilled /\
  length (texts refilled) = 2%nat /\
  length (metadata refilled) = 2%nat /\
  @VectorSearchEngine.ntotal refilled = 2%nat.
Proof.
  split; [exact refilled_reachable|].
  destruct (@parallel_arrays_aligned exact_faiss one_cluster plane_settings refilled
              refilled_reachable) as (Ht & Hm & _).
  rewrite Ht, Hm. repeat split; vm_compute; reflexivity.
Defined.

(** C10.  The pairs ("a:b", "c") and ("a", "b:c") are distinct and have
    the same cache key, whatever the digest; on a working cache, a vector
    written for the first pair is what a read for the second returns. *)
Theorem key_collision `{Hashlib} (settings : Settings) (w : World) (embedding : vector) :
  healthy w ->
  ("a:b", "c") <> ("a", "b:c") /\
  CacheManager._generate_key "a:b" "c" = CacheManager._generate_key "a" "b:c" /\
  fst (CacheManager.get_embedding "a" "b:c"
         (snd (CacheManager.set_embedding settings "a:b" "c" embedding w)))
  = Ok (Some embedding).
Proof.
  intros Hw. split; [discriminate|]. split; [reflexivity|].
  now apply get_after_set.
Qed.

(** C10, witness: a working cache and a digest without collisions. *)
Lemma key_collision_witness :
  healthy warm_world /\
  @CacheManager._generate_key plain_digest "a:b" "c"
  = @CacheManager._generate_key plain_digest "a" "b:c" /\
  fst (@CacheManager.get_embedding plain_digest "a" "b:c"
         (snd (@CacheManager.set_embedding plain_digest default_settings "a:b" "c"
                 [1%Q; 2%Q] warm_world)))
  = Ok (Some [1%Q; 2%Q]).
Proof.
  split; [exact warm_world_healthy|].
  destruct (@key_collision plain_digest default_settings warm_world [1%Q; 2%Q]
              warm_world_healthy) as (_ & Hkey & Hget).
  split; [exact Hkey|exact Hget].
Defined.

(** * Further properties *)

(** X1.  A cache read never raises and never changes what the store
    holds; a batch read answers one value per text. *)
Theorem cache_reads_do_not_write `{Hashlib} (w : World) (text name : string)
    (texts : list string) :
  (exists cached, fst (CacheManager.get_embedding text name w) = Ok cached) /\
  stored (snd (CacheManager.get_embedding text name w)) = stored w /\
  (exists cached, fst (CacheManager.get_batch_embeddings texts name w) = Ok cached /\
                  length cached = length texts) /\
  stored (snd (CacheManager.get_batch_embeddings texts name w)) = stored w.
Proof.
  rewrite get_embedding_run, get_batch_embeddings_run. unfold stored.
  destruct (available (cache_manager w)).
  - destruct (redis_client (cache_manager w)) as [r|] eqn:Hc; simpl; rewrite ?Hc.
    + repeat split; try (now eexists).
      eexists. split; [reflexivity|].
      destruct (next_fault r); [apply repeat_length|apply peek_all_length].
    + repeat split; try (now eexists). eexists. split; [reflexivity|apply repeat_length].
  - repeat split; try (now eexists). eexists. split; [reflexivity|apply repeat_length].
Qed.

(** X2.  On a cache that works, writing the vector of one key leaves what
    a read of any other key returns as it was. *)
Theorem set_embedding_keeps_other_keys `{Hashlib} (settings : Settings) (w : World)
    (text1 model1 text2 model2 : string) (embedding : vector) :
  healthy w ->
  CacheManager._generate_key text1 model1 <> CacheManager._generate_key text2 model2 ->
  fst (CacheManager.get_embedding text2 model2
         (snd (CacheManager.set_embedding settings text1 model1 embedding w)))
  = fst (CacheManager.get_embedding text2 model2 w).
Proof.
  intros Hw Hne.
  destruct (set_embedding_healthy settings text1 model1 embedding w Hw)
    as (r & Hc & Hf & ->). simpl.
  destruct (get_embedding_healthy text2 model2 w Hw) as (r0 & Hc0 & _ & ->).
  rewrite Hc in Hc0. injection Hc0 as <-.
  assert (Hh : healthy (with_client
                 (write (CacheManager._generate_key text1 model1) (cache_ttl settings)
                        (Pickled embedding) (touch r)) w)).
  { apply healthy_with_client; [apply Hw|]. simpl. now apply faults_touch. }
  destruct (get_embedding_healthy text2 model2 _ Hh) as (r' & Hc' & _ & ->).
  simpl in Hc'. injection Hc' as <-. simpl.
  now rewrite (peek_write_ne _ _ _ _ _ Hne), peek_touch.
Qed.

(** X2, witness. *)
Lemma set_embedding_keeps_other_keys_witness :
  healthy stocked_world /\
  fst (@CacheManager.get_embedding plain_digest "good" "m"
         (snd (@CacheManager.set_embedding plain_digest default_settings "other" "m"
                 [7%Q] stocked_world)))
  = Ok (Some [1%Q; 2%Q]).
Proof.
  assert (Hh : healthy stocked_world).
  { split; [reflexivity|]. exists stocked_redis. now split. }
  split; [exact Hh|].
  rewrite (@set_embedding_keeps_other_keys plain_digest default_settings stocked_world
             "other" "m" "good" "m" [7%Q] Hh); [|discriminate].
  vm_compute. reflexivity.
Defined.

(** X3.  On a cache that works, a batch written for texts with distinct
    keys is what a batch read of the same texts returns, in order. *)
Theorem batch_round_trip `{Hashlib} (settings : Settings) (w : World)
    (texts : list string) (name : string) (embeddings : list vector) :
  healthy w ->
  length texts = length embeddings ->
  NoDup (map (fun text => CacheManager._generate_key text name) texts) ->
  fst (CacheManager.get_batch_embeddings texts name
         (snd (CacheManager.set_batch_embeddings settings texts name embeddings w)))
  = Ok (map Some embeddings).
Proof.
  intros Hw Hlen Hnd.
  destruct (set_batch_embeddings_healthy settings texts name embeddings w Hw)
    as (r & Hc & Hf & ->). simpl.
  set (r' := write_all (queue settings texts name embeddings) (touch r)).
  assert (Hh : healthy (with_client r' w)).
  { apply healthy_with_client; [apply Hw|]. simpl. now apply faults_touch. }
  destruct (get_batch_embeddings_healthy texts name _ Hh) as (r0 & Hc0 & _ & ->).
  simpl in Hc0. injection Hc0 as <-. simpl.
  unfold peek_all.
  assert (Hvalues :
    map (fun key => snd <$> db r' !! key)
        (map (fun text => CacheManager._generate_key text name) texts)
    = map (fun e => Some (Pickled e)) embeddings).
  { apply list_eq. intros i.
    destruct (texts !! i) as [text|] eqn:Ht.
    - destruct (lookup_lt_is_Some_2 embeddings i) as [e He].
      { rewrite <- Hlen. now apply lookup_lt_Some in Ht. }
      assert (Hk : map (fun t => CacheManager._generate_key t name) texts !! i
                   = Some (CacheManager._generate_key text name))
        by exact (map_lookup (fun t => CacheManager._generate_key t name) texts i text Ht).
      rewrite (map_lookup (fun key => snd <$> db r' !! key) _ i _ Hk).
      rewrite (map_lookup (fun e => Some (Pickled e)) _ i e He). f_equal.
      unfold r', write_all. simpl.
      rewrite (write_all_at _ _ i _ (cache_ttl settings) (Pickled e)).
      + reflexivity.
      + now rewrite queue_keys.
      + now apply queue_lookup.
    - apply lookup_ge_None in Ht.
      rewrite !(proj2 (lookup_ge_None _ _)); [reflexivity| |];
        rewrite ?length_map; lia. }
  now rewrite Hvalues, loads_all_pickled.
Qed.

(** X3, witness. *)
Lemma batch_round_trip_witness :
  healthy warm_world /\
  fst (@CacheManager.get_batch_embeddings plain_digest ["a"; "b"] "m"
         (snd (@CacheManager.set_batch_embeddings plain_digest default_settings
                 ["a"; "b"] "m" [[1%Q]; [2%Q]] warm_world)))
  = Ok [Some [1%Q]; Some [2%Q]].
Proof.
  split; [exact warm_world_healthy|].
  apply (@batch_round_trip plain_digest default_settings warm_world ["a"; "b"] "m"
           [[1%Q]; [2%Q]] warm_world_healthy eq_refl).
  apply NoDup_cons. split; [|apply NoDup_cons; split; [|apply NoDup_nil_2]];
    rewrite list_elem_of_In; simpl; intuition discriminate.
Defined.

(** X4.  When no text of a batch has an entry that cannot be unpickled, a
    batch read answers at each position what a read of the text at that
    position answers, from the same state. *)
Theorem get_batch_agrees_with_get `{Hashlib} (w : World) (texts : list string)
    (name : string) (i : nat) (text : string) :
  readable w texts name ->
  texts !! i = Some text ->
  exists cached answer,
    fst (CacheManager.get_batch_embeddings texts name w) = Ok cached /\
    fst (CacheManager.get_embedding text name w) = Ok answer /\
    cached !! i = Some answer.
Proof.
  intros Hr Ht.
  destruct (get_embedding_frame text name w) as (w1 & Hget & _).
  destruct (get_batch_embeddings_frame texts name w) as (w2 & Hbatch & _).
  exists (batch_lookup texts name w), (cache_lookup text name w).
  rewrite Hget, Hbatch. simpl. split; [reflexivity|]. split; [reflexivity|].
  now apply batch_lookup_at.
Qed.

(** X4, witness: the text "good" read alone and in a batch with a text
    that has no entry. *)
Lemma get_batch_agrees_with_get_witness :
  @readable plain_digest stocked_world ["new"; "good"] "m" /\
  exists cached,
    fst (@CacheManager.get_batch_embeddings plain_digest ["new"; "good"] "m" stocked_world)
    = Ok cached /\
    cached !! 1%nat = Some (Some [1%Q; 2%Q]).
Proof.
  assert (Hr : @readable plain_digest stocked_world ["new"; "good"] "m").
  { intros r text Hc Hin. simpl in Hc. injection Hc as <-.
    destruct Hin as [<-|[<-|[]]]; vm_compute; discriminate. }
  split; [exact Hr|].
  destruct (@get_batch_agrees_with_get plain_digest stocked_world ["new"; "good"] "m"
              1 "good" Hr eq_refl) as (cached & answer & Hbatch & Hget & Hat).
  exists cached. split; [exact Hbatch|].
  assert (Hrun : fst (@CacheManager.get_embedding plain_digest "good" "m" stocked_world)
                 = Ok (Some [1%Q; 2%Q])) by (vm_compute; reflexivity).
  rewrite Hrun in Hget. injection Hget as <-. exact Hat.
Defined.

(** X5.  On a cache that works, one entry that cannot be unpickled among
    the keys of a batch turns the whole batch read into misses, also for
    the texts whose entries are good. *)
Theorem corrupt_entry_fails_batch_read `{Hashlib} (w : World) (r : Redis)
    (texts : list string) (name text : string) :
  healthy w ->
  redis_client (cache_manager w) = Some r ->
  In text texts ->
  snd <$> db r !! CacheManager._generate_key text name = Some Corrupt ->
  fst (CacheManager.get_batch_embeddings texts name w) = Ok (repeat None (length texts)).
Proof.
  intros Hw Hc Hin Hcorrupt.
  destruct (get_batch_embeddings_healthy texts name w Hw) as (r0 & Hc0 & _ & ->).
  rewrite Hc in Hc0. injection Hc0 as <-. simpl. f_equal.
  unfold peek_all.
  destruct (loads_all_corrupt
              (map (fun key => snd <$> db r !! key)
                   (map (fun t => CacheManager._generate_key t name) texts)))
    as [e ->]; [|reflexivity].
  apply in_map_iff. exists (CacheManager._generate_key text name).
  split; [exact Hcorrupt|].
  exact (in_map (fun t => CacheManager._generate_key t name) texts text Hin).
Qed.

(** X5, witness: the good entry is found alone and lost in a batch with
    the bad one. *)
Lemma corrupt_entry_fails_batch_read_witness :
  fst (@CacheManager.get_embedding plain_digest "good" "m" stocked_world)
  = Ok (Some [1%Q; 2%Q]) /\
  fst (@CacheManager.get_batch_embeddings plain_digest ["good"; "bad"] "m" stocked_world)
  = Ok [None; None].
Proof.
  split; [vm_compute; reflexivity|].
  apply (@corrupt_entry_fails_batch_read plain_digest stocked_world stocked_redis
           ["good"; "bad"] "m" "bad").
  - split; [reflexivity|]. exists stocked_redis. now split.
  - reflexivity.
  - right. now left.
  - vm_compute. reflexivity.
Defined.

(** X6. With an API key, [_get_openai_embedding] calls the API until an
    attempt succeeds, three times at most: the attempts before the one that
    counts all raised; when that one succeeds its vector is returned, and
    when the third raises too, [RetryError] wrapping its exception is
    raised.  Nothing but the count of API calls changes. *)
Theorem openai_embedding_is_retried `{Providers} (settings : Settings)
    (text name : string) (w : World) :
  openai_client (embedding_service w) = true ->
  exists failed, (failed < 3)%nat /\
    (forall j, (j < failed)%nat ->
       exists e, attempt_answer settings text name (j + openai_calls w) = Raise e) /\
    match attempt_answer settings text name (failed + openai_calls w) with
    | Ok v =>
        EmbeddingService._get_openai_embedding settings text (Some name) w
        = (Ok v, bump_openai (S failed) w)
    | Raise e =>
        failed = 2%nat /\
        EmbeddingService._get_openai_embedding settings text (Some name) w
        = (Raise (RetryError e), bump_openai 3 w)
    end.
Proof.
  intros Hc. rewrite (get_openai_embedding_run settings text name w Hc).
  destruct (attempt_answer settings text name (openai_calls w)) as [v0|e0] eqn:H0.
  { exists 0%nat. split; [lia|]. split; [intros j Hj; lia|]. simpl. now rewrite H0. }
  destruct (attempt_answer settings text name (S (openai_calls w))) as [v1|e1] eqn:H1.
  { exists 1%nat. split; [lia|]. split.
    - intros j Hj. assert (j = 0)%nat as -> by lia. now exists e0.
    - simpl. now rewrite H1. }
  exists 2%nat. split; [lia|]. split.
  - intros j Hj. destruct j as [|[|j]]; [now exists e0|now exists e1|lia].
  - simpl. destruct (attempt_answer settings text name (S (S (openai_calls w))));
      [reflexivity|now split].
Qed.

Lemma openai_embedding_is_retried_witness :
  openai_client (embedding_service warm_world) = true /\
  exists failed, (failed < 3)%nat /\
    (forall j, (j < failed)%nat ->
       exists e, @attempt_answer recovering_remote default_settings "hello"
                   "text-embedding-3-small" (j + openai_calls warm_world) = Raise e) /\
    match @attempt_answer recovering_remote default_settings "hello"
            "text-embedding-3-small" (failed + openai_calls warm_world) with
    | Ok v =>
        @EmbeddingService._get_openai_embedding recovering_remote default_settings
          "hello" (Some "text-embedding-3-small") warm_world
        = (Ok v, bump_openai (S failed) warm_world)
    | Raise e =>
        failed = 2%nat /\
        @EmbeddingService._get_openai_embedding recovering_remote default_settings
          "hello" (Some "text-embedding-3-small") warm_world
        = (Raise (RetryError e), bump_openai 3 warm_world)
    end.
Proof.
  split; [reflexivity|].
  apply (@openai_embedding_is_retried recovering_remote default_settings
           "hello" "text-embedding-3-small" warm_world).
  reflexivity.
Defined.

(** X7. When the model resolves to a local one (a name given that does not
    start with text-embedding, or none given and no API key), neither
    [get_embedding] nor [get_batch_embeddings] calls the API, whatever the
    cache and the local model do. *)
Theorem local_route_never_calls_api `{Hashlib} `{Providers} (settings : Settings)
    (w : World) (text : string) (texts : list string) (model : option string)
    (use_cache : bool) :
  fst (resolved settings (openai_client (embedding_service w)) model) = local ->
  openai_calls (snd (EmbeddingService.get_embedding settings text model use_cache w))
  = openai_calls w /\
  openai_calls (snd (EmbeddingService.get_batch_embeddings settings texts model use_cache w))
  = openai_calls w.
Proof.
  intros Hroute. split.
  - now apply get_embedding_local_no_api.
  - now apply get_batch_embeddings_local_no_api.
Qed.

Lemma local_route_never_calls_api_witness :
  fst (resolved default_settings (openai_client (embedding_service cold_world))
         (Some "my-model")) = local /\
  openai_calls (snd (@EmbeddingService.get_embedding plain_digest remote_down
                       default_settings "hello" (Some "my-model") true cold_world))
  = openai_calls cold_world /\
  openai_calls (snd (@EmbeddingService.get_batch_embeddings plain_digest remote_down
                       default_settings ["hello"; "world"] (Some "my-model") true
                       cold_world))
  = openai_calls cold_world.
Proof.
  split; [reflexivity|].
  apply (@local_route_never_calls_api plain_digest remote_down default_settings
           cold_world "hello" ["hello"; "world"] (Some "my-model") true).
  reflexivity.
Defined.

(** X8. A local model that is loaded stays loaded and is never loaded
    again: after [get_embedding] and after [get_batch_embeddings], with any
    arguments and whether they return or raise, the service holds the same
    model and the loader was not called. *)
Theorem loaded_model_is_kept `{Hashlib} `{Providers} (settings : Settings)
    (w : World) (m : LocalModel) (text : string) (texts : list string)
    (model : option string) (use_cache : bool) :
  local_model (embedding_service w) = Some m ->
  (local_model (embedding_service
      (snd (EmbeddingService.get_embedding settings text model use_cache w))) = Some m /\
   local_loads (snd (EmbeddingService.get_embedding settings text model use_cache w))
   = local_loads w) /\
  (local_model (embedding_service
      (snd (EmbeddingService.get_batch_embeddings settings texts model use_cache w)))
   = Some m /\
   local_loads (snd (EmbeddingService.get_batch_embeddings settings texts model use_cache w))
   = local_loads w).
Proof.
  intros Hm. split.
  - exact (model_kept_get_embedding settings text model use_cache w m Hm).
  - exact (model_kept_get_batch_embeddings settings texts model use_cache w m Hm).
Qed.

Lemma loaded_model_is_kept_witness :
  local_model (embedding_service warm_world) = Some local_name /\
  (local_model (embedding_service
      (snd (@EmbeddingService.get_embedding plain_digest both_down default_settings
              "hello" None true warm_world))) = Some local_name /\
   local_loads (snd (@EmbeddingService.get_embedding plain_digest both_down
                       default_settings "hello" None true warm_world))
   = local_loads warm_world) /\
  (local_model (embedding_service
      (snd (@EmbeddingService.get_batch_embeddings plain_digest both_down default_settings
              ["hello"] None true warm_world))) = Some local_name /\
   local_loads (snd (@EmbeddingService.get_batch_embeddings plain_digest both_down
                       default_settings ["hello"] None true warm_world))
   = local_loads warm_world).
Proof.
  split; [reflexivity|].
  apply (@loaded_model_is_kept plain_digest both_down default_settings warm_world
           local_name "hello" ["hello"] None true).
  reflexivity.
Defined.

(** X9. On a cache that works, a vector [get_embedding] returned is served
    from the cache when it is asked for again under the model name it was
    returned with: the second call returns the same vector and name and
    calls no provider.  The vector and the name must not be empty: an empty
    one counts as a miss. *)
Theorem returned_embedding_is_cached `{Hashlib} `{Providers} (settings : Settings)
    (w w' : World) (text : string) (model : option string) (v : vector)
    (effective : string) :
  healthy w ->
  truthy_str effective = true ->
  v <> [] ->
  EmbeddingService.get_embedding settings text model true w = (Ok (v, effective), w') ->
  exists w'',
    EmbeddingService.get_embedding settings text (Some effective) true w'
    = (Ok (v, effective), w'') /\
    agree w'' w'.
Proof.
  intros Hw Heff Hv Hrun.
  assert (Hpost : healthy w' /\ cache_lookup text effective w' = Some v).
  { unfold EmbeddingService.get_embedding in Hrun.
    apply bind_ok in Hrun as ([ty name] & w0 & Hres & Hrest).
    rewrite resolve_model_run in Hres. injection Hres as Hres <-.
    apply bind_ok in Hrest as (cached & w1 & Hget & Hrest). simpl in Hget.
    destruct (get_embedding_frame text name w) as (w1' & Hget' & Hag & Hh).
    rewrite Hget' in Hget. injection Hget as <- <-.
    destruct (Hh Hw) as (r & Hc & Hf & Hw1 & Hlook).
    assert (Hw1h : healthy w1').
    { subst w1'. apply healthy_with_client; [apply Hw|now apply faults_touch]. }
    simpl in Hrest. destruct (truthy_opt_list (cache_lookup text name w)) eqn:Ht.
    - unfold ret in Hrest. injection Hrest as Hd <- <-. split; [exact Hw1h|].
      destruct (get_embedding_frame text name w1') as (w2 & _ & _ & Hh2).
      destruct (Hh2 Hw1h) as (r2 & Hc2 & _ & _ & ->). subst w1'. simpl in Hc2.
      injection Hc2 as <-. rewrite peek_touch, <- Hlook.
      destruct (cache_lookup text name w) as [c|]; simpl in *; [now subst|discriminate].
    - apply compute_embedding_writes in Hrest as (w2 & Hcm & Hset).
      assert (Hw2 : healthy w2) by (eapply healthy_cache_manager; eauto).
      pose proof (get_after_set settings text effective text effective v w2 Hw2 eq_refl)
        as Hga.
      destruct (set_embedding_healthy settings text effective v w2 Hw2)
        as (r2 & Hc2 & Hf2 & Hset').
      rewrite Hset in Hga, Hset'. injection Hset' as Hw'. simpl in Hga. split.
      + rewrite Hw'. apply healthy_with_client; [apply Hw2|]. simpl. now apply faults_touch.
      + unfold cache_lookup. now rewrite Hga. }
  destruct Hpost as [Hh' Hl].
  unfold EmbeddingService.get_embedding, bind at 1. rewrite resolve_model_run.
  destruct (resolved settings _ (Some effective)) as [ty name] eqn:Hres.
  assert (name = effective) as ->.
  { unfold resolved in Hres. simpl in Hres. rewrite Heff in Hres. simpl in Hres.
    destruct (String.prefix _ _); now injection Hres as _ <-. }
  unfold bind. destruct (get_embedding_frame text effective w') as (w'' & -> & Hag & _).
  rewrite Hl. destruct v as [|x v]; [congruence|]. simpl.
  exists w''. now split.
Qed.

Lemma returned_embedding_is_cached_witness :
  healthy warm_world /\
  truthy_str "text-embedding-3-small" = true /\
  [1%Q; 0%Q] <> [] /\
  exists w' w'',
    @EmbeddingService.get_embedding plain_digest picky_remote default_settings
      "hello" None true warm_world = (Ok ([1%Q; 0%Q], "text-embedding-3-small"), w') /\
    @EmbeddingService.get_embedding plain_digest picky_remote default_settings
      "hello" (Some "text-embedding-3-small") true w'
    = (Ok ([1%Q; 0%Q], "text-embedding-3-small"), w'') /\
    agree w'' w'.
Proof.
  split; [exact warm_world_healthy|]. split; [reflexivity|]. split; [discriminate|].
  eexists.
  assert (Hrun : @EmbeddingService.get_embedding plain_digest picky_remote default_settings
                   "hello" None true warm_world
                 = (Ok ([1%Q; 0%Q], "text-embedding-3-small"),
                    snd (@EmbeddingService.get_embedding plain_digest picky_remote
                           default_settings "hello" None true warm_world)))
    by (vm_compute; reflexivity).
  destruct (@returned_embedding_is_cached plain_digest picky_remote default_settings
              warm_world _ "hello" None [1%Q; 0%Q] "text-embedding-3-small"
              warm_world_healthy eq_refl ltac:(discriminate) Hrun) as (w'' & Hagain & Hag).
  exists w''. split; [exact Hrun|]. now split.
Defined.

(** X10. A batch that returns gives one entry per text, in the order of
    the texts; a text whose cached vector was found (and is not empty)
    keeps that vector at its position; and when the providers answer n
    texts with n vectors, no position is left without a vector. *)
Theorem batch_result_shape `{Hashlib} `{Providers} (settings : Settings) (w w' : World)
    (texts : list string) (model : option string) (use_cache : bool)
    (out : list (option vector)) (effective : string) :
  EmbeddingService.get_batch_embeddings settings texts model use_cache w
  = (Ok (out, effective), w') ->
  length out = length texts /\
  (forall i c,
     batch_lookups use_cache texts
       (snd (resolved settings (openai_client (embedding_service w)) model)) w !! i
     = Some (Some c) ->
     c <> [] -> out !! i = Some (Some c)) /\
  (one_row_per_text ->
   forall i, (i < length texts)%nat -> exists v, out !! i = Some (Some v)).
Proof.
  intros Hrun. unfold EmbeddingService.get_batch_embeddings in Hrun.
  destruct (_ <? _)%Z; [discriminate|].
  apply bind_ok in Hrun as ([ty name] & w0 & Hres & Hrest).
  rewrite resolve_model_run in Hres. injection Hres as Hres <-. rewrite Hres. simpl.
  apply bind_ok in Hrest as ([[embs idxs] misses] & w1 & Hcheck & Hrest).
  destruct (check_cache_run texts name use_cache w) as (w1' & Hcheck' & _).
  rewrite Hcheck' in Hcheck. injection Hcheck as Hsplit <-.
  pose proof (batch_lookups_length use_cache texts name w) as Hlen.
  destruct (split_cached_spec 0 texts _ embs idxs misses Hlen Hsplit)
    as (Hl1 & Hl2 & Hnd & _ & Hpos).
  assert (Hout : exists news,
             out = EmbeddingService.store_new embs idxs news /\
             (misses <> [] -> one_row_per_text -> length news = length misses)).
  { destruct (truthy_list misses) eqn:Hm.
    - apply process_uncached_answer in Hrest as (news & -> & Hfrom).
      exists news. split; [reflexivity|]. intros _ [Hremote Hlocal].
      destruct Hfrom as [[n Hc]|(n & m & He)]; eauto.
    - unfold ret in Hrest. injection Hrest as <- _ _. exists []. split.
      + unfold EmbeddingService.store_new. now destruct idxs.
      + intros Hne. destruct misses; [congruence|discriminate]. }
  destruct Hout as (news & -> & Hnews).
  split; [now rewrite store_new_length|]. split.
  - intros i c Hi Hc.
    destruct (lookup_lt_is_Some_2 texts i) as [t Ht].
    { rewrite <- Hlen. eapply lookup_lt_Some; eauto. }
    specialize (Hpos i t (Some c) Ht Hi). destruct c as [|x c]; [congruence|].
    simpl in Hpos. destruct Hpos as [He Hn]. now rewrite store_new_other.
  - intros Hrows i Hi.
    destruct (lookup_lt_is_Some_2 texts i Hi) as [t Ht].
    destruct (lookup_lt_is_Some_2 (batch_lookups use_cache texts name w) i) as [c Hc];
      [lia|].
    specialize (Hpos i t c Ht Hc). destruct (truthy_opt_list c) eqn:Htc.
    + destruct Hpos as [He Hn]. destruct c as [v|]; [|discriminate]. exists v.
      now rewrite store_new_other.
    + destruct Hpos as [He (j & Hj1 & Hj2)]. simpl in Hj1.
      assert (Hne : misses <> []) by (intros ->; discriminate).
      destruct (lookup_lt_is_Some_2 news j) as [v Hv].
      { rewrite (Hnews Hne Hrows). eapply lookup_lt_Some; eauto. }
      exists v. eapply store_new_at; eauto. now rewrite Hl1.
Qed.

Lemma batch_result_shape_witness :
  exists w',
    @EmbeddingService.get_batch_embeddings plain_digest picky_remote default_settings
      ["good"; "new"] (Some "m") true stocked_world
    = (Ok ([Some [1%Q; 2%Q]; Some [0%Q; 1%Q]], "m"), w') /\
    forall i c,
      @batch_lookups plain_digest true ["good"; "new"] "m" stocked_world !! i
      = Some (Some c) ->
      c <> [] -> [Some [1%Q; 2%Q]; Some [0%Q; 1%Q]] !! i = Some (Some c).
Proof.
  eexists. 
  assert (Hrun : @EmbeddingService.get_batch_embeddings plain_digest picky_remote
                   default_settings ["good"; "new"] (Some "m") true stocked_world
                 = (Ok ([Some [1%Q; 2%Q]; Some [0%Q; 1%Q]], "m"),
                    snd (@EmbeddingService.get_batch_embeddings plain_digest picky_remote
                           default_settings ["good"; "new"] (Some "m") true
                           stocked_world)))
    by (vm_compute; reflexivity).
  split; [exact Hrun|].
  exact (proj1 (proj2 (@batch_result_shape plain_digest picky_remote default_settings
                         stocked_world _ ["good"; "new"] (Some "m") true _ _ Hrun))).
Defined.

(** X11. On the remote route with an API key, when the API answers the
    request for the misses, the batch makes exactly one API call, with all
    the misses in it, stores its vectors at the positions of the misses
    and returns under the resolved name; the local model is not touched. *)
Theorem batch_misses_go_in_one_request `{Hashlib} `{Providers} (settings : Settings)
    (w : World) (texts : list string) (model : option string) (use_cache : bool)
    (name : string) (embeddings : list (option vector)) (uncached_indices : list nat)
    (uncached_texts : list string) (new_embeddings : list vector) :
  (max_batch_size settings <? Z.of_nat (length texts))%Z = false ->
  resolved settings (openai_client (embedding_service w)) model = (openai, name) ->
  openai_client (embedding_service w) = true ->
  EmbeddingService.split_cached 0 (combine texts (batch_lookups use_cache texts name w))
  = (embeddings, uncached_indices, uncached_texts) ->
  uncached_texts <> [] ->
  openai_embeddings_create (openai_calls w) (Many uncached_texts) name = Ok new_embeddings ->
  exists w',
    EmbeddingService.get_batch_embeddings settings texts model use_cache w
    = (Ok (EmbeddingService.store_new embeddings uncached_indices new_embeddings, name), w')
    /\ agree w' (bump_openai 1 w).
Proof.
  intros Hsize Hres Hc Hsplit Hne Hcall.
  unfold EmbeddingService.get_batch_embeddings. rewrite Hsize.
  unfold bind at 1. rewrite resolve_model_run, Hres.
  unfold bind at 1.
  destruct (check_cache_run texts name use_cache w) as (w1 & -> & Hag).
  rewrite Hsplit. destruct uncached_texts as [|t rest]; [congruence|]. simpl.
  destruct Hag as (Hs & Hcalls & Hloads & Hencs).
  destruct (process_uncached_remote_run settings embeddings uncached_indices (t :: rest)
              name use_cache w1 new_embeddings) as (w' & Hrun & Hag').
  { now rewrite Hs. }
  { now rewrite Hcalls. }
  exists w'. split; [exact Hrun|].
  eapply agree_trans; [exact Hag'|].
  unfold agree, bump_openai. simpl. repeat split; congruence.
Qed.

Lemma batch_misses_go_in_one_request_witness :
  exists w',
    @EmbeddingService.get_batch_embeddings plain_digest picky_remote default_settings
      ["good"; "new"; "newer"] (Some "text-embedding-3-small") true warm_world
    = (Ok (EmbeddingService.store_new [None; None; None] [0; 1; 2]%nat
             [[1%Q; 0%Q]; [1%Q; 0%Q]; [1%Q; 0%Q]], "text-embedding-3-small"), w')
    /\ agree w' (bump_openai 1 warm_world).
Proof.
  apply (@batch_misses_go_in_one_request plain_digest picky_remote default_settings
           warm_world ["good"; "new"; "newer"] (Some "text-embedding-3-small") true
           "text-embedding-3-small" [None; None; None] [0; 1; 2]%nat
           ["good"; "new"; "newer"]).
  - reflexivity.
  - reflexivity.
  - reflexivity.
  - vm_compute. reflexivity.
  - discriminate.
  - reflexivity.
Defined.

(** X12. When the cache has a usable vector for every text of a batch, the
    batch returns these vectors under the resolved name and calls no
    provider: nothing but the cache changes.  An empty batch is such a
    batch. *)
Theorem fully_cached_batch_calls_no_provider `{Hashlib} `{Providers}
    (settings : Settings) (w : World) (texts : list string) (model : option string)
    (ty : model_type) (name : string) :
  (max_batch_size settings <? Z.of_nat (length texts))%Z = false ->
  resolved settings (openai_client (embedding_service w)) model = (ty, name) ->
  Forall (fun c => truthy_opt_list c = true) (batch_lookup texts name w) ->
  exists w',
    EmbeddingService.get_batch_embeddings settings texts model true w
    = (Ok (batch_lookup texts name w, name), w') /\
    agree w' w.
Proof.
  intros Hsize Hres Hall.
  unfold EmbeddingService.get_batch_embeddings. rewrite Hsize.
  unfold bind at 1. rewrite resolve_model_run, Hres.
  unfold bind at 1.
  destruct (check_cache_run texts name true w) as (w1 & -> & Hag).
  pose proof (batch_lookups_length true texts name w) as Hlen.
  simpl in *. rewrite (split_cached_all_hits 0 texts _ Hlen Hall). simpl.
  exists w1. now split.
Qed.

Lemma fully_cached_batch_calls_no_provider_witness :
  exists w',
    @EmbeddingService.get_batch_embeddings plain_digest both_down default_settings
      ["good"; "good"] (Some "m") true stocked_world
    = (Ok (@batch_lookup plain_digest ["good"; "good"] "m" stocked_world, "m"), w') /\
    agree w' stocked_world.
Proof.
  apply (@fully_cached_batch_calls_no_provider plain_digest both_down default_settings
           stocked_world ["good"; "good"] (Some "m") local "m").
  - reflexivity.
  - reflexivity.
  - vm_compute. repeat constructor.
Defined.

(** X13. On the local route the requested model name only labels the
    result: without the cache, two requests for the same text under two
    local names give the same vector, each under its own name, or raise
    the same error.  The vector is the one of the configured local
    model. *)
Theorem local_model_name_only_labels `{Hashlib} `{Providers} (settings : Settings)
    (w : World) (text name1 name2 : string) :
  truthy_str name1 = true -> String.prefix "text-embedding" name1 = false ->
  truthy_str name2 = true -> String.prefix "text-embedding" name2 = false ->
  match fst (EmbeddingService.get_embedding settings text (Some name1) false w),
        fst (EmbeddingService.get_embedding settings text (Some name2) false w) with
  | Ok (v1, label1), Ok (v2, label2) => v1 = v2 /\ label1 = name1 /\ label2 = name2
  | Raise e1, Raise e2 => e1 = e2
  | _, _ => False
  end.
Proof.
  intros Ht1 Hp1 Ht2 Hp2. rewrite !get_embedding_outcome.
  unfold resolved. simpl. rewrite Ht1, Hp1, Ht2, Hp2. simpl.
  rewrite !compute_embedding_local.
  destruct (load_outcome settings w) as [m|]; [|reflexivity].
  destruct (first_row _ _); [now repeat split|reflexivity].
Qed.

Lemma local_model_name_only_labels_witness :
  match fst (@EmbeddingService.get_embedding plain_digest remote_down default_settings
               "hello" (Some "all-MiniLM-L6-v2") false cold_world),
        fst (@EmbeddingService.get_embedding plain_digest remote_down default_settings
               "hello" (Some "all-mpnet-base-v2") false cold_world) with
  | Ok (v1, label1), Ok (v2, label2) =>
      v1 = v2 /\ label1 = "all-MiniLM-L6-v2" /\ label2 = "all-mpnet-base-v2"
  | Raise e1, Raise e2 => e1 = e2
  | _, _ => False
  end.
Proof.
  apply (@local_model_name_only_labels plain_digest remote_down default_settings
           cold_world "hello" "all-MiniLM-L6-v2" "all-mpnet-base-v2"); reflexivity.
Defined.

(** X14. The models [get_available_models] lists are all marked available
    and are routed as they are listed: a request that names a listed
    model resolves to the listed type under the listed name.  The remote
    models are listed only with an API key, the two local ones always;
    the call changes nothing. *)
Theorem listed_models_route_as_listed (settings : Settings) (w w' : World)
    (models : list EmbeddingService.ModelEntry) :
  EmbeddingService.get_available_models w = (Ok models, w') ->
  w' = w /\
  (exists remote, models = remote ++
      [ {| EmbeddingService.entry_name := "all-MiniLM-L6-v2"; EmbeddingService.entry_type := "local";
           EmbeddingService.entry_dimension := 384; EmbeddingService.entry_available := true |};
        {| EmbeddingService.entry_name := "all-mpnet-base-v2"; EmbeddingService.entry_type := "local";
           EmbeddingService.entry_dimension := 768; EmbeddingService.entry_available := true |} ] /\
      (openai_client (embedding_service w) = false -> remote = [])) /\
  forall entry, In entry models ->
    EmbeddingService.entry_available entry = true /\
    resolved settings (openai_client (embedding_service w)) (Some (EmbeddingService.entry_name entry))
    = (if String.eqb (EmbeddingService.entry_type entry) "openai" then openai else local, EmbeddingService.entry_name entry).
Proof.
  unfold EmbeddingService.get_available_models, bind, EmbeddingService.self, ret.
  intros Hrun. injection Hrun as <- <-. split; [reflexivity|]. split.
  - eexists. split; [reflexivity|]. now intros ->.
  - intros entry Hin. destruct (openai_client (embedding_service w)); simpl in Hin;
      repeat (destruct Hin as [<-|Hin]; [now split|]); destruct Hin.
Qed.

Lemma listed_models_route_as_listed_witness :
  exists models,
    EmbeddingService.get_available_models cold_world = (Ok models, cold_world) /\
    forall entry, In entry models ->
      EmbeddingService.entry_available entry = true /\
      resolved default_settings (openai_client (embedding_service cold_world))
        (Some (EmbeddingService.entry_name entry))
      = (if String.eqb (EmbeddingService.entry_type entry) "openai" then openai else local,
         EmbeddingService.entry_name entry).
Proof.
  eexists. split; [reflexivity|].
  exact (proj2 (proj2 (listed_models_route_as_listed default_settings cold_world
                         cold_world _ eq_refl))).
Defined.

(** X15. The threshold of [search] is applied to the [top_k] best rows,
    after the cut: when the search without a threshold returns, the search
    with a threshold returns those of its results whose score meets the
    threshold, in the same order, and looks no further down the
    ranking. *)
Theorem threshold_filters_the_top_k `{Faiss} (self : VectorSearchEngineState)
    (query_embedding : vector) (top_k : Z) (t : Q) (hits : list SearchHit) :
  VectorSearchEngine.search self query_embedding top_k None = Ok hits ->
  VectorSearchEngine.search self query_embedding top_k (Some t)
  = Ok (List.filter (fun h => Qle_bool t (hit_score h)) hits).
Proof.
  unfold VectorSearchEngine.search.
  destruct (VectorSearchEngine.ntotal self =? 0)%nat.
  - intros Hh. now injection Hh as <-.
  - destruct (negb _); [discriminate|]. destruct (negb _); [discriminate|].
    apply format_results_threshold.
Qed.

Lemma threshold_filters_the_top_k_witness :
  exists hits,
    @VectorSearchEngine.search exact_faiss three_records [1; 0]%Q 2 None = Ok hits /\
    @VectorSearchEngine.search exact_faiss three_records [1; 0]%Q 2 (Some (9 # 10))
    = Ok (List.filter (fun h => Qle_bool (9 # 10) (hit_score h)) hits).
Proof.
  eexists. split; [vm_compute; reflexivity|].
  apply (@threshold_filters_the_top_k exact_faiss three_records [1; 0]%Q 2 (9 # 10)).
  vm_compute. reflexivity.
Defined.

(** X16. [batch_search] answers each query as [search] answers it alone
    without a threshold, in the order of the queries, and raises what the
    first of these searches that raises does: on an empty index for any
    list of queries, and otherwise for a list, not empty, of queries that
    all have the same number of components.  On an index that is not
    empty, queries of different lengths are refused by numpy with a
    [ValueError], before any search. *)
Theorem batch_search_is_search_per_query `{Faiss} (self : VectorSearchEngineState)
    (query_embeddings : list vector) (top_k : Z) :
  (VectorSearchEngine.ntotal self = 0%nat \/
   (query_embeddings <> [] /\
    forall q q', In q query_embeddings -> In q' query_embeddings ->
                 length q = length q') ->
   VectorSearchEngine.batch_search self query_embeddings top_k
   = all_ok (map (fun q => VectorSearchEngine.search self q top_k None)
                 query_embeddings)) /\
  (VectorSearchEngine.ntotal self <> 0%nat ->
   ~ (forall q q', In q query_embeddings -> In q' query_embeddings ->
                   length q = length q') ->
   exists e,
     VectorSearchEngine.batch_search self query_embeddings top_k = Raise e /\
     exn_class e = "ValueError").
Proof.
  unfold VectorSearchEngine.batch_search. split.
  - intros Hcase.
    destruct (Nat.eqb_spec (VectorSearchEngine.ntotal self) 0) as [Hn|Hn].
    { clear Hcase. induction query_embeddings as [|q qs IH]; simpl; [reflexivity|].
      now rewrite (search_empty self q top_k None Hn), <- IH. }
    destruct Hcase as [Hz|[Hne Hsame]]; [contradiction|].
    destruct query_embeddings as [|q0 qs] eqn:Hqs; [congruence|]. rewrite <- Hqs in *.
    assert (Hq0 : In q0 query_embeddings) by (rewrite Hqs; now left).
    assert (Hall : Forall (has_dimension (Z.of_nat (length q0))) query_embeddings).
    { apply List.Forall_forall. intros q Hq. unfold has_dimension.
      now rewrite (Hsame q q0 Hq Hq0). }
    destruct (np_matrix_ok query_embeddings _ Hne Hall) as (d & -> & Hd).
    rewrite Hd.
    destruct (Z.eqb_spec (Z.of_nat (length q0)) (index_d self)) as [Hdim|Hdim];
      cbn [negb].
    + destruct (Z.ltb_spec 0 (Z.min top_k (Z.of_nat (VectorSearchEngine.ntotal self))))
        as [Hk|Hk]; cbn [negb].
      * apply format_batch_searches; [exact Hn|lia|now rewrite <- Hdim].
      * rewrite Hqs. simpl.
        rewrite (search_asserts self q0 top_k None Hn) by (right; lia). reflexivity.
    + rewrite Hqs. simpl.
      rewrite (search_asserts self q0 top_k None Hn) by (now left). reflexivity.
  - intros Hn Hragged.
    destruct (Nat.eqb_spec (VectorSearchEngine.ntotal self) 0) as [|_]; [contradiction|].
    destruct query_embeddings as [|q0 qs].
    { destruct Hragged. intros q q' []. }
    unfold np_matrix.
    destruct (forallb (fun r => (length r =? length q0)%nat) qs) eqn:Hall.
    + destruct Hragged. rewrite forallb_forall in Hall.
      assert (Hlen : forall q, In q (q0 :: qs) -> length q = length q0).
      { intros q [<-|Hq]; [reflexivity|]. now apply Nat.eqb_eq, Hall. }
      intros q q' Hq Hq'. now rewrite (Hlen q Hq), (Hlen q' Hq').
    + eexists. split; reflexivity.
Qed.

Lemma batch_search_is_search_per_query_witness :
  @VectorSearchEngine.batch_search exact_faiss three_records [[1; 0]; [0; 1]]%Q 2
  = all_ok (map (fun q => @VectorSearchEngine.search exact_faiss three_records q 2 None)
                [[1; 0]; [0; 1]]%Q).
Proof.
  apply (@batch_search_is_search_per_query exact_faiss three_records
           [[1; 0]; [0; 1]]%Q 2).
  right. split; [discriminate|].
  intros q q' [<-|[<-|[]]] [<-|[<-|[]]]; reflexivity.
Defined.

(** Queries of different lengths make no matrix: the batch raises the
    error of numpy where the first search raises the assertion error of
    the index. *)
Example ragged_batch_fails_in_numpy :
  @VectorSearchEngine.batch_search exact_faiss three_records [[1; 0; 0]; [0; 1]]%Q 2
  = Raise (ValueError "setting an array element with a sequence.") /\
  all_ok (map (fun q => @VectorSearchEngine.search exact_faiss three_records q 2 None)
              [[1; 0; 0]; [0; 1]]%Q)
  = Raise AssertionError.
Proof. split; vm_compute; reflexivity. Qed.

(** X17. On an engine that was only given vectors within float32, a
    search without a threshold for at least as many results as the index
    holds, with a query within float32 of the dimension of the index,
    returns every record exactly once: its results are the rows of the
    index with their scores, reordered. *)
Theorem exhaustive_search_returns_every_record `{Faiss} (settings : Settings)
    (self : VectorSearchEngineState) (query_embedding : vector) (top_k : Z) :
  reachable_within_float32 settings self ->
  within_float32 query_embedding ->
  has_dimension (index_d self) query_embedding ->
  (Z.of_nat (VectorSearchEngine.ntotal self) <= top_k)%Z ->
  exists hits,
    VectorSearchEngine.search self query_embedding top_k None = Ok hits /\
    Permutation (map hit_entry hits)
                (score_rows (normalize_L2 query_embedding) (index self)).
Proof.
  intros Hr _ Hd Hk.
  apply reachable_within_float32_reachable, reachable_aligned in Hr as [Ht _].
  destruct (Nat.eq_dec (VectorSearchEngine.ntotal self) 0) as [Hn|Hn].
  { exists []. split; [now apply search_empty|].
    unfold VectorSearchEngine.ntotal in Hn.
    destruct (index self); [reflexivity|discriminate]. }
  destruct (search_total self query_embedding top_k None) as [hits Hs]; [lia|exact Hd|lia|].
  exists hits. split; [exact Hs|].
  apply search_entries in Hs as [-> _].
  unfold VectorSearchEngine.ntotal in *.
  rewrite firstn_all2 by (rewrite sort_desc_length, score_rows_length; lia).
  rewrite filter_all.
  - symmetry. apply sort_desc_perm.
  - intros [score idx] Hin.
    eapply Permutation_in in Hin; [|symmetry; apply sort_desc_perm].
    apply score_rows_spec in Hin as (n & row & -> & _).
    unfold passes. simpl. destruct (Z.eqb_spec (Z.of_nat n) (-1)); [lia|reflexivity].
Qed.

Lemma exhaustive_search_returns_every_record_witness :
  @reachable_within_float32 exact_faiss plane_settings three_records /\
  within_float32 [1; 0]%Q /\
  exists hits,
    @VectorSearchEngine.search exact_faiss three_records [1; 0]%Q 5 None = Ok hits /\
    Permutation (map hit_entry hits)
                (@score_rows exact_faiss (@normalize_L2 exact_faiss [1; 0]%Q)
                   (index three_records)).
Proof.
  assert (Hr : @reachable_within_float32 exact_faiss plane_settings three_records).
  { apply (@within_add exact_faiss plane_settings
             (VectorSearchEngine.__init__ plane_settings)
             [[4; 3]; [1; 0]; [0; 2]]%Q
             ["cats are mammals"; "dogs are mammals"; "stocks rose today"] None).
    - constructor.
    - exact I.
    - repeat constructor; discriminate. }
  assert (Hq : within_float32 [1; 0]%Q) by (repeat constructor; discriminate).
  split; [exact Hr|]. split; [exact Hq|].
  apply (@exhaustive_search_returns_every_record exact_faiss plane_settings three_records
           [1; 0]%Q 5 Hr Hq).
  - reflexivity.
  - vm_compute. discriminate.
Defined.

(** X18. On aligned arrays, when k-means answers with one label per row,
    [cluster_vectors] returns, with the centers of k-means, and its
    clusters partition the records: every record is an item of the
    cluster of its label and of no other, no cluster id comes twice, no
    cluster is empty, each item shows the text and the metadata of its
    record, and [n_clusters] is the number of clusters. *)
Theorem clusters_partition_the_records `{Faiss} `{Sklearn} (self : VectorSearchEngineState)
    (k : nat) (labels : list nat) (centers : list vector) :
  aligned self ->
  VectorSearchEngine.ntotal self <> 0%nat ->
  KMeans_fit_predict (Nat.min k (VectorSearchEngine.ntotal self)) (index self)
  = Ok (labels, centers) ->
  length labels = VectorSearchEngine.ntotal self ->
  exists c,
    VectorSearchEngine.cluster_vectors self k = Ok c /\
    centroids c = centers /\
    n_clusters c = Some (length (clusters c)) /\
    Permutation (cluster_entries (clusters c)) (enumerate_from 0 labels) /\
    List.NoDup (map fst (clusters c)) /\
    Forall (fun g => snd g <> [] /\ Forall (item_of self) (snd g)) (clusters c).
Proof.
  intros [Ht _] Hn Hk Hlabels.
  destruct (cluster_vectors_total self k labels centers Hlabels ltac:(lia) Hk) as [c Hc].
  exists c. split; [exact Hc|].
  unfold VectorSearchEngine.cluster_vectors in Hc.
  destruct (Nat.eqb_spec (VectorSearchEngine.ntotal self) 0) as [|_]; [contradiction|].
  rewrite Hk in Hc.
  destruct (VectorSearchEngine.group_by_label self [] (enumerate_from 0 labels))
    as [groups|] eqn:Hg; [|discriminate].
  injection Hc as <-. simpl.
  split; [reflexivity|]. split; [reflexivity|].
  apply group_by_label_partition in Hg; [exact Hg|constructor|constructor].
Qed.

Lemma clusters_partition_the_records_witness :
  exists c,
    @VectorSearchEngine.cluster_vectors one_cluster three_records 2 = Ok c /\
    centroids c = [[]] /\
    n_clusters c = Some (length (clusters c)) /\
    Permutation (cluster_entries (clusters c)) (enumerate_from 0 [0; 0; 0]%nat) /\
    List.NoDup (map fst (clusters c)) /\
    Forall (fun g => snd g <> [] /\ Forall (item_of three_records) (snd g)) (clusters c).
Proof.
  apply (@clusters_partition_the_records exact_faiss one_cluster three_records 2
           [0; 0; 0]%nat [[]]).
  - split; reflexivity.
  - discriminate.
  - reflexivity.
  - reflexivity.
Defined.

(** X19. Every pair [get_similar_pairs] reports is a pair of two records
    [i < j] of the index with their similarity, which meets the threshold,
    and the same two records are not reported the other way round. *)
Theorem similar_pairs_are_sound `{Faiss} (self : VectorSearchEngineState) (threshold : Q)
    (i : nat) (j : Z) (score : Q) :
  In (i, j, score) (VectorSearchEngine.get_similar_pairs self threshold) ->
  exists n,
    j = Z.of_nat n /\ (i < n < VectorSearchEngine.ntotal self)%nat /\
    score = similarity self i n /\ (threshold <= score)%Q /\
    forall score', ~ In (n, Z.of_nat i, score')
                        (VectorSearchEngine.get_similar_pairs self threshold).
Proof.
  intros Hin.
  destruct (get_similar_pairs_sound self threshold i j score Hin)
    as (n & -> & Hlt & Hs & Ht).
  exists n. repeat split; try assumption; try lia.
  intros score'. now apply (get_similar_pairs_one_way self threshold i n score).
Qed.

Lemma similar_pairs_are_sound_witness :
  In (0%nat, 1%Z, 4 # 5)
     (@VectorSearchEngine.get_similar_pairs exact_faiss three_records (1 # 2)) /\
  exists n,
    1%Z = Z.of_nat n /\ (0 < n < VectorSearchEngine.ntotal three_records)%nat /\
    (4 # 5) = @similarity exact_faiss three_records 0 n /\ (1 # 2 <= 4 # 5)%Q /\
    forall score', ~ In (n, Z.of_nat 0, score')
                        (@VectorSearchEngine.get_similar_pairs exact_faiss three_records
                           (1 # 2)).
Proof.
  assert (Hin : In (0%nat, 1%Z, 4 # 5)
                   (@VectorSearchEngine.get_similar_pairs exact_faiss three_records
                      (1 # 2)))
    by (vm_compute; left; reflexivity).
  split; [exact Hin|].
  exact (@similar_pairs_are_sound exact_faiss three_records (1 # 2) 0 1 (4 # 5) Hin).
Defined.

(** X20. On an index of ten records at most, [get_similar_pairs] misses
    nothing: every pair [i < j] whose similarity meets the threshold is
    reported, with that similarity. *)
Theorem similar_pairs_complete_up_to_ten `{Faiss} (self : VectorSearchEngineState)
    (threshold : Q) (i j : nat) :
  (VectorSearchEngine.ntotal self <= 10)%nat ->
  (i < j < VectorSearchEngine.ntotal self)%nat ->
  (threshold <= similarity self i j)%Q ->
  In (i, Z.of_nat j, similarity self i j)
     (VectorSearchEngine.get_similar_pairs self threshold).
Proof. apply get_similar_pairs_complete_small. Qed.

Lemma similar_pairs_complete_up_to_ten_witness :
  In (0%nat, Z.of_nat 1, @similarity exact_faiss three_records 0 1)
     (@VectorSearchEngine.get_similar_pairs exact_faiss three_records (1 # 2)).
Proof.
  apply (@similar_pairs_complete_up_to_ten exact_faiss three_records (1 # 2) 0 1).
  - vm_compute. repeat constructor.
  - split; vm_compute; repeat constructor.
  - vm_compute. discriminate.
Defined.

(** X21. [clear_index] brings an engine back to the state it was created
    in: after any sequence of [add_vectors] calls with fitting metadata
    and [clear_index] calls, clearing gives the engine [__init__] gives
    when there is no index file. *)
Theorem clear_index_is_a_fresh_engine `{Faiss} (settings : Settings)
    (self : VectorSearchEngineState) :
  reachable settings self ->
  VectorSearchEngine.clear_index self = VectorSearchEngine.__init__ settings.
Proof.
  intros Hr. destruct (reachable_settings settings self Hr) as (Hd & _ & Hp).
  unfold VectorSearchEngine.clear_index, VectorSearchEngine.__init__.
  now rewrite Hd, Hp.
Qed.

Lemma clear_index_is_a_fresh_engine_witness :
  VectorSearchEngine.clear_index refilled = VectorSearchEngine.__init__ plane_settings.
Proof.
  apply (@clear_index_is_a_fresh_engine exact_faiss plane_settings refilled).
  exact refilled_reachable.
Defined.

(** X22. What [save_index] wrote, [load_index] reads back: after a save
    that returned, a load from the same path, by any engine, gives the
    index, the texts, the metadata and the dimension of the engine that
    saved. *)
Theorem save_then_load (self other : VectorSearchEngineState)
    (path : option string) (disk disk' : Disk) :
  VectorSearchEngine.save_index self path disk = (Ok tt, disk') ->
  chosen_path other path = chosen_path self path ->
  VectorSearchEngine.load_index other path disk' =
  {| index := index self; index_d := index_d self;
     texts := texts self; metadata := metadata self;
     dimension := dimension self; index_path := index_path other |}.
Proof.
  intros Hsave Hpath. apply save_index_ok in Hsave as [Hi Hm].
  rewrite <- Hpath in Hi, Hm.
  now rewrite (load_index_found other path disk' _ _ _ Hi Hm).
Qed.

Lemma save_then_load_witness :
  VectorSearchEngine.load_index (VectorSearchEngine.__init__ default_settings)
    (Some "backup.bin")
    (snd (VectorSearchEngine.save_index three_records (Some "backup.bin") empty_disk))
  = {| index := index three_records; index_d := index_d three_records;
       texts := texts three_records;
       metadata := metadata three_records; dimension := dimension three_records;
       index_path := "faiss_index.bin" |}.
Proof.
  apply (save_then_load three_records (VectorSearchEngine.__init__ default_settings)
           (Some "backup.bin") empty_disk).
  - vm_compute. reflexivity.
  - reflexivity.
Defined.

(** X23. An engine saved at its own path comes back at the next start:
    when an engine created under these settings saved itself without a
    path and the save returned, [__init__] on that disk gives the engine
    as it was saved. *)
Theorem saved_engine_survives_restart (settings : Settings)
    (self : VectorSearchEngineState) (disk disk' : Disk) :
  index_path self = faiss_index_path settings ->
  VectorSearchEngine.save_index self None disk = (Ok tt, disk') ->
  VectorSearchEngine.__init__on settings disk' = self.
Proof.
  intros Hp Hsave.
  pose proof (save_index_ok self None disk disk' Hsave) as [Hi Hm].
  unfold chosen_path in Hi, Hm. simpl in Hi, Hm. rewrite Hp in Hi, Hm.
  unfold VectorSearchEngine.__init__on, VectorSearchEngine._initialize_index,
    os_path_exists.
  simpl. rewrite bool_decide_eq_true_2 by (rewrite Hi; now eexists).
  rewrite (load_index_found _ None disk' (index_d self) (index self)
             {| saved_texts := Some (texts self); saved_metadata := Some (metadata self);
                saved_dimension := Some (dimension self) |}) by assumption.
  simpl. rewrite <- Hp. now destruct self.
Qed.

Lemma saved_engine_survives_restart_witness :
  VectorSearchEngine.__init__on default_settings three_records_saved = three_records.
Proof.
  apply (saved_engine_survives_restart default_settings three_records empty_disk).
  - reflexivity.
  - vm_compute. reflexivity.
Defined.

(** X24. [load_index] does not raise, and a load that fails empties the
    engine: when there is no index file at the path, or the file there
    is not an index, or the pickle beside it cannot be loaded, the engine
    is left as [clear_index] leaves it, whatever it held before. *)
Theorem failed_load_empties_the_engine (self : VectorSearchEngineState)
    (path : option string) (disk : Disk) :
  (forall d rows, files disk !! chosen_path self path <> Some (IndexFile d rows)) \/
  (exists other, files disk !! (chosen_path self path +:+ ".metadata") = Some other /\
                 forall data, other <> PickleFile data) ->
  VectorSearchEngine.load_index self path disk = VectorSearchEngine.clear_index self.
Proof.
  unfold VectorSearchEngine.load_index, VectorSearchEngine.clear_index, faiss_read_index,
    os_path_exists, pickle_load.
  fold (chosen_path self path).
  intros [Hno|(other & Hm & Hbad)].
  - destruct (files disk !! chosen_path self path) as [[d rows| |]|] eqn:Hi;
      try reflexivity.
    now destruct (Hno d rows).
  - destruct (files disk !! chosen_path self path) as [[d rows| |]|]; try reflexivity.
    rewrite Hm. rewrite bool_decide_eq_true_2 by (now eexists).
    destruct other as [|data|]; try reflexivity. now destruct (Hbad data).
Qed.

Lemma failed_load_empties_the_engine_witness :
  VectorSearchEngine.load_index three_records (Some "missing.bin") empty_disk
  = VectorSearchEngine.clear_index three_records.
Proof.
  apply (failed_load_empties_the_engine three_records (Some "missing.bin") empty_disk).
  left. intros d rows. vm_compute. discriminate.
Defined.

(** X25. An index file without the pickle of the arrays beside it gives an
    engine whose searches raise: [__init__] loads the rows and leaves the
    texts empty, and a search without a threshold for at least one
    result, with a query within float32 of the dimension of the file,
    raises [IndexError] at the first row it formats.  The rows of the
    file are normalized, as [add_vectors] stores them: no component is
    beyond 1. *)
Theorem index_without_arrays_breaks_search `{Faiss} (settings : Settings) (disk : Disk)
    (d : Z) (rows : list vector) (query_embedding : vector) (top_k : Z) :
  files disk !! faiss_index_path settings = Some (IndexFile d rows) ->
  files disk !! (faiss_index_path settings +:+ ".metadata") = None ->
  rows <> [] ->
  Forall (Forall (fun x => (-1 <= x <= 1)%Q)) rows ->
  has_dimension d query_embedding ->
  within_float32 query_embedding ->
  (0 < top_k)%Z ->
  VectorSearchEngine.search (VectorSearchEngine.__init__on settings disk)
    query_embedding top_k None
  = Raise (IndexError "list index out of range").
Proof.
  intros Hi Hm Hrows _ Hd _ Hk.
  unfold VectorSearchEngine.__init__on, VectorSearchEngine._initialize_index,
    os_path_exists.
  simpl. rewrite bool_decide_eq_true_2 by (rewrite Hi; now eexists).
  unfold VectorSearchEngine.load_index, faiss_read_index, os_path_exists. simpl.
  rewrite Hi, Hm. rewrite bool_decide_eq_false_2 by (intros [x Hx]; discriminate).
  assert (Hn : length rows <> 0%nat) by (destruct rows; [congruence|discriminate]).
  rewrite search_checked by assumption.
  unfold VectorSearchEngine.ntotal. simpl.
  pose proof (faiss_search_clamped_length rows (normalize_L2 query_embedding)
                (Z.to_nat top_k)) as Hlen.
  destruct (faiss_search rows (normalize_L2 query_embedding)
              (Nat.min (Z.to_nat top_k) (length rows))) as [|[score idx] rest] eqn:Hfound.
  { simpl in Hlen. lia. }
  assert (Hin : In (score, idx)
                   (faiss_search rows (normalize_L2 query_embedding)
                      (Nat.min (Z.to_nat top_k) (length rows))))
    by (rewrite Hfound; now left).
  apply faiss_search_clamped_in in Hin as (n & row & -> & _).
  simpl. destruct (Z.eqb_spec (Z.of_nat n) (-1)); [lia|].
  unfold py_getitem. destruct (0 <=? Z.of_nat n)%Z eqn:Hpos; [reflexivity|].
  apply Z.leb_gt in Hpos. lia.
Qed.

Lemma index_without_arrays_breaks_search_witness :
  @VectorSearchEngine.search exact_faiss
    (VectorSearchEngine.__init__on default_settings orphan_disk) [1; 0]%Q 1 None
  = Raise (IndexError "list index out of range").
Proof.
  apply (@index_without_arrays_breaks_search exact_faiss default_settings orphan_disk
           2 [[1%Q; 0%Q]; [0%Q; 1%Q]] [1; 0]%Q 1).
  - reflexivity.
  - reflexivity.
  - discriminate.
  - repeat constructor; discriminate.
  - reflexivity.
  - repeat constructor; discriminate.
  - reflexivity.
Defined.

(** X26. Called with [use_cache] false, [get_embedding] and
    [get_batch_embeddings] leave the cache alone: no lookup, no write,
    whether they return or raise. *)
Theorem uncached_calls_leave_the_cache `{Hashlib} `{Providers} (settings : Settings)
    (w : World) (text : string) (texts : list string) (model : option string) :
  cache_manager (snd (EmbeddingService.get_embedding settings text model false w))
  = cache_manager w /\
  cache_manager (snd (EmbeddingService.get_batch_embeddings settings texts model false w))
  = cache_manager w.
Proof.
  split.
  - apply (cache_kept_get_embedding_uncached settings text model w).
  - apply (cache_kept_get_batch_embeddings_uncached settings texts model w).
Qed.

(** X27. When the API call of a batch raises, the batch falls back to the
    local model for all the misses, loading the model first when it is
    not loaded: with a model that loads and encodes the misses, the batch
    returns the cached vectors with the local vectors at the misses,
    under the name of the local model. *)
Theorem batch_falls_back_to_local_model `{Hashlib} `{Providers} (settings : Settings)
    (w : World) (texts : list string) (model : option string) (use_cache : bool)
    (name : string) (embeddings : list (option vector)) (uncached_indices : list nat)
    (uncached_texts : list string) (e : exn) (m : LocalModel)
    (new_embeddings : list vector) :
  (max_batch_size settings <? Z.of_nat (length texts))%Z = false ->
  resolved settings (openai_client (embedding_service w)) model = (openai, name) ->
  openai_client (embedding_service w) = true ->
  EmbeddingService.split_cached 0 (combine texts (batch_lookups use_cache texts name w))
  = (embeddings, uncached_indices, uncached_texts) ->
  uncached_texts <> [] ->
  openai_embeddings_create (openai_calls w) (Many uncached_texts) name = Raise e ->
  load_outcome settings w = Some m ->
  encode (local_encodes w) m uncached_texts = Ok new_embeddings ->
  fst (EmbeddingService.get_batch_embeddings settings texts model use_cache w)
  = Ok (EmbeddingService.store_new embeddings uncached_indices new_embeddings,
        embedding_model_local settings).
Proof.
  intros Hsize Hres Hc Hsplit Hne Hcall Hload Henc.
  rewrite (get_batch_embeddings_outcome settings texts model use_cache w Hsize).
  rewrite Hres, Hsplit. destruct uncached_texts as [|t rest]; [congruence|]. simpl.
  now apply (process_uncached_falls_back settings _ _ _ _ _ e m).
Qed.

Lemma batch_falls_back_to_local_model_witness :
  fst (@EmbeddingService.get_batch_embeddings plain_digest remote_down default_settings
         ["hello"; "hi"] None true cold_world)
  = Ok (EmbeddingService.store_new [None; None] [0; 1]%nat [[5; 1]; [2; 1]]%Q,
        embedding_model_local default_settings).
Proof.
  apply (@batch_falls_back_to_local_model plain_digest remote_down default_settings
           cold_world ["hello"; "hi"] None true "text-embedding-3-small"
           [None; None] [0; 1]%nat ["hello"; "hi"]
           (Exn "APIError" "rate limit exceeded") local_name).
  - reflexivity.
  - reflexivity.
  - reflexivity.
  - vm_compute. reflexivity.
  - discriminate.
  - reflexivity.
  - reflexivity.
  - reflexivity.
Defined.
